(** * Screenshot Beautifier (Canvas Studio): a model of [src/App.tsx]

    The development follows the component [App]: the settings record and its
    updates, the derived style values ([dropShadowCss], [noiseOpacity],
    [vignetteOpacity]), image ingestion ([readFile]) and the export handler
    ([handleExport]) with the file name it builds.

    A JavaScript [number] is an IEEE-754 binary64 value.  The derived style
    functions are written once, over an interface of the arithmetic they use,
    and read at two instances: [Binary64], the primitive floats that the
    engine computes with, and [Exact], the rationals in which the formulas of
    the specification are stated.

    A JavaScript string is a sequence of UTF-16 code units, [JsString]: so
    are the name of a file, the image name and the name of a download.
    [toLowerCase] reads it as code points and maps each by the Unicode
    Character Database.  Texts that are ASCII by construction (literals of
    the source, media types, data URLs, the colours of a colour input) are
    [string]s.

    React state is the record [State]; what lies outside it (the mounted
    preview node, reads and snapshots in progress, alerts and downloads) is
    the record [World].  The world also keeps the state of the render that
    React committed last: the attributes on the page and the variables of
    the handlers on it are those of that render, while a state setter acts
    on the state as it is.  Each event handler is a function on the world,
    run to its end or to its [await] before the next event is taken, as the
    event loop does; a render is an event of its own. *)

From Stdlib Require Import ZArith QArith Qround Qminmax Qabs Floats.
From Stdlib Require Import Bool List String Ascii DecimalString Lia Lqa.
Import ListNotations.

Set Warnings "-inexact-float".

(** * Part I: the program *)

(** ** Numbers *)

Declare Scope js_scope.
Delimit Scope js_scope with js.

Class JsNumber (num : Type) : Type := {
  lit : Q -> num;                 (* a numeric literal of the source text *)
  add : num -> num -> num;
  sub : num -> num -> num;
  mul : num -> num -> num;
  div : num -> num -> num;
  neg : num -> num;               (* unary minus *)
  leb : num -> num -> bool;       (* [<=] *)
  Math_min : num -> num -> num;
  Math_round : num -> num
}.

Arguments lit {num _} q%_Q.

Infix "+" := add : js_scope.
Infix "-" := sub : js_scope.
Infix "*" := mul : js_scope.
Infix "/" := div : js_scope.
Notation "- x" := (neg x) : js_scope.
Infix "<=?" := leb : js_scope.

(** *** binary64 *)

Module F64.

(** The integer [n] as a double (exact for |n| <= 2^53). *)
Definition of_Z (n : Z) : float :=
  SF2Prim (binary_normalize prec emax n 0 false).

(** A decimal literal [p/q] denotes the double nearest to it; numerator and
    denominator of the literals of this program are exact doubles, so the
    correctly rounded quotient is that double. *)
Definition of_Q (q : Q) : float :=
  PrimFloat.div (of_Z (Qnum q)) (of_Z (Zpos (Qden q))).

(** The exact value of a finite double, [None] for NaN and the infinities. *)
Definition to_Q (x : float) : option Q :=
  match Prim2SF x with
  | S754_zero _ => Some 0%Q
  | S754_finite s m e =>
      Some (if (0 <=? e)%Z
            then inject_Z (cond_Zopp s (Zpos m) * 2 ^ e)
            else Qmake (cond_Zopp s (Zpos m)) (Z.to_pos (2 ^ (- e))))
  | _ => None
  end.

(** [Math.min] of two arguments: NaN if either is NaN, [-0] below [+0]. *)
Definition min (x y : float) : float :=
  if PrimFloat.is_nan x || PrimFloat.is_nan y then PrimFloat.nan
  else if PrimFloat.ltb x y then x
  else if PrimFloat.ltb y x then y
  else if PrimFloat.get_sign x then x else y.

(** [Math.round]: the integral double closest to [x], the one towards
    +infinity when two are equally close; NaN, the infinities and the zeros
    are returned as they are, and a result of zero keeps the sign of [x].
    For a finite [x = (-1)^s * m * 2^e] with [e < 0] the integer is
    [floor (x + 1/2)], computed exactly. *)
Definition round (x : float) : float :=
  match Prim2SF x with
  | S754_finite s m e =>
      if (0 <=? e)%Z then x
      else
        let n := ((2 * cond_Zopp s (Zpos m) + 2 ^ (- e)) / 2 ^ (1 - e))%Z in
        if (n =? 0)%Z then (if s then PrimFloat.neg_zero else PrimFloat.zero)
        else of_Z n
  | _ => x
  end.

(** The sign bit of a double, [None] for NaN. *)
Definition sign_of (x : spec_float) : option bool :=
  match x with
  | S754_zero s | S754_infinity s | S754_finite s _ _ => Some s
  | S754_nan => None
  end.

(** Not negative: NaN, or sign bit clear. *)
Definition nonneg (x : spec_float) : Prop :=
  sign_of x = None \/ sign_of x = Some false.

End F64.

#[export] Instance Binary64 : JsNumber float := {
  lit := F64.of_Q;
  add := PrimFloat.add;
  sub := PrimFloat.sub;
  mul := PrimFloat.mul;
  div := PrimFloat.div;
  neg := PrimFloat.opp;
  leb := PrimFloat.leb;
  Math_min := F64.min;
  Math_round := F64.round
}.

(** *** exact rationals *)

#[export] Instance Exact : JsNumber Q := {
  lit := fun q => q;
  add := Qplus;
  sub := Qminus;
  mul := Qmult;
  div := Qdiv;
  neg := Qopp;
  leb := Qle_bool;
  Math_min := Qmin;
  Math_round := fun x => inject_Z (Qfloor (x + (1 # 2)))%Q
}.

(** [n] is [x] rounded half up: the integer in the interval (x - 1/2, x + 1/2]. *)
Definition round_half_up (n : Z) (x : Q) : Prop :=
  (x - (1 # 2) < inject_Z n /\ inject_Z n <= x + (1 # 2))%Q.

(** No integer is closer to [x] than [n]. *)
Definition nearest_int (n : Z) (x : Q) : Prop :=
  forall k : Z, (Qabs (inject_Z n - x) <= Qabs (inject_Z k - x))%Q.

(** ** Strings *)

Open Scope string_scope.
Open Scope list_scope.

(** A JavaScript string is a sequence of UTF-16 code units, the numbers
    below 2^16. *)
Definition JsString : Type := list N.

(** The string of a literal of the source text; its characters are ASCII. *)
Definition js (s : string) : JsString := map N_of_ascii (list_ascii_of_string s).

Definition isUpper (c : N) : bool := (65 <=? c)%N && (c <=? 90)%N.
Definition isLower (c : N) : bool := (97 <=? c)%N && (c <=? 122)%N.
Definition isDigit (c : N) : bool := (48 <=? c)%N && (c <=? 57)%N.

(** The character class [a-z0-9] of line 326. *)
Definition is_a_z_0_9 (c : N) : bool := isLower c || isDigit c.

Definition isHyphen (c : N) : bool := (c =? 45)%N.
Definition isColon (c : N) : bool := (c =? 58)%N.
Definition isDot (c : N) : bool := (c =? 46)%N.
Definition isSlash (c : N) : bool := (c =? 47)%N.

Definition isEmpty (s : JsString) : bool :=
  match s with
  | [] => true
  | _ :: _ => false
  end.

(** *** [String.prototype.toLowerCase]

    The string is read as code points, each code point is replaced by its
    lower-case mapping in the Unicode Character Database, and the result is
    written back as code units.  The mapping of a code point does not depend
    on the text around it, but for the capital sigma. *)

Module Unicode.
Local Open Scope N_scope.

Definition isLeadSurrogate (u : N) : bool := (0xD800 <=? u) && (u <=? 0xDBFF).
Definition isTrailSurrogate (u : N) : bool := (0xDC00 <=? u) && (u <=? 0xDFFF).

(** The code points of a string: a lead surrogate followed by a trail
    surrogate is one code point, any other code unit is one by itself. *)
Fixpoint StringToCodePoints (s : JsString) : list N :=
  match s with
  | [] => []
  | lead :: rest =>
      match rest with
      | trail :: rest' =>
          if isLeadSurrogate lead && isTrailSurrogate trail
          then (lead - 0xD800) * 0x400 + (trail - 0xDC00) + 0x10000
               :: StringToCodePoints rest'
          else lead :: StringToCodePoints rest
      | [] => [lead]
      end
  end.

(** The code units of a code point. *)
Definition UTF16EncodeCodePoint (cp : N) : JsString :=
  if cp <? 0x10000 then [cp]
  else [0xD800 + (cp - 0x10000) / 0x400; 0xDC00 + (cp - 0x10000) mod 0x400].

Definition CodePointsToString (cps : list N) : JsString :=
  flat_map UTF16EncodeCodePoint cps.

(** The tables are those of version 14.0 of the Unicode Character
    Database. *)

(** The simple lower-case mappings: [(first, last, step, lower)] maps
    [first], [first + step], ..., [last] to [lower], [lower + step], ... *)
Definition simpleLowercase : list (N * N * N * N) := [
  (0x41, 0x5A, 1, 0x61); (0xC0, 0xD6, 1, 0xE0); (0xD8, 0xDE, 1, 0xF8);
  (0x100, 0x12E, 2, 0x101); (0x132, 0x136, 2, 0x133); (0x139, 0x147, 2, 0x13A);
  (0x14A, 0x176, 2, 0x14B); (0x178, 0x178, 1, 0xFF); (0x179, 0x17D, 2, 0x17A);
  (0x181, 0x181, 1, 0x253); (0x182, 0x184, 2, 0x183); (0x186, 0x186, 1, 0x254);
  (0x187, 0x187, 1, 0x188); (0x189, 0x18A, 1, 0x256); (0x18B, 0x18B, 1, 0x18C);
  (0x18E, 0x18E, 1, 0x1DD); (0x18F, 0x18F, 1, 0x259); (0x190, 0x190, 1, 0x25B);
  (0x191, 0x191, 1, 0x192); (0x193, 0x193, 1, 0x260); (0x194, 0x194, 1, 0x263);
  (0x196, 0x196, 1, 0x269); (0x197, 0x197, 1, 0x268); (0x198, 0x198, 1, 0x199);
  (0x19C, 0x19C, 1, 0x26F); (0x19D, 0x19D, 1, 0x272); (0x19F, 0x19F, 1, 0x275);
  (0x1A0, 0x1A4, 2, 0x1A1); (0x1A6, 0x1A6, 1, 0x280); (0x1A7, 0x1A7, 1, 0x1A8);
  (0x1A9, 0x1A9, 1, 0x283); (0x1AC, 0x1AC, 1, 0x1AD); (0x1AE, 0x1AE, 1, 0x288);
  (0x1AF, 0x1AF, 1, 0x1B0); (0x1B1, 0x1B2, 1, 0x28A); (0x1B3, 0x1B5, 2, 0x1B4);
  (0x1B7, 0x1B7, 1, 0x292); (0x1B8, 0x1B8, 1, 0x1B9); (0x1BC, 0x1BC, 1, 0x1BD);
  (0x1C4, 0x1C4, 1, 0x1C6); (0x1C5, 0x1C5, 1, 0x1C6); (0x1C7, 0x1C7, 1, 0x1C9);
  (0x1C8, 0x1C8, 1, 0x1C9); (0x1CA, 0x1CA, 1, 0x1CC); (0x1CB, 0x1DB, 2, 0x1CC);
  (0x1DE, 0x1EE, 2, 0x1DF); (0x1F1, 0x1F1, 1, 0x1F3); (0x1F2, 0x1F4, 2, 0x1F3);
  (0x1F6, 0x1F6, 1, 0x195); (0x1F7, 0x1F7, 1, 0x1BF); (0x1F8, 0x21E, 2, 0x1F9);
  (0x220, 0x220, 1, 0x19E); (0x222, 0x232, 2, 0x223); (0x23A, 0x23A, 1, 0x2C65);
  (0x23B, 0x23B, 1, 0x23C); (0x23D, 0x23D, 1, 0x19A); (0x23E, 0x23E, 1, 0x2C66);
  (0x241, 0x241, 1, 0x242); (0x243, 0x243, 1, 0x180); (0x244, 0x244, 1, 0x289);
  (0x245, 0x245, 1, 0x28C); (0x246, 0x24E, 2, 0x247); (0x370, 0x372, 2, 0x371);
  (0x376, 0x376, 1, 0x377); (0x37F, 0x37F, 1, 0x3F3); (0x386, 0x386, 1, 0x3AC);
  (0x388, 0x38A, 1, 0x3AD); (0x38C, 0x38C, 1, 0x3CC); (0x38E, 0x38F, 1, 0x3CD);
  (0x391, 0x3A1, 1, 0x3B1); (0x3A3, 0x3AB, 1, 0x3C3); (0x3CF, 0x3CF, 1, 0x3D7);
  (0x3D8, 0x3EE, 2, 0x3D9); (0x3F4, 0x3F4, 1, 0x3B8); (0x3F7, 0x3F7, 1, 0x3F8);
  (0x3F9, 0x3F9, 1, 0x3F2); (0x3FA, 0x3FA, 1, 0x3FB); (0x3FD, 0x3FF, 1, 0x37B);
  (0x400, 0x40F, 1, 0x450); (0x410, 0x42F, 1, 0x430); (0x460, 0x480, 2, 0x461);
  (0x48A, 0x4BE, 2, 0x48B); (0x4C0, 0x4C0, 1, 0x4CF); (0x4C1, 0x4CD, 2, 0x4C2);
  (0x4D0, 0x52E, 2, 0x4D1); (0x531, 0x556, 1, 0x561); (0x10A0, 0x10C5, 1, 0x2D00);
  (0x10C7, 0x10C7, 1, 0x2D27); (0x10CD, 0x10CD, 1, 0x2D2D); (0x13A0, 0x13EF, 1, 0xAB70);
  (0x13F0, 0x13F5, 1, 0x13F8); (0x1C90, 0x1CBA, 1, 0x10D0); (0x1CBD, 0x1CBF, 1, 0x10FD);
  (0x1E00, 0x1E94, 2, 0x1E01); (0x1E9E, 0x1E9E, 1, 0xDF); (0x1EA0, 0x1EFE, 2, 0x1EA1);
  (0x1F08, 0x1F0F, 1, 0x1F00); (0x1F18, 0x1F1D, 1, 0x1F10); (0x1F28, 0x1F2F, 1, 0x1F20);
  (0x1F38, 0x1F3F, 1, 0x1F30); (0x1F48, 0x1F4D, 1, 0x1F40); (0x1F59, 0x1F5F, 2, 0x1F51);
  (0x1F68, 0x1F6F, 1, 0x1F60); (0x1F88, 0x1F8F, 1, 0x1F80); (0x1F98, 0x1F9F, 1, 0x1F90);
  (0x1FA8, 0x1FAF, 1, 0x1FA0); (0x1FB8, 0x1FB9, 1, 0x1FB0); (0x1FBA, 0x1FBB, 1, 0x1F70);
  (0x1FBC, 0x1FBC, 1, 0x1FB3); (0x1FC8, 0x1FCB, 1, 0x1F72); (0x1FCC, 0x1FCC, 1, 0x1FC3);
  (0x1FD8, 0x1FD9, 1, 0x1FD0); (0x1FDA, 0x1FDB, 1, 0x1F76); (0x1FE8, 0x1FE9, 1, 0x1FE0);
  (0x1FEA, 0x1FEB, 1, 0x1F7A); (0x1FEC, 0x1FEC, 1, 0x1FE5); (0x1FF8, 0x1FF9, 1, 0x1F78);
  (0x1FFA, 0x1FFB, 1, 0x1F7C); (0x1FFC, 0x1FFC, 1, 0x1FF3); (0x2126, 0x2126, 1, 0x3C9);
  (0x212A, 0x212A, 1, 0x6B); (0x212B, 0x212B, 1, 0xE5); (0x2132, 0x2132, 1, 0x214E);
  (0x2160, 0x216F, 1, 0x2170); (0x2183, 0x2183, 1, 0x2184); (0x24B6, 0x24CF, 1, 0x24D0);
  (0x2C00, 0x2C2F, 1, 0x2C30); (0x2C60, 0x2C60, 1, 0x2C61); (0x2C62, 0x2C62, 1, 0x26B);
  (0x2C63, 0x2C63, 1, 0x1D7D); (0x2C64, 0x2C64, 1, 0x27D); (0x2C67, 0x2C6B, 2, 0x2C68);
  (0x2C6D, 0x2C6D, 1, 0x251); (0x2C6E, 0x2C6E, 1, 0x271); (0x2C6F, 0x2C6F, 1, 0x250);
  (0x2C70, 0x2C70, 1, 0x252); (0x2C72, 0x2C72, 1, 0x2C73); (0x2C75, 0x2C75, 1, 0x2C76);
  (0x2C7E, 0x2C7F, 1, 0x23F); (0x2C80, 0x2CE2, 2, 0x2C81); (0x2CEB, 0x2CED, 2, 0x2CEC);
  (0x2CF2, 0x2CF2, 1, 0x2CF3); (0xA640, 0xA66C, 2, 0xA641); (0xA680, 0xA69A, 2, 0xA681);
  (0xA722, 0xA72E, 2, 0xA723); (0xA732, 0xA76E, 2, 0xA733); (0xA779, 0xA77B, 2, 0xA77A);
  (0xA77D, 0xA77D, 1, 0x1D79); (0xA77E, 0xA786, 2, 0xA77F); (0xA78B, 0xA78B, 1, 0xA78C);
  (0xA78D, 0xA78D, 1, 0x265); (0xA790, 0xA792, 2, 0xA791); (0xA796, 0xA7A8, 2, 0xA797);
  (0xA7AA, 0xA7AA, 1, 0x266); (0xA7AB, 0xA7AB, 1, 0x25C); (0xA7AC, 0xA7AC, 1, 0x261);
  (0xA7AD, 0xA7AD, 1, 0x26C); (0xA7AE, 0xA7AE, 1, 0x26A); (0xA7B0, 0xA7B0, 1, 0x29E);
  (0xA7B1, 0xA7B1, 1, 0x287); (0xA7B2, 0xA7B2, 1, 0x29D); (0xA7B3, 0xA7B3, 1, 0xAB53);
  (0xA7B4, 0xA7C2, 2, 0xA7B5); (0xA7C4, 0xA7C4, 1, 0xA794); (0xA7C5, 0xA7C5, 1, 0x282);
  (0xA7C6, 0xA7C6, 1, 0x1D8E); (0xA7C7, 0xA7C9, 2, 0xA7C8); (0xA7D0, 0xA7D0, 1, 0xA7D1);
  (0xA7D6, 0xA7D8, 2, 0xA7D7); (0xA7F5, 0xA7F5, 1, 0xA7F6); (0xFF21, 0xFF3A, 1, 0xFF41);
  (0x10400, 0x10427, 1, 0x10428); (0x104B0, 0x104D3, 1, 0x104D8); (0x10570, 0x1057A, 1, 0x10597);
  (0x1057C, 0x1058A, 1, 0x105A3); (0x1058C, 0x10592, 1, 0x105B3); (0x10594, 0x10595, 1, 0x105BB);
  (0x10C80, 0x10CB2, 1, 0x10CC0); (0x118A0, 0x118BF, 1, 0x118C0); (0x16E40, 0x16E5F, 1, 0x16E60);
  (0x1E900, 0x1E921, 1, 0x1E922)
].

(** The characters with the property Case_Ignorable, as ranges. *)
Definition caseIgnorable : list (N * N) := [
  (0x27, 0x27); (0x2E, 0x2E); (0x3A, 0x3A); (0x5E, 0x5E); (0x60, 0x60);
  (0xA8, 0xA8); (0xAD, 0xAD); (0xAF, 0xAF); (0xB4, 0xB4); (0xB7, 0xB8);
  (0x2B0, 0x36F); (0x374, 0x375); (0x37A, 0x37A); (0x384, 0x385); (0x387, 0x387);
  (0x483, 0x489); (0x559, 0x559); (0x55F, 0x55F); (0x591, 0x5BD); (0x5BF, 0x5BF);
  (0x5C1, 0x5C2); (0x5C4, 0x5C5); (0x5C7, 0x5C7); (0x5F4, 0x5F4); (0x600, 0x605);
  (0x610, 0x61A); (0x61C, 0x61C); (0x640, 0x640); (0x64B, 0x65F); (0x670, 0x670);
  (0x6D6, 0x6DD); (0x6DF, 0x6E8); (0x6EA, 0x6ED); (0x70F, 0x70F); (0x711, 0x711);
  (0x730, 0x74A); (0x7A6, 0x7B0); (0x7EB, 0x7F5); (0x7FA, 0x7FA); (0x7FD, 0x7FD);
  (0x816, 0x82D); (0x859, 0x85B); (0x888, 0x888); (0x890, 0x891); (0x898, 0x89F);
  (0x8C9, 0x902); (0x93A, 0x93A); (0x93C, 0x93C); (0x941, 0x948); (0x94D, 0x94D);
  (0x951, 0x957); (0x962, 0x963); (0x971, 0x971); (0x981, 0x981); (0x9BC, 0x9BC);
  (0x9C1, 0x9C4); (0x9CD, 0x9CD); (0x9E2, 0x9E3); (0x9FE, 0x9FE); (0xA01, 0xA02);
  (0xA3C, 0xA3C); (0xA41, 0xA42); (0xA47, 0xA48); (0xA4B, 0xA4D); (0xA51, 0xA51);
  (0xA70, 0xA71); (0xA75, 0xA75); (0xA81, 0xA82); (0xABC, 0xABC); (0xAC1, 0xAC5);
  (0xAC7, 0xAC8); (0xACD, 0xACD); (0xAE2, 0xAE3); (0xAFA, 0xAFF); (0xB01, 0xB01);
  (0xB3C, 0xB3C); (0xB3F, 0xB3F); (0xB41, 0xB44); (0xB4D, 0xB4D); (0xB55, 0xB56);
  (0xB62, 0xB63); (0xB82, 0xB82); (0xBC0, 0xBC0); (0xBCD, 0xBCD); (0xC00, 0xC00);
  (0xC04, 0xC04); (0xC3C, 0xC3C); (0xC3E, 0xC40); (0xC46, 0xC48); (0xC4A, 0xC4D);
  (0xC55, 0xC56); (0xC62, 0xC63); (0xC81, 0xC81); (0xCBC, 0xCBC); (0xCBF, 0xCBF);
  (0xCC6, 0xCC6); (0xCCC, 0xCCD); (0xCE2, 0xCE3); (0xD00, 0xD01); (0xD3B, 0xD3C);
  (0xD41, 0xD44); (0xD4D, 0xD4D); (0xD62, 0xD63); (0xD81, 0xD81); (0xDCA, 0xDCA);
  (0xDD2, 0xDD4); (0xDD6, 0xDD6); (0xE31, 0xE31); (0xE34, 0xE3A); (0xE46, 0xE4E);
  (0xEB1, 0xEB1); (0xEB4, 0xEBC); (0xEC6, 0xEC6); (0xEC8, 0xECD); (0xF18, 0xF19);
  (0xF35, 0xF35); (0xF37, 0xF37); (0xF39, 0xF39); (0xF71, 0xF7E); (0xF80, 0xF84);
  (0xF86, 0xF87); (0xF8D, 0xF97); (0xF99, 0xFBC); (0xFC6, 0xFC6); (0x102D, 0x1030);
  (0x1032, 0x1037); (0x1039, 0x103A); (0x103D, 0x103E); (0x1058, 0x1059); (0x105E, 0x1060);
  (0x1071, 0x1074); (0x1082, 0x1082); (0x1085, 0x1086); (0x108D, 0x108D); (0x109D, 0x109D);
  (0x10FC, 0x10FC); (0x135D, 0x135F); (0x1712, 0x1714); (0x1732, 0x1733); (0x1752, 0x1753);
  (0x1772, 0x1773); (0x17B4, 0x17B5); (0x17B7, 0x17BD); (0x17C6, 0x17C6); (0x17C9, 0x17D3);
  (0x17D7, 0x17D7); (0x17DD, 0x17DD); (0x180B, 0x180F); (0x1843, 0x1843); (0x1885, 0x1886);
  (0x18A9, 0x18A9); (0x1920, 0x1922); (0x1927, 0x1928); (0x1932, 0x1932); (0x1939, 0x193B);
  (0x1A17, 0x1A18); (0x1A1B, 0x1A1B); (0x1A56, 0x1A56); (0x1A58, 0x1A5E); (0x1A60, 0x1A60);
  (0x1A62, 0x1A62); (0x1A65, 0x1A6C); (0x1A73, 0x1A7C); (0x1A7F, 0x1A7F); (0x1AA7, 0x1AA7);
  (0x1AB0, 0x1ACE); (0x1B00, 0x1B03); (0x1B34, 0x1B34); (0x1B36, 0x1B3A); (0x1B3C, 0x1B3C);
  (0x1B42, 0x1B42); (0x1B6B, 0x1B73); (0x1B80, 0x1B81); (0x1BA2, 0x1BA5); (0x1BA8, 0x1BA9);
  (0x1BAB, 0x1BAD); (0x1BE6, 0x1BE6); (0x1BE8, 0x1BE9); (0x1BED, 0x1BED); (0x1BEF, 0x1BF1);
  (0x1C2C, 0x1C33); (0x1C36, 0x1C37); (0x1C78, 0x1C7D); (0x1CD0, 0x1CD2); (0x1CD4, 0x1CE0);
  (0x1CE2, 0x1CE8); (0x1CED, 0x1CED); (0x1CF4, 0x1CF4); (0x1CF8, 0x1CF9); (0x1D2C, 0x1D6A);
  (0x1D78, 0x1D78); (0x1D9B, 0x1DFF); (0x1FBD, 0x1FBD); (0x1FBF, 0x1FC1); (0x1FCD, 0x1FCF);
  (0x1FDD, 0x1FDF); (0x1FED, 0x1FEF); (0x1FFD, 0x1FFE); (0x200B, 0x200F); (0x2018, 0x2019);
  (0x2024, 0x2024); (0x2027, 0x2027); (0x202A, 0x202E); (0x2060, 0x2064); (0x2066, 0x206F);
  (0x2071, 0x2071); (0x207F, 0x207F); (0x2090, 0x209C); (0x20D0, 0x20F0); (0x2C7C, 0x2C7D);
  (0x2CEF, 0x2CF1); (0x2D6F, 0x2D6F); (0x2D7F, 0x2D7F); (0x2DE0, 0x2DFF); (0x2E2F, 0x2E2F);
  (0x3005, 0x3005); (0x302A, 0x302D); (0x3031, 0x3035); (0x303B, 0x303B); (0x3099, 0x309E);
  (0x30FC, 0x30FE); (0xA015, 0xA015); (0xA4F8, 0xA4FD); (0xA60C, 0xA60C); (0xA66F, 0xA672);
  (0xA674, 0xA67D); (0xA67F, 0xA67F); (0xA69C, 0xA69F); (0xA6F0, 0xA6F1); (0xA700, 0xA721);
  (0xA770, 0xA770); (0xA788, 0xA78A); (0xA7F2, 0xA7F4); (0xA7F8, 0xA7F9); (0xA802, 0xA802);
  (0xA806, 0xA806); (0xA80B, 0xA80B); (0xA825, 0xA826); (0xA82C, 0xA82C); (0xA8C4, 0xA8C5);
  (0xA8E0, 0xA8F1); (0xA8FF, 0xA8FF); (0xA926, 0xA92D); (0xA947, 0xA951); (0xA980, 0xA982);
  (0xA9B3, 0xA9B3); (0xA9B6, 0xA9B9); (0xA9BC, 0xA9BD); (0xA9CF, 0xA9CF); (0xA9E5, 0xA9E6);
  (0xAA29, 0xAA2E); (0xAA31, 0xAA32); (0xAA35, 0xAA36); (0xAA43, 0xAA43); (0xAA4C, 0xAA4C);
  (0xAA70, 0xAA70); (0xAA7C, 0xAA7C); (0xAAB0, 0xAAB0); (0xAAB2, 0xAAB4); (0xAAB7, 0xAAB8);
  (0xAABE, 0xAABF); (0xAAC1, 0xAAC1); (0xAADD, 0xAADD); (0xAAEC, 0xAAED); (0xAAF3, 0xAAF4);
  (0xAAF6, 0xAAF6); (0xAB5B, 0xAB5F); (0xAB69, 0xAB6B); (0xABE5, 0xABE5); (0xABE8, 0xABE8);
  (0xABED, 0xABED); (0xFB1E, 0xFB1E); (0xFBB2, 0xFBC2); (0xFE00, 0xFE0F); (0xFE13, 0xFE13);
  (0xFE20, 0xFE2F); (0xFE52, 0xFE52); (0xFE55, 0xFE55); (0xFEFF, 0xFEFF); (0xFF07, 0xFF07);
  (0xFF0E, 0xFF0E); (0xFF1A, 0xFF1A); (0xFF3E, 0xFF3E); (0xFF40, 0xFF40); (0xFF70, 0xFF70);
  (0xFF9E, 0xFF9F); (0xFFE3, 0xFFE3); (0xFFF9, 0xFFFB); (0x101FD, 0x101FD); (0x102E0, 0x102E0);
  (0x10376, 0x1037A); (0x10780, 0x10785); (0x10787, 0x107B0); (0x107B2, 0x107BA); (0x10A01, 0x10A03);
  (0x10A05, 0x10A06); (0x10A0C, 0x10A0F); (0x10A38, 0x10A3A); (0x10A3F, 0x10A3F); (0x10AE5, 0x10AE6);
  (0x10D24, 0x10D27); (0x10EAB, 0x10EAC); (0x10F46, 0x10F50); (0x10F82, 0x10F85); (0x11001, 0x11001);
  (0x11038, 0x11046); (0x11070, 0x11070); (0x11073, 0x11074); (0x1107F, 0x11081); (0x110B3, 0x110B6);
  (0x110B9, 0x110BA); (0x110BD, 0x110BD); (0x110C2, 0x110C2); (0x110CD, 0x110CD); (0x11100, 0x11102);
  (0x11127, 0x1112B); (0x1112D, 0x11134); (0x11173, 0x11173); (0x11180, 0x11181); (0x111B6, 0x111BE);
  (0x111C9, 0x111CC); (0x111CF, 0x111CF); (0x1122F, 0x11231); (0x11234, 0x11234); (0x11236, 0x11237);
  (0x1123E, 0x1123E); (0x112DF, 0x112DF); (0x112E3, 0x112EA); (0x11300, 0x11301); (0x1133B, 0x1133C);
  (0x11340, 0x11340); (0x11366, 0x1136C); (0x11370, 0x11374); (0x11438, 0x1143F); (0x11442, 0x11444);
  (0x11446, 0x11446); (0x1145E, 0x1145E); (0x114B3, 0x114B8); (0x114BA, 0x114BA); (0x114BF, 0x114C0);
  (0x114C2, 0x114C3); (0x115B2, 0x115B5); (0x115BC, 0x115BD); (0x115BF, 0x115C0); (0x115DC, 0x115DD);
  (0x11633, 0x1163A); (0x1163D, 0x1163D); (0x1163F, 0x11640); (0x116AB, 0x116AB); (0x116AD, 0x116AD);
  (0x116B0, 0x116B5); (0x116B7, 0x116B7); (0x1171D, 0x1171F); (0x11722, 0x11725); (0x11727, 0x1172B);
  (0x1182F, 0x11837); (0x11839, 0x1183A); (0x1193B, 0x1193C); (0x1193E, 0x1193E); (0x11943, 0x11943);
  (0x119D4, 0x119D7); (0x119DA, 0x119DB); (0x119E0, 0x119E0); (0x11A01, 0x11A0A); (0x11A33, 0x11A38);
  (0x11A3B, 0x11A3E); (0x11A47, 0x11A47); (0x11A51, 0x11A56); (0x11A59, 0x11A5B); (0x11A8A, 0x11A96);
  (0x11A98, 0x11A99); (0x11C30, 0x11C36); (0x11C38, 0x11C3D); (0x11C3F, 0x11C3F); (0x11C92, 0x11CA7);
  (0x11CAA, 0x11CB0); (0x11CB2, 0x11CB3); (0x11CB5, 0x11CB6); (0x11D31, 0x11D36); (0x11D3A, 0x11D3A);
  (0x11D3C, 0x11D3D); (0x11D3F, 0x11D45); (0x11D47, 0x11D47); (0x11D90, 0x11D91); (0x11D95, 0x11D95);
  (0x11D97, 0x11D97); (0x11EF3, 0x11EF4); (0x13430, 0x13438); (0x16AF0, 0x16AF4); (0x16B30, 0x16B36);
  (0x16B40, 0x16B43); (0x16F4F, 0x16F4F); (0x16F8F, 0x16F9F); (0x16FE0, 0x16FE1); (0x16FE3, 0x16FE4);
  (0x1AFF0, 0x1AFF3); (0x1AFF5, 0x1AFFB); (0x1AFFD, 0x1AFFE); (0x1BC9D, 0x1BC9E); (0x1BCA0, 0x1BCA3);
  (0x1CF00, 0x1CF2D); (0x1CF30, 0x1CF46); (0x1D167, 0x1D169); (0x1D173, 0x1D182); (0x1D185, 0x1D18B);
  (0x1D1AA, 0x1D1AD); (0x1D242, 0x1D244); (0x1DA00, 0x1DA36); (0x1DA3B, 0x1DA6C); (0x1DA75, 0x1DA75);
  (0x1DA84, 0x1DA84); (0x1DA9B, 0x1DA9F); (0x1DAA1, 0x1DAAF); (0x1E000, 0x1E006); (0x1E008, 0x1E018);
  (0x1E01B, 0x1E021); (0x1E023, 0x1E024); (0x1E026, 0x1E02A); (0x1E130, 0x1E13D); (0x1E2AE, 0x1E2AE);
  (0x1E2EC, 0x1E2EF); (0x1E8D0, 0x1E8D6); (0x1E944, 0x1E94B); (0x1F3FB, 0x1F3FF); (0xE0001, 0xE0001);
  (0xE0020, 0xE007F); (0xE0100, 0xE01EF)
].

(** The characters with the property Cased and without Case_Ignorable. *)
Definition casedLetter : list (N * N) := [
  (0x41, 0x5A); (0x61, 0x7A); (0xAA, 0xAA); (0xB5, 0xB5); (0xBA, 0xBA);
  (0xC0, 0xD6); (0xD8, 0xF6); (0xF8, 0x1BA); (0x1BC, 0x1BF); (0x1C4, 0x293);
  (0x295, 0x2AF); (0x370, 0x373); (0x376, 0x377); (0x37B, 0x37D); (0x37F, 0x37F);
  (0x386, 0x386); (0x388, 0x38A); (0x38C, 0x38C); (0x38E, 0x3A1); (0x3A3, 0x3F5);
  (0x3F7, 0x481); (0x48A, 0x52F); (0x531, 0x556); (0x560, 0x588); (0x10A0, 0x10C5);
  (0x10C7, 0x10C7); (0x10CD, 0x10CD); (0x10D0, 0x10FA); (0x10FD, 0x10FF); (0x13A0, 0x13F5);
  (0x13F8, 0x13FD); (0x1C80, 0x1C88); (0x1C90, 0x1CBA); (0x1CBD, 0x1CBF); (0x1D00, 0x1D2B);
  (0x1D6B, 0x1D77); (0x1D79, 0x1D9A); (0x1E00, 0x1F15); (0x1F18, 0x1F1D); (0x1F20, 0x1F45);
  (0x1F48, 0x1F4D); (0x1F50, 0x1F57); (0x1F59, 0x1F59); (0x1F5B, 0x1F5B); (0x1F5D, 0x1F5D);
  (0x1F5F, 0x1F7D); (0x1F80, 0x1FB4); (0x1FB6, 0x1FBC); (0x1FBE, 0x1FBE); (0x1FC2, 0x1FC4);
  (0x1FC6, 0x1FCC); (0x1FD0, 0x1FD3); (0x1FD6, 0x1FDB); (0x1FE0, 0x1FEC); (0x1FF2, 0x1FF4);
  (0x1FF6, 0x1FFC); (0x2102, 0x2102); (0x2107, 0x2107); (0x210A, 0x2113); (0x2115, 0x2115);
  (0x2119, 0x211D); (0x2124, 0x2124); (0x2126, 0x2126); (0x2128, 0x2128); (0x212A, 0x212D);
  (0x212F, 0x2134); (0x2139, 0x2139); (0x213C, 0x213F); (0x2145, 0x2149); (0x214E, 0x214E);
  (0x2160, 0x217F); (0x2183, 0x2184); (0x24B6, 0x24E9); (0x2C00, 0x2C7B); (0x2C7E, 0x2CE4);
  (0x2CEB, 0x2CEE); (0x2CF2, 0x2CF3); (0x2D00, 0x2D25); (0x2D27, 0x2D27); (0x2D2D, 0x2D2D);
  (0xA640, 0xA66D); (0xA680, 0xA69B); (0xA722, 0xA76F); (0xA771, 0xA787); (0xA78B, 0xA78E);
  (0xA790, 0xA7CA); (0xA7D0, 0xA7D1); (0xA7D3, 0xA7D3); (0xA7D5, 0xA7D9); (0xA7F5, 0xA7F6);
  (0xA7FA, 0xA7FA); (0xAB30, 0xAB5A); (0xAB60, 0xAB68); (0xAB70, 0xABBF); (0xFB00, 0xFB06);
  (0xFB13, 0xFB17); (0xFF21, 0xFF3A); (0xFF41, 0xFF5A); (0x10400, 0x1044F); (0x104B0, 0x104D3);
  (0x104D8, 0x104FB); (0x10570, 0x1057A); (0x1057C, 0x1058A); (0x1058C, 0x10592); (0x10594, 0x10595);
  (0x10597, 0x105A1); (0x105A3, 0x105B1); (0x105B3, 0x105B9); (0x105BB, 0x105BC); (0x10C80, 0x10CB2);
  (0x10CC0, 0x10CF2); (0x118A0, 0x118DF); (0x16E40, 0x16E7F); (0x1D400, 0x1D454); (0x1D456, 0x1D49C);
  (0x1D49E, 0x1D49F); (0x1D4A2, 0x1D4A2); (0x1D4A5, 0x1D4A6); (0x1D4A9, 0x1D4AC); (0x1D4AE, 0x1D4B9);
  (0x1D4BB, 0x1D4BB); (0x1D4BD, 0x1D4C3); (0x1D4C5, 0x1D505); (0x1D507, 0x1D50A); (0x1D50D, 0x1D514);
  (0x1D516, 0x1D51C); (0x1D51E, 0x1D539); (0x1D53B, 0x1D53E); (0x1D540, 0x1D544); (0x1D546, 0x1D546);
  (0x1D54A, 0x1D550); (0x1D552, 0x1D6A5); (0x1D6A8, 0x1D6C0); (0x1D6C2, 0x1D6DA); (0x1D6DC, 0x1D6FA);
  (0x1D6FC, 0x1D714); (0x1D716, 0x1D734); (0x1D736, 0x1D74E); (0x1D750, 0x1D76E); (0x1D770, 0x1D788);
  (0x1D78A, 0x1D7A8); (0x1D7AA, 0x1D7C2); (0x1D7C4, 0x1D7CB); (0x1DF00, 0x1DF09); (0x1DF0B, 0x1DF1E);
  (0x1E900, 0x1E943); (0x1F130, 0x1F149); (0x1F150, 0x1F169); (0x1F170, 0x1F189)
].

Definition inRanges (table : list (N * N)) (cp : N) : bool :=
  existsb (fun range => (fst range <=? cp) && (cp <=? snd range)) table.

Fixpoint lowerIn (table : list (N * N * N * N)) (cp : N) : N :=
  match table with
  | [] => cp
  | (first, last, step, lower) :: more =>
      if (first <=? cp) && (cp <=? last) && ((cp - first) mod step =? 0)
      then lower + (cp - first)
      else lowerIn more cp
  end.

(** The simple lower-case mapping of a code point; a code point without a
    mapping is its own. *)
Definition toLowerCodePoint (cp : N) : N := lowerIn simpleLowercase cp.

(** The text [s] goes on with a cased letter, after any number of
    case-ignorable characters. *)
Fixpoint cased_follows (s : list N) : bool :=
  match s with
  | [] => false
  | cp :: rest =>
      if inRanges caseIgnorable cp then cased_follows rest
      else inRanges casedLetter cp
  end.

Definition sigma : N := 0x3A3.
Definition small_sigma : N := 0x3C3.
Definition small_final_sigma : N := 0x3C2.
Definition I_with_dot : N := 0x130.

(** The lower-case mapping of a text.  Two code points stand apart: the
    capital I with dot above becomes [i] and a combining dot above, and the
    capital sigma becomes the final small sigma when it ends a word, that
    is when a cased letter comes before it ([afterCased], case-ignorable
    characters skipped) and none comes after it. *)
Fixpoint toLowercase (afterCased : bool) (s : list N) : list N :=
  match s with
  | [] => []
  | cp :: rest =>
      (if cp =? sigma then
         [if afterCased && negb (cased_follows rest) then small_final_sigma
          else small_sigma]
       else if cp =? I_with_dot then [0x69; 0x307]
       else [toLowerCodePoint cp])
      ++ toLowercase (if inRanges caseIgnorable cp then afterCased
                      else inRanges casedLetter cp) rest
  end.

End Unicode.

(** [String.prototype.toLowerCase]. *)
Definition toLowerCase (s : JsString) : JsString :=
  Unicode.CodePointsToString (Unicode.toLowercase false (Unicode.StringToCodePoints s)).

(** What it does to a code unit of ASCII text: a capital letter becomes the
    small one, 32 further. *)
Definition toLowerAscii (c : N) : N := if isUpper c then (c + 32)%N else c.

Definition isAscii (c : N) : bool := (c <? 128)%N.

(** *** Replacements *)

(** [.replace(/[^a-z0-9]+/g, '-')] (line 326): scanning from the left, a
    maximal run of code units outside the class is one match and becomes one
    hyphen; [inRun] says that the code unit before belonged to a match. *)
Fixpoint replace_runs (inRun : bool) (s : JsString) : JsString :=
  match s with
  | [] => []
  | c :: rest =>
      if is_a_z_0_9 c then c :: replace_runs false rest
      else if inRun then replace_runs true rest
      else 45%N :: replace_runs true rest
  end.

(** [.replace(/(^-|-$)/g, '')] (line 327): at each position the expression
    matches a hyphen that stands first ([^-]) or last ([-$]); a match is
    deleted.  [atStart] says that the position is the first. *)
Fixpoint replace_edges (atStart : bool) (s : JsString) : JsString :=
  match s with
  | [] => []
  | c :: rest =>
      if isHyphen c && (atStart || isEmpty rest)
      then replace_edges false rest
      else c :: replace_edges false rest
  end.

(** [.replace(/[:.]/g, '-')] (line 328). *)
Fixpoint replace_colon_dot (s : JsString) : JsString :=
  match s with
  | [] => []
  | c :: rest =>
      (if isColon c || isDot c then 45%N else c) :: replace_colon_dot rest
  end.

(** Every code unit of [s] satisfies [p]. *)
Fixpoint all_chars (p : N -> bool) (s : JsString) : bool :=
  match s with
  | [] => true
  | c :: rest => p c && all_chars p rest
  end.

(** [.replace(/\.[^/.]+$/, '')] (line 267): the first position where a dot
    is followed, up to the end, by one or more code units that are neither
    a slash nor a dot. *)
Fixpoint replace_extension (s : JsString) : JsString :=
  match s with
  | [] => []
  | c :: rest =>
      if isDot c && negb (isEmpty rest)
         && all_chars (fun d => negb (isSlash d || isDot d)) rest
      then []
      else c :: replace_extension rest
  end.

(** The operator [||] on strings: the empty string is falsy. *)
Definition or_else (s fallback : JsString) : JsString :=
  if isEmpty s then fallback else s.

(** [s] begins with [p]. *)
Fixpoint startsWith (p s : JsString) : bool :=
  match p, s with
  | [], _ => true
  | a :: p', b :: s' => (a =? b)%N && startsWith p' s'
  | _ :: _, [] => false
  end.

(** *** The instant of [new Date()] *)

(** The UTC fields of a [Date]. *)
Record Instant : Type := mkInstant {
  year : N;
  month : N;
  day : N;
  hours : N;
  minutes : N;
  seconds : N;
  milliseconds : N
}.

Fixpoint zeros (n : nat) : JsString :=
  match n with
  | O => []
  | S k => 48%N :: zeros k
  end.

(** Decimal digits of [n], padded with zeros on the left to [width]. *)
Definition pad (width : nat) (n : N) : JsString :=
  let digits := js (NilZero.string_of_uint (N.to_uint n)) in
  zeros (width - List.length digits) ++ digits.

(** [Date.prototype.toISOString]: [YYYY-MM-DDTHH:mm:ss.sssZ], the year with
    a sign and six digits when it has more than four. *)
Definition toISOString (d : Instant) : JsString :=
  (if (year d <=? 9999)%N then pad 4 (year d) else js "+" ++ pad 6 (year d))
  ++ js "-" ++ pad 2 (month d) ++ js "-" ++ pad 2 (day d)
  ++ js "T" ++ pad 2 (hours d) ++ js ":" ++ pad 2 (minutes d)
  ++ js ":" ++ pad 2 (seconds d)
  ++ js "." ++ pad 3 (milliseconds d) ++ js "Z".

(** ** The export scale (line 50, line 252) *)

Inductive ExportScale : Type := scale1 | scale2 | scale3.

Definition exportScaleOptions : list ExportScale := [scale1; scale2; scale3].

(** The text of the number in a template literal. *)
Definition scaleText (s : ExportScale) : JsString :=
  match s with
  | scale1 => js "1"
  | scale2 => js "2"
  | scale3 => js "3"
  end.

(** ** The file name of an export (lines 324-330) *)

Definition safeName (imageName : JsString) : JsString :=
  replace_edges true (replace_runs false (toLowerCase imageName)).

Definition timestamp (now : Instant) : JsString :=
  replace_colon_dot (toISOString now).

Definition downloadName (imageName : JsString) (exportScale : ExportScale)
    (now : Instant) : JsString :=
  or_else (safeName imageName) (js "screenshot")
  ++ js "-" ++ scaleText exportScale ++ js "x-" ++ timestamp now ++ js ".png".

(** *** The sanitization as the specification words it *)

(** Letters and digits: A-Z, a-z and 0-9. *)
Definition isAlphanumeric (c : N) : bool := isUpper c || isLower c || isDigit c.

(** The maximal runs of a string, each with whether its characters are
    alphanumeric. *)
Fixpoint runs (s : JsString) : list (bool * JsString) :=
  match s with
  | [] => []
  | c :: rest =>
      match runs rest with
      | (b, r) :: more =>
          if Bool.eqb b (isAlphanumeric c) then (b, c :: r) :: more
          else (isAlphanumeric c, [c]) :: (b, r) :: more
      | [] => [(isAlphanumeric c, [c])]
      end
  end.

(** The string starts with a character that is not alphanumeric. *)
Definition starts_outside (s : JsString) : bool :=
  match s with
  | c :: _ => negb (isAlphanumeric c)
  | [] => false
  end.

(** Each run of non-alphanumeric characters becomes a single hyphen. *)
Definition hyphenate_runs (s : JsString) : JsString :=
  List.concat (map (fun br : bool * JsString => if fst br then snd br else js "-") (runs s)).

Fixpoint drop_leading_hyphens (s : JsString) : JsString :=
  match s with
  | c :: rest => if isHyphen c then drop_leading_hyphens rest else s
  | [] => []
  end.

Fixpoint drop_trailing_hyphens (s : JsString) : JsString :=
  match s with
  | c :: rest =>
      match drop_trailing_hyphens rest with
      | [] => if isHyphen c then [] else [c]
      | kept => c :: kept
      end
  | [] => []
  end.

(** All leading and all trailing hyphens removed. *)
Definition trim_hyphens (s : JsString) : JsString :=
  drop_trailing_hyphens (drop_leading_hyphens s).

(** What the sanitized name looks like. *)
Definition starts_with_hyphen (s : JsString) : bool :=
  match s with
  | c :: _ => isHyphen c
  | [] => false
  end.

(** No two hyphens in a row: a hyphen is followed by a character that is not
    a hyphen, or by nothing. *)
Fixpoint single_hyphens (s : JsString) : bool :=
  match s with
  | [] => true
  | c :: rest =>
      negb (isHyphen c && starts_with_hyphen rest) && single_hyphens rest
  end.

Fixpoint last_char (s : JsString) : option N :=
  match s with
  | [] => None
  | [c] => Some c
  | _ :: rest => last_char rest
  end.

Definition ends_with_hyphen (s : JsString) : bool :=
  match last_char s with
  | Some c => isHyphen c
  | None => false
  end.

Definition not_colon_dot (c : N) : bool := negb (isColon c || isDot c).

(** The time stamp as the specification words it: the ISO-8601 instant with
    a hyphen where it has a colon or a dot. *)
Definition timestamp_spec (d : Instant) : JsString :=
  (if (year d <=? 9999)%N then pad 4 (year d) else js "+" ++ pad 6 (year d))
  ++ js "-" ++ pad 2 (month d) ++ js "-" ++ pad 2 (day d)
  ++ js "T" ++ pad 2 (hours d) ++ js "-" ++ pad 2 (minutes d)
  ++ js "-" ++ pad 2 (seconds d)
  ++ js "-" ++ pad 3 (milliseconds d) ++ js "Z".

(** The sanitized display name: lower case, each run of non-alphanumeric
    characters replaced by a single hyphen, leading and trailing hyphens
    trimmed, and ["screenshot"] if the result is empty. *)
Definition sanitize_spec (displayName : JsString) : JsString :=
  let s := trim_hyphens (hyphenate_runs (toLowerCase displayName)) in
  if isEmpty s then js "screenshot" else s.

(** ** The settings record (lines 6-21) *)

Inductive BackgroundType : Type := gradient | solid.

Record Settings {num : Type} : Type := mkSettings {
  borderRadius : num;
  padding : num;
  dropShadow : num;
  backgroundType : BackgroundType;
  gradientFrom : string;
  gradientTo : string;
  gradientAngle : num;
  backgroundColor : string;
  showWindowChrome : bool;
  windowAccent : string;
  noise : num;
  vignette : num
}.
Arguments Settings num : clear implicits.
Arguments mkSettings {num}.

(** The keys of [Settings] and the type of the value under each. *)
Inductive SettingsKey : Type :=
| K_borderRadius | K_padding | K_dropShadow | K_backgroundType
| K_gradientFrom | K_gradientTo | K_gradientAngle | K_backgroundColor
| K_showWindowChrome | K_windowAccent | K_noise | K_vignette.

Definition SettingsValue (num : Type) (key : SettingsKey) : Type :=
  match key with
  | K_borderRadius | K_padding | K_dropShadow | K_gradientAngle
  | K_noise | K_vignette => num
  | K_backgroundType => BackgroundType
  | K_gradientFrom | K_gradientTo | K_backgroundColor | K_windowAccent => string
  | K_showWindowChrome => bool
  end.

(** The presets (lines 36-48). *)
Record GradientPreset {num : Type} : Type := mkGradientPreset {
  gp_id : string;
  gp_label : string;
  gp_from : string;
  gp_to : string;
  gp_angle : num
}.
Arguments GradientPreset num : clear implicits.
Arguments mkGradientPreset {num}.

Record SolidPreset : Type := mkSolidPreset {
  sp_id : string;
  sp_label : string;
  sp_color : string
}.

Definition solidPresets : list SolidPreset := [
  mkSolidPreset "obsidian" "Obsidian" "#0f172a";
  mkSolidPreset "slate" "Slate" "#1f2937";
  mkSolidPreset "ocean" "Ocean" "#082f49";
  mkSolidPreset "ice" "Ice" "#e0f2fe"
].

(** ** Files *)

(** A [File]: its name, its declared media type (ASCII, in lower case), and
    the data URL that reading it yields. *)
Record File : Type := mkFile {
  file_name : JsString;
  file_type : string;
  file_dataUrl : string
}.

(** The [accept] attribute of the file input (line 373), and the media
    types it lists, separated by commas. *)
Definition accept : string := "image/png,image/jpeg,image/webp,image/svg+xml".

Fixpoint split_on (sep : ascii) (s : string) : list string :=
  match s with
  | EmptyString => [EmptyString]
  | String c rest =>
      if Ascii.eqb c sep then EmptyString :: split_on sep rest
      else match split_on sep rest with
           | item :: items => String c item :: items
           | [] => [String c EmptyString]
           end
  end.

Definition acceptedTypes : list string := split_on "," accept.

(** Three files to try the handlers on. *)
Definition notes_txt : File :=
  mkFile (js "notes.txt") "text/plain" "data:text/plain;base64,aGk=".

Definition shot_png : File :=
  mkFile (js "My Screenshot #1!.png") "image/png" "data:image/png;base64,iVBORw0KGgo=".

Definition anim_gif : File :=
  mkFile (js "anim.gif") "image/gif" "data:image/gif;base64,R0lGODlh".

Definition mem_string (s : string) (l : list string) : bool :=
  existsb (String.eqb s) l.

(** ** What a handler does outside the React state *)

Inductive Effect : Type :=
| Alert (message : string)                     (* window.alert *)
| ConsoleError (message : string)              (* console.error *)
| ToPng (pixelRatio : ExportScale)             (* toPng(previewRef.current, ...) *)
| Download (download : JsString) (href : string) (* link.click() *)
| ReadAsDataURL (file : File).                 (* reader.readAsDataURL(file) *)

(** How an awaited [toPng] ends. *)
Inductive Settled : Type :=
| Resolved (dataUrl : string)
| Rejected.

(** What the continuation of [handleExport] keeps of the render it was
    created in. *)
Record PendingExport : Type := mkPendingExport {
  captured_imageName : JsString;
  captured_exportScale : ExportScale
}.

(** ** The component [App] (lines 246-339) *)

Section App.
Context {num : Type} `{JsNumber num}.
Local Open Scope js_scope.

(** [gradientPresets] (lines 36-41). *)
Definition gradientPresets : list (GradientPreset num) := [
  mkGradientPreset "aurora" "Aurora" "#60a5fa" "#a855f7" (lit 130);
  mkGradientPreset "sunset" "Sunset" "#fb7185" "#f97316" (lit 140);
  mkGradientPreset "mint" "Mint" "#22d3ee" "#34d399" (lit 125);
  mkGradientPreset "midnight" "Midnight" "#1d4ed8" "#0f172a" (lit 150)
].

(** [DEFAULT_SETTINGS] (lines 231-244). *)
Definition DEFAULT_SETTINGS : Settings num := {|
  borderRadius := lit 36;
  padding := lit 72;
  dropShadow := lit 65;
  backgroundType := gradient;
  gradientFrom := "#60a5fa";
  gradientTo := "#a855f7";
  gradientAngle := lit 135;
  backgroundColor := "#0f172a";
  showWindowChrome := true;
  windowAccent := "#22d3ee";
  noise := lit 12;
  vignette := lit 40
|}.

(** The state of the component (lines 247-252). *)
Record State : Type := mkState {
  imageDataUrl : option string;        (* string | null *)
  imageName : JsString;
  settings : Settings num;
  isDragging : bool;
  isExporting : bool;
  exportScale : ExportScale
}.

Definition initialState : State := {|
  imageDataUrl := None;
  imageName := js "Screenshot";
  settings := DEFAULT_SETTINGS;
  isDragging := false;
  isExporting := false;
  exportScale := scale2
|}.

(** The argument of a state setter: a value, or a function of the previous
    value. *)
Inductive SetStateAction (A : Type) : Type :=
| Value (v : A)
| Updater (f : A -> A).
Arguments Value {A}.
Arguments Updater {A}.

Definition resolve {A : Type} (action : SetStateAction A) (previous : A) : A :=
  match action with
  | Value v => v
  | Updater f => f previous
  end.

Definition setImageDataUrl (v : option string) (st : State) : State :=
  {| imageDataUrl := v; imageName := imageName st; settings := settings st;
     isDragging := isDragging st; isExporting := isExporting st;
     exportScale := exportScale st |}.

Definition setImageName (v : JsString) (st : State) : State :=
  {| imageDataUrl := imageDataUrl st; imageName := v; settings := settings st;
     isDragging := isDragging st; isExporting := isExporting st;
     exportScale := exportScale st |}.

Definition setSettings (action : SetStateAction (Settings num)) (st : State) : State :=
  {| imageDataUrl := imageDataUrl st; imageName := imageName st;
     settings := resolve action (settings st);
     isDragging := isDragging st; isExporting := isExporting st;
     exportScale := exportScale st |}.

Definition setIsDragging (v : bool) (st : State) : State :=
  {| imageDataUrl := imageDataUrl st; imageName := imageName st; settings := settings st;
     isDragging := v; isExporting := isExporting st;
     exportScale := exportScale st |}.

Definition setIsExporting (v : bool) (st : State) : State :=
  {| imageDataUrl := imageDataUrl st; imageName := imageName st; settings := settings st;
     isDragging := isDragging st; isExporting := v;
     exportScale := exportScale st |}.

Definition setExportScale (v : ExportScale) (st : State) : State :=
  {| imageDataUrl := imageDataUrl st; imageName := imageName st; settings := settings st;
     isDragging := isDragging st; isExporting := isExporting st;
     exportScale := v |}.

(** The object [{ ...previous, [key]: value }]. *)
Definition with_key (key : SettingsKey) : SettingsValue num key -> Settings num -> Settings num :=
  match key with
  | K_borderRadius => fun v p =>
      mkSettings v (padding p) (dropShadow p) (backgroundType p) (gradientFrom p)
        (gradientTo p) (gradientAngle p) (backgroundColor p) (showWindowChrome p)
        (windowAccent p) (noise p) (vignette p)
  | K_padding => fun v p =>
      mkSettings (borderRadius p) v (dropShadow p) (backgroundType p) (gradientFrom p)
        (gradientTo p) (gradientAngle p) (backgroundColor p) (showWindowChrome p)
        (windowAccent p) (noise p) (vignette p)
  | K_dropShadow => fun v p =>
      mkSettings (borderRadius p) (padding p) v (backgroundType p) (gradientFrom p)
        (gradientTo p) (gradientAngle p) (backgroundColor p) (showWindowChrome p)
        (windowAccent p) (noise p) (vignette p)
  | K_backgroundType => fun v p =>
      mkSettings (borderRadius p) (padding p) (dropShadow p) v (gradientFrom p)
        (gradientTo p) (gradientAngle p) (backgroundColor p) (showWindowChrome p)
        (windowAccent p) (noise p) (vignette p)
  | K_gradientFrom => fun v p =>
      mkSettings (borderRadius p) (padding p) (dropShadow p) (backgroundType p) v
        (gradientTo p) (gradientAngle p) (backgroundColor p) (showWindowChrome p)
        (windowAccent p) (noise p) (vignette p)
  | K_gradientTo => fun v p =>
      mkSettings (borderRadius p) (padding p) (dropShadow p) (backgroundType p)
        (gradientFrom p) v (gradientAngle p) (backgroundColor p) (showWindowChrome p)
        (windowAccent p) (noise p) (vignette p)
  | K_gradientAngle => fun v p =>
      mkSettings (borderRadius p) (padding p) (dropShadow p) (backgroundType p)
        (gradientFrom p) (gradientTo p) v (backgroundColor p) (showWindowChrome p)
        (windowAccent p) (noise p) (vignette p)
  | K_backgroundColor => fun v p =>
      mkSettings (borderRadius p) (padding p) (dropShadow p) (backgroundType p)
        (gradientFrom p) (gradientTo p) (gradientAngle p) v (showWindowChrome p)
        (windowAccent p) (noise p) (vignette p)
  | K_showWindowChrome => fun v p =>
      mkSettings (borderRadius p) (padding p) (dropShadow p) (backgroundType p)
        (gradientFrom p) (gradientTo p) (gradientAngle p) (backgroundColor p) v
        (windowAccent p) (noise p) (vignette p)
  | K_windowAccent => fun v p =>
      mkSettings (borderRadius p) (padding p) (dropShadow p) (backgroundType p)
        (gradientFrom p) (gradientTo p) (gradientAngle p) (backgroundColor p)
        (showWindowChrome p) v (noise p) (vignette p)
  | K_noise => fun v p =>
      mkSettings (borderRadius p) (padding p) (dropShadow p) (backgroundType p)
        (gradientFrom p) (gradientTo p) (gradientAngle p) (backgroundColor p)
        (showWindowChrome p) (windowAccent p) v (vignette p)
  | K_vignette => fun v p =>
      mkSettings (borderRadius p) (padding p) (dropShadow p) (backgroundType p)
        (gradientFrom p) (gradientTo p) (gradientAngle p) (backgroundColor p)
        (showWindowChrome p) (windowAccent p) (noise p) v
  end.

(** [updateSetting] (lines 257-259). *)
Definition updateSetting (key : SettingsKey) (value : SettingsValue num key)
    (st : State) : State :=
  setSettings (Updater (fun previous => with_key key value previous)) st.

(** [resetSettings] (lines 309-311). *)
Definition resetSettings (st : State) : State :=
  setSettings (Value DEFAULT_SETTINGS) st.

(** The [onClick] of a gradient preset swatch (lines 665-674). *)
Definition onClickGradientPreset (preset : GradientPreset num) (st : State) : State :=
  setSettings (Updater (fun previous => {|
    borderRadius := borderRadius previous;
    padding := padding previous;
    dropShadow := dropShadow previous;
    backgroundType := gradient;
    gradientFrom := gp_from preset;
    gradientTo := gp_to preset;
    gradientAngle := gp_angle preset;
    backgroundColor := backgroundColor previous;
    showWindowChrome := showWindowChrome previous;
    windowAccent := windowAccent previous;
    noise := noise previous;
    vignette := vignette previous
  |})) st.

(** The [onClick] of a solid preset swatch (lines 696-703). *)
Definition onClickSolidPreset (preset : SolidPreset) (st : State) : State :=
  setSettings (Updater (fun previous => {|
    borderRadius := borderRadius previous;
    padding := padding previous;
    dropShadow := dropShadow previous;
    backgroundType := solid;
    gradientFrom := gradientFrom previous;
    gradientTo := gradientTo previous;
    gradientAngle := gradientAngle previous;
    backgroundColor := sp_color preset;
    showWindowChrome := showWindowChrome previous;
    windowAccent := windowAccent previous;
    noise := noise previous;
    vignette := vignette previous
  |})) st.

(** *** Derived style values (lines 341-364) *)

(** The value of the [box-shadow] property.  The source builds the text
    [0 {offsetY}px {blur}px {spread}px rgba(8, 15, 35, {opacity})] or
    ['none']; the model keeps the four interpolated numbers. *)
Inductive BoxShadow : Type :=
| ShadowNone
| Shadow (offsetY blur spread opacity : num).

(** [dropShadowCss] (lines 348-358). *)
Definition dropShadowCss (settings : Settings num) : BoxShadow :=
  if dropShadow settings <=? lit 1 then ShadowNone
  else
    let intensity := dropShadow settings / lit 100 in
    let blur := lit 40 + intensity * lit 140 in
    let spread := - lit 40 - intensity * lit 25 in
    let offsetY := lit 24 + intensity * lit 48 in
    let opacity := Math_min (lit 0.25 + intensity * lit 0.4) (lit 0.6) in
    Shadow (Math_round offsetY) (Math_round blur) (Math_round spread) opacity.

(** [noiseOpacity] and [vignetteOpacity] (lines 360-364). *)
Definition noiseOpacity (settings : Settings num) : num :=
  Math_min (noise settings / lit 100 * lit 0.35) (lit 0.3).

Definition vignetteOpacity (settings : Settings num) : num :=
  Math_min (vignette settings / lit 100 * lit 0.9) (lit 0.85).

(** *** The world around the state

    A state setter changes the state at once; the page changes when React
    renders the component from the state and commits the result.  Until
    then the attributes on the page, and the variables that the handlers on
    it have closed over, are those of the render committed last. *)

Record World : Type := mkWorld {
  state : State;                       (* every update made so far applied *)
  committed : State;                   (* the state of the render on the page *)
  previewRef : bool;                   (* previewRef.current is a node *)
  reading : list File;                 (* reads that have not ended *)
  exporting : list PendingExport;      (* calls of toPng that have not settled *)
  effects : list Effect                (* what has been done, latest last *)
}.

Definition initialWorld : World := {|
  state := initialState;
  committed := initialState;
  previewRef := true;
  reading := [];
  exporting := [];
  effects := []
|}.

Definition with_state (f : State -> State) (w : World) : World :=
  {| state := f (state w); committed := committed w; previewRef := previewRef w;
     reading := reading w; exporting := exporting w; effects := effects w |}.

(** React renders from the current state and commits. *)
Definition commit (w : World) : World :=
  {| state := state w; committed := state w; previewRef := previewRef w;
     reading := reading w; exporting := exporting w; effects := effects w |}.

Definition perform (e : list Effect) (w : World) : World :=
  {| state := state w; committed := committed w; previewRef := previewRef w;
     reading := reading w; exporting := exporting w; effects := effects w ++ e |}.

Definition with_reading (l : list File) (w : World) : World :=
  {| state := state w; committed := committed w; previewRef := previewRef w;
     reading := l; exporting := exporting w; effects := effects w |}.

Definition with_exporting (l : list PendingExport) (w : World) : World :=
  {| state := state w; committed := committed w; previewRef := previewRef w;
     reading := reading w; exporting := l; effects := effects w |}.

(** A data URL in a condition: [null] and the empty string are falsy. *)
Definition truthy (v : option string) : bool :=
  match v with
  | Some s => negb (String.eqb s "")
  | None => false
  end.

(** *** Image ingestion (lines 261-307) *)

(** [readFile] (lines 261-271), up to the start of the read. *)
Definition readFile (file : File) (w : World) : World :=
  if negb (String.prefix "image/" (file_type file)) then w
  else perform [ReadAsDataURL file] (with_reading (reading w ++ [file]) w).

(** [reader.onload] (lines 265-269). *)
Definition onload (file : File) (w : World) : World :=
  let friendlyName := replace_extension (file_name file) in
  with_state (fun st =>
    setImageName (or_else friendlyName (js "Screenshot"))
      (setImageDataUrl (Some (file_dataUrl file)) st)) w.

(** [handleFileInputChange] (lines 273-279); [files] is [event.target.files?.[0]]. *)
Definition handleFileInputChange (files : option File) (w : World) : World :=
  match files with
  | Some file => readFile file w
  | None => w
  end.

(** [handleDrop] (lines 281-288). *)
Definition handleDrop (files : option File) (w : World) : World :=
  let w := with_state (setIsDragging false) w in
  match files with
  | Some file => readFile file w
  | None => w
  end.

(** [handleDragOver] and [handleDragLeave] (lines 290-299); [isDragging] is
    the variable of the render the handler belongs to. *)
Definition handleDragOver (w : World) : World :=
  if negb (isDragging (committed w)) then with_state (setIsDragging true) w else w.

Definition handleDragLeave (w : World) : World :=
  with_state (setIsDragging false) w.

(** [handleClearImage] (lines 301-307). *)
Definition handleClearImage (w : World) : World :=
  with_state (fun st => setImageName (js "Screenshot") (setImageDataUrl None st)) w.

(** *** Export (lines 313-339) *)

(** [handleExport], from its call to its [await] (lines 313-323).  The
    variables [imageDataUrl], [exportScale] and [imageName] are those of the
    render the handler belongs to; [previewRef.current] and the setter are
    not. *)
Definition handleExport (w : World) : World :=
  let render := committed w in
  if negb (previewRef w) || negb (truthy (imageDataUrl render)) then
    perform [Alert "Upload a screenshot before exporting."] w
  else
    let pending := {| captured_imageName := imageName render;
                      captured_exportScale := exportScale render |} in
    perform [ToPng (exportScale render)]
      (with_exporting (exporting w ++ [pending])
        (with_state (setIsExporting true) w)).

(** [handleExport], from the end of its [await] on (lines 324-338); [now] is
    the value of [new Date()]. *)
Definition handleExport_resume (pending : PendingExport) (result : Settled)
    (now : Instant) (w : World) : World :=
  let w :=
    match result with
    | Resolved dataUrl =>
        perform [Download (downloadName (captured_imageName pending)
                             (captured_exportScale pending) now) dataUrl] w
    | Rejected =>
        perform [ConsoleError "Export failed";
                 Alert "Export failed. Please try again or lower the export size."] w
    end in
  with_state (setIsExporting false) w.

(** The [disabled] attribute of the export button (line 751). *)
Definition exportDisabled (st : State) : bool :=
  negb (truthy (imageDataUrl st)) || isExporting st.

(** The [disabled] attribute of the clear button (line 404). *)
Definition clearDisabled (st : State) : bool :=
  negb (truthy (imageDataUrl st)).

(** The [onClick] of the window chrome switch (lines 149-153 with 574-579):
    [onChange(!checked)], where [checked] is the property that the switch
    was rendered with and [onChange] updates that setting. *)
Definition onClickWindowChrome (checked : bool) (st : State) : State :=
  updateSetting K_showWindowChrome (negb checked) st.

(** *** Events *)

Inductive Event : Type :=
| Commit                                   (* React renders and commits *)
| ClickExport                              (* the export button *)
| CallExport                               (* handleExport called directly *)
| ToPngSettles (i : nat) (result : Settled) (now : Instant)
| ChooseFile (files : option File)         (* change of the file input *)
| DropFile (files : option File)
| DragOver
| DragLeave
| ReaderLoads (i : nat)                    (* load of the i-th read *)
| ClickClear
| ClickReset
| ClickGradientPreset (preset : GradientPreset num)
| ClickSolidPreset (preset : SolidPreset)
| ClickExportScale (option : ExportScale)
| ClickWindowChrome                        (* the switch *)
| Change (key : SettingsKey) (value : SettingsValue num key).

Fixpoint remove_nth {A : Type} (i : nat) (l : list A) : list A :=
  match l, i with
  | [], _ => []
  | _ :: rest, O => rest
  | x :: rest, S j => x :: remove_nth j rest
  end.

(** One event.  A click goes to the page as it was committed last: a click
    on a button that is disabled there does nothing, and the handler that
    runs is the one of that render. *)
Definition step (e : Event) (w : World) : World :=
  match e with
  | Commit => commit w
  | ClickExport => if exportDisabled (committed w) then w else handleExport w
  | CallExport => handleExport w
  | ToPngSettles i result now =>
      match nth_error (exporting w) i with
      | Some pending =>
          handleExport_resume pending result now
            (with_exporting (remove_nth i (exporting w)) w)
      | None => w
      end
  | ChooseFile files => handleFileInputChange files w
  | DropFile files => handleDrop files w
  | DragOver => handleDragOver w
  | DragLeave => handleDragLeave w
  | ReaderLoads i =>
      match nth_error (reading w) i with
      | Some file => onload file (with_reading (remove_nth i (reading w)) w)
      | None => w
      end
  | ClickClear => if clearDisabled (committed w) then w else handleClearImage w
  | ClickReset => with_state resetSettings w
  | ClickGradientPreset preset => with_state (onClickGradientPreset preset) w
  | ClickSolidPreset preset => with_state (onClickSolidPreset preset) w
  | ClickExportScale option => with_state (setExportScale option) w
  | ClickWindowChrome =>
      with_state (onClickWindowChrome (showWindowChrome (settings (committed w)))) w
  | Change key value => with_state (updateSetting key value) w
  end.

Fixpoint run (events : list Event) (w : World) : World :=
  match events with
  | [] => w
  | e :: rest => run rest (step e w)
  end.

(** An event of the page or of its environment: anything but a direct call
    of [handleExport]. *)
Definition no_direct_call (e : Event) : bool :=
  match e with
  | CallExport => false
  | _ => true
  end.

(** Every click on the export button comes after a render was committed
    since the click on it before; [fresh] says that one was committed since
    the last click. *)
Fixpoint clicks_after_commit (fresh : bool) (events : list Event) : bool :=
  match events with
  | [] => true
  | Commit :: rest => clicks_after_commit true rest
  | ClickExport :: rest => fresh && clicks_after_commit false rest
  | _ :: rest => clicks_after_commit fresh rest
  end.

(** The events, each followed by a render: so are the clicks of a user,
    React rendering at the end of a click, before the next event is taken. *)
Fixpoint each_committed (events : list Event) : list Event :=
  match events with
  | [] => []
  | e :: rest => e :: Commit :: each_committed rest
  end.

(** The flag [isExporting] counts the snapshots in progress. *)
Definition single_flight (w : World) : Prop :=
  List.length (exporting w) = if isExporting (state w) then 1%nat else 0%nat.

(** The page knows of the snapshot in progress, if a render was committed
    since the last click on the export button ([fresh]). *)
Definition flag_on_page (fresh : bool) (w : World) : Prop :=
  fresh = true -> isExporting (state w) = true -> isExporting (committed w) = true.

(** Whether a render was committed since the last click on the export
    button, after the event [e]. *)
Definition fresh_after (e : Event) (fresh : bool) : bool :=
  match e with
  | Commit => true
  | ClickExport => false
  | _ => fresh
  end.

(** The calls of [toPng] in a list of effects. *)
Definition is_ToPng (e : Effect) : bool :=
  match e with
  | ToPng _ => true
  | _ => false
  end.

Definition is_Download (e : Effect) : bool :=
  match e with
  | Download _ _ => true
  | _ => false
  end.

End App.

Arguments Value {A}.
Arguments Updater {A}.
Arguments State num : clear implicits.
Arguments World num : clear implicits.
Arguments Event num : clear implicits.
Arguments BoxShadow num : clear implicits.
Arguments ShadowNone {num}.
Arguments Shadow {num}.

(** Runs of the page on doubles: a PNG is dropped, loaded and shown; then
    the export is asked for twice before the first snapshot settles: by two
    clicks with a render committed between them, by two clicks with no render between them,
    and by direct calls of the handler. *)
Definition png_shown : list (Event float) :=
  [DropFile (Some shot_png); ReaderLoads 0; Commit].

Definition two_clicks : list (Event float) :=
  png_shown ++ [ClickExport; Commit; ClickExport].

Definition two_clicks_before_render : list (Event float) :=
  png_shown ++ [ClickExport; ClickExport].

Definition two_calls : list (Event float) :=
  png_shown ++ [CallExport; CallExport].

Definition gif_dropped : list (Event float) :=
  [DropFile (Some anim_gif); ReaderLoads 0].

Definition gif_shown : list (Event float) := gif_dropped ++ [Commit].

(** The second gradient preset and the last solid preset. *)
Definition sunset : GradientPreset float :=
  nth 1 gradientPresets (mkGradientPreset "" "" "" "" 0%float).

Definition ice : SolidPreset := nth 3 solidPresets (mkSolidPreset "" "" "").

(** *** The two readings of the arithmetic, side by side *)

(** A double and a rational are the same number. *)
Definition same_number (x : float) (q : Q) : bool :=
  match F64.to_Q x with
  | Some v => Qeq_bool v q
  | None => false
  end.

(** A double is within [eps] of a rational. *)
Definition within (eps : Q) (x : float) (q : Q) : bool :=
  match F64.to_Q x with
  | Some v => Qle_bool (Qabs (v - q)) eps
  | None => false
  end.

(** The unit roundoff of binary64, 2^-53. *)
Definition unit_roundoff : Q := 1 # (2 ^ 53).

(** The shadow computed in binary64 has the pixel values of the shadow
    computed exactly, and its opacity within the unit roundoff. *)
Definition shadow_agrees (f : BoxShadow float) (q : BoxShadow Q) : bool :=
  match f, q with
  | ShadowNone, ShadowNone => true
  | Shadow y b s o, Shadow y' b' s' o' =>
      same_number y y' && same_number b b' && same_number s s' && within unit_roundoff o o'
  | _, _ => false
  end.

(** The positions of a slider with [min=0], [max=100] and [step=1]. *)
Definition slider : list Z := map Z.of_nat (seq 0 101).

(** The default settings after [updateSetting('dropShadow', v)] and after
    [updateSetting('noise', v)]. *)
Definition with_dropShadow {num : Type} `{JsNumber num} (v : num) : Settings num :=
  with_key K_dropShadow v DEFAULT_SETTINGS.

Definition with_noise {num : Type} `{JsNumber num} (v : num) : Settings num :=
  with_key K_noise v DEFAULT_SETTINGS.

(** What the slider check of [noiseOpacity] asks of position [n]: the double
    is within the unit roundoff of [min (n * 0.0035) 0.3], it is the double
    [0.3] from 86 on and below it up to 85. *)
Definition noise_agrees (n : Z) : bool :=
  let x := noiseOpacity (with_noise (F64.of_Z n)) in
  within unit_roundoff x (Qmin (inject_Z n * 0.0035) 0.3)
  && (if (86 <=? n)%Z then PrimFloat.Leibniz.eqb x 0.3%float
      else PrimFloat.ltb x 0.3%float).

(** ** More of the component: background, swatches, switches *)

Definition BackgroundType_eqb (a b : BackgroundType) : bool :=
  match a, b with
  | gradient, gradient | solid, solid => true
  | _, _ => false
  end.

Section Controls.
Context {num : Type} `{JsNumber num}.

(** The text of a number in a template literal is left open: [numberText]. *)
Variable numberText : num -> string.

(** [canvasBackground] (lines 341-346). *)
Definition canvasBackground (settings : Settings num) : string :=
  match backgroundType settings with
  | solid => backgroundColor settings
  | gradient =>
      ("linear-gradient(" ++ numberText (gradientAngle settings) ++ "deg, "
       ++ gradientFrom settings ++ ", " ++ gradientTo settings ++ ")")%string
  end.

(** The [style] of a preset swatch (lines 662-664 and 694). *)
Definition gradientSwatchBackground (preset : GradientPreset num) : string :=
  ("linear-gradient(" ++ numberText (gp_angle preset) ++ "deg, "
   ++ gp_from preset ++ ", " ++ gp_to preset ++ ")")%string.

Definition solidSwatchBackground (preset : SolidPreset) : string :=
  sp_color preset.

End Controls.

Section Swatches.
Context {num : Type} `{JsNumber num}.

(** The [active] flag of a preset swatch (lines 657-661 and 690-693). *)
Definition gradientSwatchActive (preset : GradientPreset num) (settings : Settings num) : bool :=
  String.eqb (gradientFrom settings) (gp_from preset)
  && String.eqb (gradientTo settings) (gp_to preset)
  && BackgroundType_eqb (backgroundType settings) gradient.

Definition solidSwatchActive (preset : SolidPreset) (settings : Settings num) : bool :=
  String.eqb (backgroundColor settings) (sp_color preset)
  && BackgroundType_eqb (backgroundType settings) solid.

(** The image name is never empty, and it is ["Screenshot"] while no image
    is loaded. *)
Definition name_invariant (st : State num) : Prop :=
  imageName st <> [] /\
  (imageDataUrl st = None -> imageName st = js "Screenshot").

(** Events other than the end of a snapshot. *)
Definition no_snapshot_ends (e : Event num) : bool :=
  match e with
  | ToPngSettles _ _ _ => false
  | _ => true
  end.

End Swatches.

(** Counting effects. *)
Definition is_ConsoleError (e : Effect) : bool :=
  match e with
  | ConsoleError _ => true
  | _ => false
  end.

Definition is_Alert (e : Effect) : bool :=
  match e with
  | Alert _ => true
  | _ => false
  end.

Definition count (p : Effect -> bool) (l : list Effect) : nat :=
  List.length (filter p l).

(** Every call of [toPng] is accounted for: a download, a logged failure,
    or a call still in progress. *)
Definition balanced {num : Type} `{JsNumber num} (w : World num) : Prop :=
  count is_ToPng (effects w) =
    (count is_Download (effects w) + count is_ConsoleError (effects w)
     + List.length (exporting w))%nat.

(** The characters a download name is made of: a-z, 0-9, the hyphen, the
    dot of the extension, and the [T], [Z] and [+] of the time stamp. *)
Definition name_char (c : N) : bool :=
  is_a_z_0_9 c || isHyphen c || isDot c || (c =? 84)%N || (c =? 90)%N || (c =? 43)%N.

(** Some code unit of [s] satisfies [p]. *)
Fixpoint some_char (p : N -> bool) (s : JsString) : bool :=
  match s with
  | [] => false
  | c :: rest => p c || some_char p rest
  end.

(** The default settings after [updateSetting('vignette', v)]. *)
Definition with_vignette {num : Type} `{JsNumber num} (v : num) : Settings num :=
  with_key K_vignette v DEFAULT_SETTINGS.

(** What the slider check of [vignetteOpacity] asks of position [n]: the
    double is within twice the unit roundoff of [min (n * 0.009) 0.85], it is the
    double [0.85] from 95 on and below it up to 94. *)
Definition vignette_agrees (n : Z) : bool :=
  let x := vignetteOpacity (with_vignette (F64.of_Z n)) in
  within (2 * unit_roundoff) x (Qmin (inject_Z n * 0.009) 0.85)
  && (if (95 <=? n)%Z then PrimFloat.Leibniz.eqb x 0.85%float
      else PrimFloat.ltb x 0.85%float).

(** The integer that a double is, if it is one. *)
Definition pixel (x : float) : option Z :=
  match F64.to_Q x with
  | Some v => if Qeq_bool v (inject_Z (Qfloor v)) then Some (Qfloor v) else None
  | None => None
  end.

(** A double is an integer between [lo] and [hi]. *)
Definition pixel_between (lo hi : Z) (x : float) : bool :=
  match pixel x with
  | Some k => (lo <=? k)%Z && (k <=? hi)%Z
  | None => false
  end.

(** What the slider check of [dropShadowCss] asks of position [n]: no shadow
    up to 1; above, pixel values that are integers in their ranges, and an
    opacity above 0.25 and at most 0.6, the double [0.6] from 88 on and
    below it up to 87. *)
Definition shadow_bounded (n : Z) : bool :=
  match dropShadowCss (with_dropShadow (F64.of_Z n)) with
  | ShadowNone => (n <=? 1)%Z
  | Shadow offsetY blur spread opacity =>
      (1 <? n)%Z && pixel_between 24 72 offsetY && pixel_between 41 180 blur
      && pixel_between (-65) (-40) spread
      && PrimFloat.ltb 0.25%float opacity && PrimFloat.leb opacity 0.6%float
      && (if (88 <=? n)%Z then PrimFloat.Leibniz.eqb opacity 0.6%float
          else PrimFloat.ltb opacity 0.6%float)
  end.

(** A double just below 87.5. *)
Definition below_87_5 : float := 87.499999999999986%float.

(** A double that is a number and not below zero (either zero counts). *)
Definition not_below_zero (x : spec_float) : Prop :=
  match x with
  | S754_zero _ | S754_finite false _ _ | S754_infinity false => True
  | _ => False
  end.

(** Two image files and a data URL to try the handlers on. *)
Definition logo_svg : File :=
  mkFile (js "logo.v2.svg") "image/svg+xml" "data:image/svg+xml;base64,PHN2Zz4=".

Definition some_png : string := "data:image/png;base64,AAAA".

Definition noon : Instant := mkInstant 2024 1 2 12 0 0 0.

(** ** Memoized values (lines 341-364) *)

(** A memo cell: the dependencies of the last computation and its value. *)
Record Memo (D V : Type) : Type := mkMemo {
  memo_deps : D;
  memo_value : V
}.
Arguments mkMemo {D V}.
Arguments memo_deps {D V}.
Arguments memo_value {D V}.

(** [useMemo(compute, deps)]: the stored value when the dependencies are the
    same as the stored ones ([same] is [Object.is] on each), a fresh value
    otherwise and on the first render. *)
Definition useMemo {D V : Type} (same : D -> D -> bool) (compute : unit -> V)
    (deps : D) (cell : option (Memo D V)) : Memo D V :=
  match cell with
  | Some m => if same (memo_deps m) deps then m else mkMemo deps (compute tt)
  | None => mkMemo deps (compute tt)
  end.

(** [Object.is] on numbers is the identity of doubles: NaN is NaN, and the
    two zeros differ. *)
Definition same_number_value (a b : float) : bool := PrimFloat.Leibniz.eqb a b.

(** The dependencies of [canvasBackground]. *)
Definition canvasDeps (settings : Settings float)
    : BackgroundType * string * float * string * string :=
  (backgroundType settings, backgroundColor settings, gradientAngle settings,
   gradientFrom settings, gradientTo settings).

Definition same_canvasDeps (a b : BackgroundType * string * float * string * string) : bool :=
  let '(t, c, g, f, o) := a in
  let '(t', c', g', f', o') := b in
  BackgroundType_eqb t t' && String.eqb c c' && same_number_value g g'
  && String.eqb f f' && String.eqb o o'.

(** The four hooks of lines 341-364, on the cell of the render before. *)
Definition useCanvasBackground (numberText : float -> string) (settings : Settings float)
    (cell : option (Memo _ string)) : Memo _ string :=
  useMemo same_canvasDeps (fun _ => canvasBackground numberText settings)
    (canvasDeps settings) cell.

Definition useDropShadowCss (settings : Settings float)
    (cell : option (Memo float (BoxShadow float))) : Memo float (BoxShadow float) :=
  useMemo same_number_value (fun _ => dropShadowCss settings) (dropShadow settings) cell.

Definition useNoiseOpacity (settings : Settings float)
    (cell : option (Memo float float)) : Memo float float :=
  useMemo same_number_value (fun _ => noiseOpacity settings) (noise settings) cell.

Definition useVignetteOpacity (settings : Settings float)
    (cell : option (Memo float float)) : Memo float float :=
  useMemo same_number_value (fun _ => vignetteOpacity settings) (vignette settings) cell.

(** The cell after the renders with the settings [history], oldest first. *)
Fixpoint rendered {D V : Type} (hook : Settings float -> option (Memo D V) -> Memo D V)
    (history : list (Settings float)) (cell : option (Memo D V)) : option (Memo D V) :=
  match history with
  | [] => cell
  | settings :: later => rendered hook later (Some (hook settings cell))
  end.

(** * Part II: properties *)

(** A fact about the class of one code unit, by the bounds of the classes. *)
Ltac by_class_bounds :=
  intros;
  unfold name_char, not_colon_dot, isAlphanumeric, is_a_z_0_9 in *;
  unfold isUpper, isLower, isDigit, isHyphen, isColon, isDot, isSlash, isAscii in *;
  repeat match goal with
  | H : context [N.leb ?a ?b] |- _ => destruct (N.leb_spec a b)
  | |- context [N.leb ?a ?b] => destruct (N.leb_spec a b)
  | H : context [N.ltb ?a ?b] |- _ => destruct (N.ltb_spec a b)
  | |- context [N.ltb ?a ?b] => destruct (N.ltb_spec a b)
  | H : context [N.eqb ?a ?b] |- _ => destruct (N.eqb_spec a b)
  | |- context [N.eqb ?a ?b] => destruct (N.eqb_spec a b)
  end;
  cbn in *; try reflexivity; try discriminate; try congruence; try lia.

(** ** binary64 arithmetic *)

Module F64Facts.
Import F64.
Local Open Scope float_scope.

Lemma binary_round_aux_sign s m e l :
  sign_of (binary_round_aux prec emax s m e l) = None \/
  sign_of (binary_round_aux prec emax s m e l) = Some s.
Proof.
  unfold binary_round_aux.
  destruct (shr_fexp prec emax m e l) as [mrs' e'].
  destruct (shr_fexp prec emax _ e' loc_Exact) as [mrs'' e''].
  destruct (shr_m mrs''); simpl; auto;
    destruct (Z.leb _ _); simpl; auto.
Qed.

Lemma SFopp_binary_round_aux s m e l :
  SFopp (binary_round_aux prec emax s m e l) =
  binary_round_aux prec emax (negb s) m e l.
Proof.
  unfold binary_round_aux.
  destruct (shr_fexp prec emax m e l) as [mrs' e'].
  destruct (shr_fexp prec emax _ e' loc_Exact) as [mrs'' e''].
  destruct (shr_m mrs''); simpl; auto;
    destruct (Z.leb _ _); simpl; auto.
Qed.

Lemma SFopp_binary_round s m e :
  SFopp (binary_round prec emax s m e) = binary_round prec emax (negb s) m e.
Proof.
  unfold binary_round.
  destruct (shl_align m e _) as [mz ez].
  apply SFopp_binary_round_aux.
Qed.

(** A double that is not [<= 1] is NaN or has its sign bit clear. *)
Lemma not_leb_one_nonneg (d : float) :
  (d <=? 1) = false -> nonneg (Prim2SF d).
Proof.
  rewrite leb_spec. unfold nonneg.
  replace (Prim2SF 1) with (S754_finite false 4503599627370496 (-52))
    by (vm_compute; reflexivity).
  destruct (Prim2SF d) as [s|s| |s m e]; simpl; auto;
    destruct s; auto; discriminate.
Qed.

Lemma SFdiv_nonneg x m e :
  nonneg x -> nonneg (SF64div x (S754_finite false m e)).
Proof.
  unfold nonneg.
  destruct x as [sx|sx| |sx mx ex]; simpl; intros [Hx|Hx]; try discriminate; auto;
    injection Hx as ->; simpl; auto.
  destruct (SFdiv_core_binary _ _ _ _ _ _) as [[mz ez] lz].
  destruct (binary_round_aux_sign false mz ez lz); auto.
Qed.

Lemma SFmul_nonneg x m e :
  nonneg x -> nonneg (SF64mul x (S754_finite false m e)).
Proof.
  unfold nonneg.
  destruct x as [sx|sx| |sx mx ex]; simpl; intros [Hx|Hx]; try discriminate; auto;
    injection Hx as ->; simpl; auto.
  destruct (binary_round_aux_sign false (Z.pos (mx * m)) (ex + e) loc_Exact); auto.
Qed.

(** Subtracting a non-negative [y] from [-c] is negating [c + y]: no sum is
    zero here, so the signs of zero never differ. *)
Lemma SFsub_opp_add m e y :
  nonneg y ->
  SF64sub (SFopp (S754_finite false m e)) y =
  SFopp (SF64add (S754_finite false m e) y).
Proof.
  unfold nonneg.
  destruct y as [sy|sy| |sy my ey]; simpl; intros [Hy|Hy]; try discriminate; auto;
    injection Hy as ->; simpl; auto.
  symmetry. apply SFopp_binary_round.
Qed.

(** [-40 - d/100*25] and [-(40 + d/100*25)] are the same double whenever the
    shadow is drawn. *)
Lemma spread_opp (d : float) :
  (d <=? 1) = false -> opp 40 - d / 100 * 25 = - (40 + d / 100 * 25).
Proof.
  intros Hd. apply not_leb_one_nonneg in Hd.
  apply Prim2SF_inj.
  rewrite sub_spec, !opp_spec, add_spec, mul_spec, div_spec.
  replace (Prim2SF 40) with (S754_finite false 5629499534213120 (-47))
    by (vm_compute; reflexivity).
  replace (Prim2SF 25) with (S754_finite false 7036874417766400 (-48))
    by (vm_compute; reflexivity).
  replace (Prim2SF 100) with (S754_finite false 7036874417766400 (-46))
    by (vm_compute; reflexivity).
  apply SFsub_opp_add, SFmul_nonneg, SFdiv_nonneg, Hd.
Qed.

(** The literals of the derived style functions, as doubles. *)
Lemma lit_values :
  F64.of_Q 1 = 1 /\ F64.of_Q 100 = 100 /\ F64.of_Q 40 = 40 /\
  F64.of_Q 140 = 140 /\ F64.of_Q 25 = 25 /\ F64.of_Q 24 = 24 /\
  F64.of_Q 48 = 48 /\ F64.of_Q 0.25 = 0.25 /\ F64.of_Q 0.4 = 0.4 /\
  F64.of_Q 0.6 = 0.6 /\ F64.of_Q 0.35 = 0.35 /\ F64.of_Q 0.3 = 0.3 /\
  F64.of_Q 0.9 = 0.9 /\ F64.of_Q 0.85 = 0.85.
Proof. vm_compute. repeat split. Qed.

(** [Math.round] on doubles, at the values that single out its rule. *)
Lemma round_examples :
  round 2.5 = 3 /\ round (-2.5) = -2 /\ round 0.49999999999999994 = 0 /\
  round (-0.5) = neg_zero /\ round (-40.5) = -40 /\ round 55.2 = 55 /\
  round 1e300 = 1e300 /\ round infinity = infinity /\ round nan = nan.
Proof. vm_compute. repeat split. Qed.

Lemma in_slider (n : Z) : (0 <= n <= 100)%Z -> In n slider.
Proof.
  intros Hn. unfold slider.
  replace n with (Z.of_nat (Z.to_nat n)) by lia.
  apply in_map, in_seq. lia.
Qed.

Lemma on_slider (P : Z -> bool) :
  forallb P slider = true -> forall n, (0 <= n <= 100)%Z -> P n = true.
Proof.
  intros HP n Hn. rewrite forallb_forall in HP. apply HP, in_slider, Hn.
Qed.

End F64Facts.

(** ** exact arithmetic *)

Module ExactFacts.
Local Open Scope Q_scope.

Lemma Math_round_half_up (x : Q) : round_half_up (Qfloor (x + (1 # 2))) x.
Proof.
  unfold round_half_up.
  pose proof (Qfloor_le (x + (1 # 2))) as Hle.
  pose proof (Qlt_floor (x + (1 # 2))) as Hlt.
  rewrite inject_Z_plus in Hlt. change (inject_Z 1) with 1 in Hlt.
  split; lra.
Qed.

Lemma round_half_up_nearest n x : round_half_up n x -> nearest_int n x.
Proof.
  intros [Hlo Hhi] k.
  assert (Hn : Qabs (inject_Z n - x) <= 1 # 2) by (apply Qabs_Qle_condition; lra).
  destruct (Z.eq_dec k n) as [->|Hk]; [apply Qle_refl|].
  eapply Qle_trans; [exact Hn|].
  destruct (Z_lt_le_dec k n) as [Hlt|Hge].
  - assert (Hk1 : inject_Z k + inject_Z 1 <= inject_Z n)
      by (rewrite <- inject_Z_plus, <- Zle_Qle; lia).
    change (inject_Z 1) with 1 in Hk1.
    rewrite Qabs_neg by lra. lra.
  - assert (Hk1 : inject_Z n + inject_Z 1 <= inject_Z k)
      by (rewrite <- inject_Z_plus, <- Zle_Qle; lia).
    change (inject_Z 1) with 1 in Hk1.
    rewrite Qabs_pos by lra. lra.
Qed.

Lemma Qfloor_between (n : Z) (x : Q) :
  inject_Z n <= x -> x < inject_Z n + 1 -> Qfloor x = n.
Proof.
  intros Hlo Hhi.
  pose proof (Qfloor_le x) as H1. pose proof (Qlt_floor x) as H2.
  rewrite inject_Z_plus in H2. change (inject_Z 1) with 1 in H2.
  assert (H3 : inject_Z (Qfloor x) < inject_Z n + 1) by lra.
  assert (H4 : inject_Z n < inject_Z (Qfloor x) + 1) by lra.
  change 1 with (inject_Z 1) in H3, H4. rewrite <- inject_Z_plus in H3, H4.
  rewrite <- Zlt_Qlt in H3, H4. lia.
Qed.

End ExactFacts.

(** ** The derived style values *)

Module Style.
Import F64Facts ExactFacts.

Lemma dropShadowCss_f64_none (s : Settings float) :
  (dropShadow s <=? 1)%float = true -> dropShadowCss s = ShadowNone.
Proof.
  intros Hd. unfold dropShadowCss. cbn [leb lit Binary64].
  change (F64.of_Q 1) with 1%float. now rewrite Hd.
Qed.

Lemma dropShadowCss_f64_some (s : Settings float) :
  (dropShadow s <=? 1)%float = false ->
  dropShadowCss s =
    Shadow (F64.round (24 + dropShadow s / 100 * 48)%float)
           (F64.round (40 + dropShadow s / 100 * 140)%float)
           (F64.round (- (40 + dropShadow s / 100 * 25))%float)
           (F64.min (0.25 + dropShadow s / 100 * 0.4)%float 0.6%float).
Proof.
  intros Hd. unfold dropShadowCss.
  cbn [leb lit add sub mul div neg Math_min Math_round Binary64].
  change (F64.of_Q 1) with 1%float. rewrite Hd.
  change (F64.of_Q 100) with 100%float. change (F64.of_Q 40) with 40%float.
  change (F64.of_Q 140) with 140%float. change (F64.of_Q 25) with 25%float.
  change (F64.of_Q 24) with 24%float. change (F64.of_Q 48) with 48%float.
  change (F64.of_Q 0.25) with 0.25%float. change (F64.of_Q 0.4) with 0.4%float.
  change (F64.of_Q 0.6) with 0.6%float.
  now rewrite (spread_opp _ Hd).
Qed.

Lemma dropShadowCss_f64_full (s : Settings float) :
  dropShadow s = 100%float -> dropShadowCss s = Shadow 72%float 180%float (-65)%float 0.6%float.
Proof.
  intros Hd. unfold dropShadowCss. rewrite Hd. vm_compute. reflexivity.
Qed.

Local Open Scope Q_scope.

Lemma Qmin_eq_r (x y : Q) : y < x -> Qmin x y = y.
Proof.
  intros Hlt. unfold Qmin, GenericMinMax.gmin.
  now rewrite (proj1 (Qgt_alt x y) Hlt).
Qed.

Lemma Qmin_eq_l (x y : Q) : x <= y -> Qmin x y = x.
Proof.
  intros Hle. unfold Qmin, GenericMinMax.gmin.
  pose proof (proj1 (Qle_alt x y) Hle) as Hc.
  destruct (x ?= y); congruence.
Qed.

Lemma Math_round_exact_comp (x y : Q) : x == y -> Math_round x = Math_round y.
Proof.
  intros Hxy. cbn [Math_round Exact]. now rewrite Hxy.
Qed.

Lemma dropShadowCss_exact_none (s : Settings Q) :
  dropShadow s <= 1 -> dropShadowCss s = ShadowNone.
Proof.
  intros Hd. unfold dropShadowCss. cbn [leb lit Exact].
  apply Qle_bool_iff in Hd. now rewrite Hd.
Qed.

Lemma dropShadowCss_exact_some (s : Settings Q) :
  1 < dropShadow s ->
  dropShadowCss s =
    Shadow (Math_round (24 + dropShadow s / 100 * 48))
           (Math_round (40 + dropShadow s / 100 * 140))
           (Math_round (- (40 + dropShadow s / 100 * 25)))
           (Qmin (0.25 + dropShadow s / 100 * 0.4) 0.6).
Proof.
  intros Hd. unfold dropShadowCss.
  cbn [leb lit add sub mul div neg Math_min Exact].
  destruct (Qle_bool (dropShadow s) 1) eqn:Hle.
  - apply Qle_bool_iff in Hle. lra.
  - f_equal. apply Math_round_exact_comp. ring.
Qed.

Lemma dropShadowCss_exact_full (s : Settings Q) :
  dropShadow s == 100 -> dropShadowCss s = Shadow 72 180 (-65) 0.6.
Proof.
  intros Hd. rewrite dropShadowCss_exact_some by lra.
  assert (Hi : dropShadow s / 100 == 1) by (rewrite Hd; reflexivity).
  f_equal.
  - rewrite (Math_round_exact_comp _ 72) by (rewrite Hi; reflexivity). reflexivity.
  - rewrite (Math_round_exact_comp _ 180) by (rewrite Hi; reflexivity). reflexivity.
  - rewrite (Math_round_exact_comp _ (-65)) by (rewrite Hi; reflexivity). reflexivity.
  - apply Qmin_eq_r. rewrite Hi. reflexivity.
Qed.

(** On every position of the slider the shadow computed in binary64 is the
    shadow computed exactly: the same pixel values, the opacity within the
    unit roundoff. *)
Lemma dropShadowCss_slider (n : Z) :
  (0 <= n <= 100)%Z ->
  shadow_agrees (dropShadowCss (with_dropShadow (F64.of_Z n)))
                (dropShadowCss (with_dropShadow (inject_Z n))) = true.
Proof.
  apply (on_slider (fun n =>
    shadow_agrees (dropShadowCss (with_dropShadow (F64.of_Z n)))
                  (dropShadowCss (with_dropShadow (inject_Z n))))).
  vm_compute. reflexivity.
Qed.

(** The sibling of [noiseOpacity]: in exact arithmetic [vignetteOpacity] is
    [vignette * 0.009] capped at [0.85]. *)
Lemma vignetteOpacity_exact_closed (s : Settings Q) :
  vignetteOpacity s == Qmin (vignette s * 0.009) 0.85.
Proof.
  unfold vignetteOpacity. cbn [lit mul div Math_min Exact].
  apply Q.min_compat; [field | reflexivity].
Qed.

(** C1.  [dropShadowCss] is the sentinel ['none'] when [dropShadow <= 1];
    otherwise, with [intensity = dropShadow / 100], it carries the rounded
    [offsetY = 24 + intensity * 48], [blur = 40 + intensity * 140] and
    [spread = -(40 + intensity * 25)] and the unrounded
    [opacity = min (0.25 + intensity * 0.4) 0.6]; at [dropShadow = 100] these
    are 72, 180, -65 and 0.6.  This holds of the doubles the code computes
    (first part, for every double, NaN and the infinities included) and of
    the exact values (second part), where the rounding is to the nearest
    integer, halves upwards; on every position of the slider the two give
    the same pixel values (third part). *)
Theorem dropShadowCss_descriptor :
  (forall s : Settings float,
     ((dropShadow s <=? 1)%float = true -> dropShadowCss s = ShadowNone) /\
     ((dropShadow s <=? 1)%float = false ->
        let intensity := (dropShadow s / 100)%float in
        dropShadowCss s =
          Shadow (F64.round (24 + intensity * 48)%float)
                 (F64.round (40 + intensity * 140)%float)
                 (F64.round (- (40 + intensity * 25))%float)
                 (F64.min (0.25 + intensity * 0.4)%float 0.6%float)) /\
     (dropShadow s = 100%float ->
        dropShadowCss s = Shadow 72%float 180%float (-65)%float 0.6%float))
  /\
  (forall s : Settings Q,
     (dropShadow s <= 1 -> dropShadowCss s = ShadowNone) /\
     (1 < dropShadow s ->
        let intensity := dropShadow s / 100 in
        exists offsetY blur spread : Z,
          dropShadowCss s =
            Shadow (inject_Z offsetY) (inject_Z blur) (inject_Z spread)
                   (Qmin (0.25 + intensity * 0.4) 0.6) /\
          round_half_up offsetY (24 + intensity * 48) /\
          nearest_int offsetY (24 + intensity * 48) /\
          round_half_up blur (40 + intensity * 140) /\
          nearest_int blur (40 + intensity * 140) /\
          round_half_up spread (- (40 + intensity * 25)) /\
          nearest_int spread (- (40 + intensity * 25))) /\
     (dropShadow s == 100 -> dropShadowCss s = Shadow 72 180 (-65) 0.6))
  /\
  (forall n : Z, (0 <= n <= 100)%Z ->
     shadow_agrees (dropShadowCss (with_dropShadow (F64.of_Z n)))
                   (dropShadowCss (with_dropShadow (inject_Z n))) = true).
Proof.
  split; [|split].
  - intros s. split; [|split].
    + apply dropShadowCss_f64_none.
    + intros Hd. cbv zeta. apply dropShadowCss_f64_some, Hd.
    + apply dropShadowCss_f64_full.
  - intros s. split; [|split].
    + apply dropShadowCss_exact_none.
    + intros Hd. cbv zeta.
      exists (Qfloor (24 + dropShadow s / 100 * 48 + (1 # 2))),
             (Qfloor (40 + dropShadow s / 100 * 140 + (1 # 2))),
             (Qfloor (- (40 + dropShadow s / 100 * 25) + (1 # 2))).
      split; [apply dropShadowCss_exact_some, Hd|].
      repeat split;
        first [ apply Math_round_half_up
              | apply round_half_up_nearest, Math_round_half_up ].
    + apply dropShadowCss_exact_full.
  - apply dropShadowCss_slider.
Qed.

(** The default shadow intensity, 65, through the theorem. *)
Lemma dropShadowCss_descriptor_default :
  (dropShadow (with_dropShadow 65%float) <=? 1)%float = false /\
  dropShadowCss (with_dropShadow 65%float) =
    Shadow 55%float 131%float (-56)%float 0.51%float.
Proof.
  split; [reflexivity|].
  exact (proj1 (proj2 (proj1 dropShadowCss_descriptor (with_dropShadow 65%float)))
           eq_refl).
Defined.

Lemma noiseOpacity_f64 (s : Settings float) :
  noiseOpacity s = F64.min (noise s / 100 * 0.35)%float 0.3%float.
Proof. reflexivity. Qed.

Lemma noiseOpacity_exact_closed (s : Settings Q) :
  noiseOpacity s == Qmin (noise s * 0.0035) 0.3.
Proof.
  unfold noiseOpacity. cbn [lit mul div Math_min Exact].
  apply Q.min_compat; [field | reflexivity].
Qed.

Lemma noiseOpacity_exact_cap (s : Settings Q) :
  noiseOpacity s == 0.3 <-> 0.3 / 0.0035 <= noise s.
Proof.
  rewrite noiseOpacity_exact_closed, Q.min_r_iff.
  assert (Hc : 0.3 / 0.0035 == 600 # 7) by reflexivity.
  rewrite Hc. split; intros Hn; lra.
Qed.

Lemma noiseOpacity_slider (n : Z) :
  (0 <= n <= 100)%Z -> noise_agrees n = true.
Proof. apply (on_slider noise_agrees). vm_compute. reflexivity. Qed.

(** C7.  [noiseOpacity] is [min (noise / 100 * 0.35) 0.3]: for every noise,
    so for every noise in [0, 100], of the doubles the code computes (first
    part) and of the exact values (second part), where it is
    [noise * 0.0035] capped at [0.3], the cap being reached exactly from
    [0.3 / 0.0035], which lies between 85.7 and 85.8, on.  On the positions
    of the slider the double is within the unit roundoff of that value, it is
    the double [0.3] from 86 on and below it up to 85 (third part). *)
Theorem noiseOpacity_capped :
  (forall s : Settings float,
     noiseOpacity s = F64.min (noise s / 100 * 0.35)%float 0.3%float)
  /\
  (forall s : Settings Q,
     noiseOpacity s = Qmin (noise s / 100 * 0.35) 0.3 /\
     noiseOpacity s == Qmin (noise s * 0.0035) 0.3 /\
     (noiseOpacity s == 0.3 <-> 0.3 / 0.0035 <= noise s) /\
     (noise s < 0.3 / 0.0035 -> noiseOpacity s == noise s * 0.0035))
  /\
  (85.7 < 0.3 / 0.0035 /\ 0.3 / 0.0035 < 85.8)
  /\
  (forall n : Z, (0 <= n <= 100)%Z ->
     let x := noiseOpacity (with_noise (F64.of_Z n)) in
     within unit_roundoff x (Qmin (inject_Z n * 0.0035) 0.3) = true /\
     ((86 <= n)%Z -> x = 0.3%float) /\
     ((n <= 85)%Z -> (x <? 0.3)%float = true)).
Proof.
  split; [exact noiseOpacity_f64|]. split; [|split].
  - intros s. split; [reflexivity|]. split; [apply noiseOpacity_exact_closed|].
    split; [apply noiseOpacity_exact_cap|].
    intros Hn. rewrite noiseOpacity_exact_closed. apply Q.min_l.
    assert (Hc : 0.3 / 0.0035 == 600 # 7) by reflexivity.
    rewrite Hc in Hn. lra.
  - split; reflexivity.
  - intros n Hn. cbv zeta.
    pose proof (noiseOpacity_slider n Hn) as Hs. unfold noise_agrees in Hs.
    apply andb_prop in Hs as [Hw Hc]. split; [exact Hw|].
    split; intros Hn'.
    + destruct (86 <=? n)%Z eqn:Hb; [|lia].
      now apply FloatAxioms.Leibniz.eqb_spec.
    + destruct (86 <=? n)%Z eqn:Hb; [lia|]. exact Hc.
Qed.

(** Slider position 90 through the theorem: the cap. *)
Lemma noiseOpacity_capped_at_90 :
  noiseOpacity (with_noise (F64.of_Z 90)) = 0.3%float.
Proof.
  refine (proj1 (proj2 (proj2 (proj2 (proj2 noiseOpacity_capped)) 90%Z _)) _); lia.
Defined.

End Style.

(** ** Lower case *)

Module UnicodeFacts.
Import Unicode.
Local Open Scope N_scope.

Lemma lowerIn_beyond (bound : N) (table : list (N * N * N * N)) (cp : N) :
  forallb (fun entry => let '(first, _, _, _) := entry in bound <? first) table = true ->
  cp <= bound -> lowerIn table cp = cp.
Proof.
  intros Ht Hc. induction table as [|[[[first last] step] lower] more IH]; [reflexivity|].
  cbn [forallb] in Ht. apply andb_prop in Ht as [Hf Hmore].
  apply N.ltb_lt in Hf. cbn [lowerIn].
  destruct (N.leb_spec first cp); [lia|]. cbn [andb]. now apply IH.
Qed.

Lemma lowerIn_no_capital (table : list (N * N * N * N)) (cp : N) :
  forallb (fun entry => let '(_, _, _, lower) := entry in 90 <? lower) table = true ->
  isUpper cp = false -> isUpper (lowerIn table cp) = false.
Proof.
  intros Ht Hc. induction table as [|[[[first last] step] lower] more IH]; [exact Hc|].
  cbn [forallb] in Ht. apply andb_prop in Ht as [Hl Hmore].
  apply N.ltb_lt in Hl. cbn [lowerIn].
  destruct (_ && _ && _); [|now apply IH].
  unfold isUpper. destruct (N.leb_spec (lower + (cp - first)) 90); [lia|].
  apply andb_false_r.
Qed.

Lemma simpleLowercase_split :
  simpleLowercase = (0x41, 0x5A, 1, 0x61) :: tl simpleLowercase.
Proof. reflexivity. Qed.

(** On ASCII the mapping turns a capital letter into the small one and
    leaves every other character. *)
Lemma toLowerCodePoint_ascii (cp : N) :
  isAscii cp = true -> toLowerCodePoint cp = toLowerAscii cp.
Proof.
  unfold isAscii. intros Hc. apply N.ltb_lt in Hc.
  unfold toLowerCodePoint, toLowerAscii. rewrite simpleLowercase_split.
  cbn [lowerIn]. unfold isUpper. rewrite N.mod_1_r. cbn [N.eqb andb].
  destruct (N.leb_spec 65 cp), (N.leb_spec cp 90); cbn [andb]; try lia.
  all: apply (lowerIn_beyond 127); [vm_compute; reflexivity | lia].
Qed.

(** No code point has a capital letter A-Z for its lower case. *)
Lemma toLowerCodePoint_no_capital (cp : N) : isUpper (toLowerCodePoint cp) = false.
Proof.
  destruct (isUpper cp) eqn:Hu.
  - assert (Ha : isAscii cp = true).
    { unfold isUpper in Hu. unfold isAscii. apply andb_prop in Hu as [_ Hu].
      apply N.leb_le in Hu. apply N.ltb_lt. lia. }
    rewrite (toLowerCodePoint_ascii cp Ha). unfold toLowerAscii. rewrite Hu.
    unfold isUpper in *. apply andb_prop in Hu as [H1 H2].
    apply N.leb_le in H1, H2.
    destruct (N.leb_spec (cp + 32) 90); [lia|]. apply andb_false_r.
  - apply lowerIn_no_capital; [vm_compute; reflexivity | exact Hu].
Qed.

Lemma all_chars_app (p : N -> bool) (s t : JsString) :
  all_chars p (s ++ t) = all_chars p s && all_chars p t.
Proof.
  induction s as [|c rest IH]; [reflexivity|].
  cbn [app all_chars]. now rewrite IH, andb_assoc.
Qed.

Lemma toLowercase_no_capitals (afterCased : bool) (s : list N) :
  all_chars (fun c => negb (isUpper c)) (toLowercase afterCased s) = true.
Proof.
  revert afterCased. induction s as [|cp rest IH]; intros afterCased; [reflexivity|].
  cbn [toLowercase]. rewrite all_chars_app, IH, andb_true_r.
  destruct (cp =? sigma); [destruct (_ && _); reflexivity|].
  destruct (cp =? I_with_dot); [reflexivity|].
  cbn [all_chars]. now rewrite toLowerCodePoint_no_capital.
Qed.

Lemma CodePointsToString_no_capitals (cps : list N) :
  all_chars (fun c => negb (isUpper c)) cps = true ->
  all_chars (fun c => negb (isUpper c)) (CodePointsToString cps) = true.
Proof.
  induction cps as [|cp rest IH]; [reflexivity|].
  cbn [all_chars]. intros Hs. apply andb_prop in Hs as [Hc Hrest].
  change (CodePointsToString (cp :: rest))
    with (UTF16EncodeCodePoint cp ++ CodePointsToString rest).
  rewrite all_chars_app, (IH Hrest), andb_true_r.
  unfold UTF16EncodeCodePoint. destruct (cp <? 0x10000).
  - cbn [all_chars]. now rewrite Hc.
  - cbn [all_chars]. unfold isUpper.
    generalize ((cp - 0x10000) / 0x400) as q, ((cp - 0x10000) mod 0x400) as r.
    intros q r.
    destruct (N.leb_spec (0xD800 + q) 90); [lia|].
    destruct (N.leb_spec (0xDC00 + r) 90); [lia|].
    now rewrite !andb_false_r.
Qed.

(** A lower-cased text has no capital letter A-Z. *)
Lemma toLowerCase_no_capitals (s : JsString) :
  all_chars (fun c => negb (isUpper c)) (toLowerCase s) = true.
Proof.
  unfold toLowerCase. apply CodePointsToString_no_capitals, toLowercase_no_capitals.
Qed.

Lemma StringToCodePoints_ascii (s : JsString) :
  all_chars isAscii s = true -> StringToCodePoints s = s.
Proof.
  induction s as [|c rest IH]; [reflexivity|].
  cbn [all_chars]. intros Hs. apply andb_prop in Hs as [Hc Hrest].
  cbn [StringToCodePoints]. destruct rest as [|d rest']; [reflexivity|].
  assert (Hl : isLeadSurrogate c = false).
  { unfold isAscii in Hc. apply N.ltb_lt in Hc. unfold isLeadSurrogate.
    destruct (N.leb_spec 0xD800 c); [lia|reflexivity]. }
  rewrite Hl. cbn [andb]. now rewrite (IH Hrest).
Qed.

Lemma toLowercase_ascii (afterCased : bool) (s : list N) :
  all_chars isAscii s = true -> toLowercase afterCased s = map toLowerAscii s.
Proof.
  revert afterCased. induction s as [|c rest IH]; intros afterCased; [reflexivity|].
  cbn [all_chars]. intros Hs. apply andb_prop in Hs as [Hc Hrest].
  cbn [toLowercase map]. rewrite (IH _ Hrest), (toLowerCodePoint_ascii c Hc).
  unfold isAscii in Hc. apply N.ltb_lt in Hc. unfold sigma, I_with_dot.
  destruct (N.eqb_spec c 0x3A3); [lia|]. destruct (N.eqb_spec c 0x130); [lia|].
  reflexivity.
Qed.

Lemma toLowerAscii_ascii (c : N) : isAscii c = true -> isAscii (toLowerAscii c) = true.
Proof.
  unfold isAscii, toLowerAscii, isUpper. intros Hc. apply N.ltb_lt in Hc.
  apply N.ltb_lt.
  destruct (N.leb_spec 65 c), (N.leb_spec c 90); cbn [andb]; lia.
Qed.

Lemma CodePointsToString_ascii (cps : list N) :
  all_chars isAscii cps = true -> CodePointsToString cps = cps.
Proof.
  induction cps as [|cp rest IH]; [reflexivity|].
  cbn [all_chars]. intros Hs. apply andb_prop in Hs as [Hc Hrest].
  change (CodePointsToString (cp :: rest))
    with (UTF16EncodeCodePoint cp ++ CodePointsToString rest).
  rewrite (IH Hrest). unfold UTF16EncodeCodePoint.
  unfold isAscii in Hc. apply N.ltb_lt in Hc.
  destruct (N.ltb_spec cp 0x10000); [reflexivity|lia].
Qed.

(** On ASCII text [toLowerCase] works code unit by code unit. *)
Lemma toLowerCase_ascii (s : JsString) :
  all_chars isAscii s = true -> toLowerCase s = map toLowerAscii s.
Proof.
  intros Hs. unfold toLowerCase.
  rewrite (StringToCodePoints_ascii s Hs), (toLowercase_ascii false s Hs).
  apply CodePointsToString_ascii.
  induction s as [|c rest IH]; [reflexivity|].
  cbn [all_chars map] in *. apply andb_prop in Hs as [Hc Hrest].
  now rewrite (toLowerAscii_ascii c Hc), IH.
Qed.

End UnicodeFacts.

(** ** The file name of an export *)

Module Names.
Import UnicodeFacts.

(** *** Characters *)

Lemma isAlphanumeric_lower (c : N) :
  isUpper c = false -> isAlphanumeric c = is_a_z_0_9 c.
Proof. unfold isAlphanumeric, is_a_z_0_9. now intros ->. Qed.

Lemma class_not_hyphen (c : N) : is_a_z_0_9 c = true -> isHyphen c = false.
Proof. by_class_bounds. Qed.

Lemma isHyphen_eq (c : N) : isHyphen c = true -> c = 45%N.
Proof. apply N.eqb_eq. Qed.

Lemma isEmpty_nil (s : JsString) : isEmpty s = true <-> s = [].
Proof. destruct s; split; (reflexivity || discriminate). Qed.

(** *** The first replacement: runs of characters outside [a-z0-9] *)

Lemma runs_head (c : N) (rest : JsString) :
  exists r more, runs (c :: rest) = (isAlphanumeric c, c :: r) :: more.
Proof.
  simpl. destruct (runs rest) as [|[b r] more]; [eauto|].
  destruct (Bool.eqb b (isAlphanumeric c)) eqn:Hb; [|eauto].
  apply Bool.eqb_prop in Hb. subst b. eauto.
Qed.

Lemma hyphenate_runs_cons (c : N) (rest : JsString) :
  hyphenate_runs (c :: rest) =
    if isAlphanumeric c then c :: hyphenate_runs rest
    else if starts_outside rest then hyphenate_runs rest
    else 45%N :: hyphenate_runs rest.
Proof.
  unfold hyphenate_runs.
  destruct rest as [|d rest'].
  - simpl. destruct (isAlphanumeric c); reflexivity.
  - destruct (runs_head d rest') as (r & more & Hr).
    change (runs (c :: d :: rest')) with
      (match runs (d :: rest') with
       | (b, r) :: more =>
           if Bool.eqb b (isAlphanumeric c) then (b, c :: r) :: more
           else (isAlphanumeric c, [c]) :: (b, r) :: more
       | [] => [(isAlphanumeric c, [c])]
       end).
    rewrite Hr. cbn [starts_outside].
    destruct (isAlphanumeric c) eqn:Hc, (isAlphanumeric d) eqn:Hd;
      cbn [Bool.eqb negb map fst snd concat]; reflexivity.
Qed.

(** On a string without capitals, the expression of line 326 replaces each
    maximal run of non-alphanumeric characters by one hyphen. *)
Lemma replace_runs_hyphenate (s : JsString) :
  all_chars (fun c => negb (isUpper c)) s = true ->
  replace_runs false s = hyphenate_runs s.
Proof.
  induction s as [|c rest IH]; [reflexivity|].
  cbn [all_chars]. intros Hs. apply andb_prop in Hs as [Hc Hrest].
  apply negb_true_iff in Hc.
  rewrite hyphenate_runs_cons, (isAlphanumeric_lower c Hc).
  cbn [replace_runs].
  destruct (is_a_z_0_9 c) eqn:Hcl.
  - now rewrite IH.
  - rewrite <- (IH Hrest).
    destruct rest as [|d rest']; [reflexivity|].
    cbn [starts_outside all_chars] in *. apply andb_prop in Hrest as [Hd _].
    apply negb_true_iff in Hd. rewrite (isAlphanumeric_lower d Hd).
    cbn [replace_runs]. destruct (is_a_z_0_9 d); reflexivity.
Qed.

Lemma replace_runs_true_start (s : JsString) :
  starts_with_hyphen (replace_runs true s) = false.
Proof.
  induction s as [|c rest IH]; [reflexivity|].
  cbn [replace_runs]. destruct (is_a_z_0_9 c) eqn:Hc; [|exact IH].
  cbn [starts_with_hyphen]. now apply class_not_hyphen.
Qed.

(** The result of the first replacement has no two hyphens in a row. *)
Lemma replace_runs_single_hyphens (inRun : bool) (s : JsString) :
  single_hyphens (replace_runs inRun s) = true.
Proof.
  revert inRun. induction s as [|c rest IH]; intros inRun; [reflexivity|].
  cbn [replace_runs]. destruct (is_a_z_0_9 c) eqn:Hc.
  - cbn [single_hyphens]. now rewrite (class_not_hyphen c Hc), IH.
  - destruct inRun; [apply IH|].
    cbn [single_hyphens]. now rewrite replace_runs_true_start, andb_false_r, IH.
Qed.

Lemma replace_runs_chars (inRun : bool) (s : JsString) :
  all_chars (fun c => is_a_z_0_9 c || isHyphen c) (replace_runs inRun s) = true.
Proof.
  revert inRun. induction s as [|c rest IH]; intros inRun; [reflexivity|].
  cbn [replace_runs]. destruct (is_a_z_0_9 c) eqn:Hc.
  - cbn [all_chars]. now rewrite Hc, IH.
  - destruct inRun; [apply IH|]. cbn [all_chars]. now rewrite IH.
Qed.

(** *** The second replacement: a hyphen that stands first or last *)

Lemma drop_trailing_empty (s : JsString) :
  drop_trailing_hyphens s = [] -> s = [] \/ starts_with_hyphen s = true.
Proof.
  destruct s as [|c rest]; [auto|].
  cbn [drop_trailing_hyphens starts_with_hyphen].
  destruct (drop_trailing_hyphens rest); [|discriminate].
  destruct (isHyphen c); [auto|discriminate].
Qed.

Lemma replace_edges_false (s : JsString) :
  single_hyphens s = true -> replace_edges false s = drop_trailing_hyphens s.
Proof.
  induction s as [|c rest IH]; [reflexivity|].
  cbn [single_hyphens]. intros Hs. apply andb_prop in Hs as [Hc Hrest].
  cbn [replace_edges drop_trailing_hyphens orb].
  pose proof (IH Hrest) as HI. clear IH. rewrite <- HI.
  destruct rest as [|d rest'].
  - cbn. destruct (isHyphen c); reflexivity.
  - cbn [isEmpty]. rewrite andb_false_r.
    destruct (replace_edges false (d :: rest')); [|reflexivity].
    symmetry in HI. apply drop_trailing_empty in HI as [HI|HI]; [discriminate|].
    rewrite HI, andb_true_r in Hc. apply negb_true_iff in Hc. now rewrite Hc.
Qed.

(** On a string without two hyphens in a row, deleting a first and a last
    hyphen is trimming the hyphens at both ends. *)
Lemma replace_edges_trim (s : JsString) :
  single_hyphens s = true -> replace_edges true s = trim_hyphens s.
Proof.
  unfold trim_hyphens. destruct s as [|c rest]; [reflexivity|].
  cbn [single_hyphens]. intros Hs. apply andb_prop in Hs as [Hc Hrest].
  cbn [replace_edges drop_leading_hyphens orb]. rewrite andb_true_r.
  destruct (isHyphen c) eqn:Hh.
  - cbn [andb negb] in Hc. apply negb_true_iff in Hc.
    rewrite (replace_edges_false rest Hrest).
    destruct rest as [|d rest']; [reflexivity|].
    cbn [starts_with_hyphen] in Hc. cbn [drop_leading_hyphens]. now rewrite Hc.
  - rewrite <- (replace_edges_false (c :: rest)).
    + cbn [replace_edges orb]. now rewrite Hh.
    + cbn [single_hyphens]. now rewrite Hh, Hrest.
Qed.

Lemma drop_trailing_no_end (s : JsString) :
  ends_with_hyphen (drop_trailing_hyphens s) = false.
Proof.
  unfold ends_with_hyphen.
  induction s as [|c rest IH]; [reflexivity|].
  cbn [drop_trailing_hyphens].
  destruct (drop_trailing_hyphens rest) as [|d kept] eqn:Hk.
  - destruct (isHyphen c) eqn:Hc; [reflexivity|]. cbn. exact Hc.
  - exact IH.
Qed.

Lemma drop_leading_no_start (s : JsString) :
  starts_with_hyphen (drop_leading_hyphens s) = false.
Proof.
  induction s as [|c rest IH]; [reflexivity|].
  cbn [drop_leading_hyphens]. destruct (isHyphen c) eqn:Hc; [exact IH|].
  cbn. exact Hc.
Qed.

Lemma drop_trailing_start (s : JsString) :
  starts_with_hyphen s = false -> starts_with_hyphen (drop_trailing_hyphens s) = false.
Proof.
  destruct s as [|c rest]; [reflexivity|].
  cbn [starts_with_hyphen drop_trailing_hyphens]. intros Hc.
  destruct (drop_trailing_hyphens rest); [rewrite Hc|]; cbn; auto.
Qed.

Lemma drop_trailing_chars (p : N -> bool) (s : JsString) :
  all_chars p s = true -> all_chars p (drop_trailing_hyphens s) = true.
Proof.
  induction s as [|c rest IH]; [reflexivity|].
  cbn [all_chars drop_trailing_hyphens]. intros Hs. apply andb_prop in Hs as [Hc Hrest].
  specialize (IH Hrest).
  destruct (drop_trailing_hyphens rest) as [|d kept].
  - destruct (isHyphen c); cbn; [reflexivity|]. now rewrite Hc.
  - change (p c && all_chars p (d :: kept) = true). now rewrite Hc, IH.
Qed.

Lemma drop_leading_chars (p : N -> bool) (s : JsString) :
  all_chars p s = true -> all_chars p (drop_leading_hyphens s) = true.
Proof.
  induction s as [|c rest IH]; [reflexivity|].
  cbn [all_chars drop_leading_hyphens]. intros Hs.
  destruct (isHyphen c); [|exact Hs].
  apply andb_prop in Hs as [_ Hrest]. auto.
Qed.

(** *** The sanitized name *)

Lemma safeName_trim (imageName : JsString) :
  safeName imageName = trim_hyphens (hyphenate_runs (toLowerCase imageName)).
Proof.
  unfold safeName.
  rewrite replace_edges_trim by apply replace_runs_single_hyphens.
  now rewrite replace_runs_hyphenate by apply toLowerCase_no_capitals.
Qed.

Lemma safeName_sanitize (imageName : JsString) :
  or_else (safeName imageName) (js "screenshot") = sanitize_spec imageName.
Proof. unfold or_else, sanitize_spec. now rewrite safeName_trim. Qed.

Lemma replace_edges_single_hyphens (atStart : bool) (s : JsString) :
  single_hyphens s = true -> single_hyphens (replace_edges atStart s) = true.
Proof.
  revert atStart. induction s as [|c rest IH]; intros b Hs; [reflexivity|].
  cbn [single_hyphens] in Hs. apply andb_prop in Hs as [Hc Hrest].
  cbn [replace_edges].
  destruct (isHyphen c && (b || isEmpty rest)) eqn:Hdel; [auto|].
  cbn [single_hyphens]. rewrite (IH false Hrest), andb_true_r.
  destruct (isHyphen c) eqn:Hh; [|reflexivity].
  cbn [andb negb] in Hc. apply negb_true_iff in Hc.
  destruct rest as [|d rest']; [reflexivity|].
  cbn [starts_with_hyphen] in Hc. cbn [replace_edges]. rewrite Hc.
  cbn [andb starts_with_hyphen]. now rewrite Hc.
Qed.

Lemma safeName_shape (imageName : JsString) :
  all_chars (fun c => is_a_z_0_9 c || isHyphen c) (safeName imageName) = true /\
  starts_with_hyphen (safeName imageName) = false /\
  ends_with_hyphen (safeName imageName) = false /\
  single_hyphens (safeName imageName) = true.
Proof.
  unfold safeName.
  pose proof (replace_runs_single_hyphens false (toLowerCase imageName)) as Hs.
  pose proof (replace_runs_chars false (toLowerCase imageName)) as Hc.
  split; [|split; [|split]].
  - rewrite (replace_edges_trim _ Hs).
    apply drop_trailing_chars, drop_leading_chars, Hc.
  - rewrite (replace_edges_trim _ Hs).
    apply drop_trailing_start, drop_leading_no_start.
  - rewrite (replace_edges_trim _ Hs). apply drop_trailing_no_end.
  - apply replace_edges_single_hyphens, Hs.
Qed.

Lemma replace_runs_outside (s : JsString) :
  all_chars (fun c => negb (is_a_z_0_9 c)) s = true ->
  replace_runs true s = [] /\ (replace_runs false s = [] \/ replace_runs false s = [45%N]).
Proof.
  induction s as [|c rest IH]; [auto|].
  cbn [all_chars replace_runs]. intros Hs. apply andb_prop in Hs as [Hc Hrest].
  apply negb_true_iff in Hc. rewrite Hc.
  destruct (IH Hrest) as [Ht _]. rewrite Ht. auto.
Qed.

(** A name whose lower case has no letter a-z and no digit, the empty name
    among them, leaves nothing. *)
Lemma safeName_punctuation (imageName : JsString) :
  all_chars (fun c => negb (is_a_z_0_9 c)) (toLowerCase imageName) = true ->
  safeName imageName = [].
Proof.
  intros Hl. unfold safeName.
  destruct (replace_runs_outside _ Hl) as [_ [-> | ->]]; reflexivity.
Qed.

Lemma all_chars_weaken (p q : N -> bool) (s : JsString) :
  (forall c, p c = true -> q c = true) ->
  all_chars p s = true -> all_chars q s = true.
Proof.
  intros Hpq. induction s as [|c rest IH]; [reflexivity|].
  cbn [all_chars]. intros Hs. apply andb_prop in Hs as [Hc Hrest].
  now rewrite (Hpq c Hc), IH.
Qed.

Lemma all_chars_map (p : N -> bool) (f : N -> N) (s : JsString) :
  all_chars p (map f s) = all_chars (fun c => p (f c)) s.
Proof. induction s as [|c rest IH]; [reflexivity|]. cbn [map all_chars]. now rewrite IH. Qed.

Lemma toLowerAscii_outside (c : N) :
  isAlphanumeric c = false -> is_a_z_0_9 (toLowerAscii c) = false.
Proof. unfold toLowerAscii. by_class_bounds. Qed.

(** An ASCII name without letters and digits leaves nothing. *)
Lemma safeName_ascii_punctuation (imageName : JsString) :
  all_chars isAscii imageName = true ->
  all_chars (fun c => negb (isAlphanumeric c)) imageName = true ->
  safeName imageName = [].
Proof.
  intros Ha Hn. apply safeName_punctuation.
  rewrite (toLowerCase_ascii _ Ha), all_chars_map.
  apply (all_chars_weaken (fun c => negb (isAlphanumeric c))); [|exact Hn].
  intros c Hc. apply negb_true_iff in Hc. apply negb_true_iff.
  now apply toLowerAscii_outside.
Qed.

(** *** The time stamp *)

Lemma digit_not_colon_dot (c : N) : isDigit c = true -> not_colon_dot c = true.
Proof. by_class_bounds. Qed.

Lemma string_of_uint_digits (d : Decimal.uint) :
  all_chars isDigit (js (NilEmpty.string_of_uint d)) = true.
Proof. induction d; cbn [NilEmpty.string_of_uint]; try reflexivity; exact IHd. Qed.

Lemma zeros_digits (n : nat) : all_chars isDigit (zeros n) = true.
Proof. induction n; cbn [zeros all_chars]; auto. Qed.

Lemma pad_digits (width : nat) (n : N) : all_chars isDigit (pad width n) = true.
Proof.
  unfold pad, NilZero.string_of_uint. rewrite all_chars_app, zeros_digits.
  destruct (N.to_uint n) eqn:Hn; try reflexivity;
    rewrite <- Hn; apply string_of_uint_digits.
Qed.

Lemma pad_not_colon_dot (width : nat) (n : N) :
  all_chars not_colon_dot (pad width n) = true.
Proof.
  apply (all_chars_weaken isDigit); [apply digit_not_colon_dot | apply pad_digits].
Qed.

Lemma replace_colon_dot_app (s t : JsString) :
  replace_colon_dot (s ++ t) = replace_colon_dot s ++ replace_colon_dot t.
Proof.
  induction s as [|c rest IH]; [reflexivity|].
  cbn [app replace_colon_dot]. now rewrite IH.
Qed.

Lemma replace_colon_dot_id (s : JsString) :
  all_chars not_colon_dot s = true -> replace_colon_dot s = s.
Proof.
  induction s as [|c rest IH]; [reflexivity|].
  cbn [all_chars replace_colon_dot]. intros Hs. apply andb_prop in Hs as [Hc Hrest].
  unfold not_colon_dot in Hc. apply negb_true_iff in Hc.
  now rewrite Hc, IH.
Qed.

Lemma replace_colon_dot_clean (s : JsString) :
  all_chars not_colon_dot (replace_colon_dot s) = true.
Proof.
  induction s as [|c rest IH]; [reflexivity|].
  cbn [replace_colon_dot all_chars]. rewrite IH, andb_true_r.
  unfold not_colon_dot.
  destruct (isColon c || isDot c) eqn:Hc; [reflexivity|].
  now rewrite Hc.
Qed.

Lemma replace_colon_dot_length (s : JsString) :
  List.length (replace_colon_dot s) = List.length s.
Proof. induction s as [|c rest IH]; cbn; congruence. Qed.

Lemma timestamp_is_spec (now : Instant) : timestamp now = timestamp_spec now.
Proof.
  unfold timestamp, toISOString, timestamp_spec.
  rewrite !replace_colon_dot_app.
  rewrite !(replace_colon_dot_id (pad _ _)) by apply pad_not_colon_dot.
  destruct (year now <=? 9999)%N.
  - now rewrite (replace_colon_dot_id (pad _ _)) by apply pad_not_colon_dot.
  - rewrite replace_colon_dot_app.
    now rewrite (replace_colon_dot_id (pad _ _)) by apply pad_not_colon_dot.
Qed.

(** *** The name of the download *)

(** C5.  The download is named
    [{sanitized display name}-{scale}x-{timestamp}.png], the scale written
    [1], [2] or [3].  The sanitized name is the display name in lower case,
    each run of non-alphanumeric characters replaced by one hyphen, hyphens
    trimmed at both ends, and ["screenshot"] when nothing is left, as for a
    name whose lower case has no letter A-Z, a-z and no digit; it consists of
    the characters a-z, 0-9 and single hyphens and neither starts nor ends
    with a hyphen; ["My Screenshot #1!"] gives ["my-screenshot-1"].  The time
    stamp is the ISO-8601 text of the instant with a hyphen in place of
    every colon and dot.  The display name is any sequence of UTF-16 code
    units, and its lower case is that of [String.prototype.toLowerCase]. *)
Theorem downloadName_format :
  forall (imageName : JsString) (exportScale : ExportScale) (now : Instant),
    downloadName imageName exportScale now =
      sanitize_spec imageName
      ++ match exportScale with
         | scale1 => js "-1x-"
         | scale2 => js "-2x-"
         | scale3 => js "-3x-"
         end
      ++ timestamp_spec now ++ js ".png" /\
    or_else (safeName imageName) (js "screenshot") = sanitize_spec imageName /\
    (all_chars (fun c => negb (isAlphanumeric c)) (toLowerCase imageName) = true ->
       sanitize_spec imageName = js "screenshot") /\
    (all_chars isAscii imageName = true ->
     all_chars (fun c => negb (isAlphanumeric c)) imageName = true ->
       sanitize_spec imageName = js "screenshot") /\
    all_chars (fun c => is_a_z_0_9 c || isHyphen c) (sanitize_spec imageName) = true /\
    starts_with_hyphen (sanitize_spec imageName) = false /\
    ends_with_hyphen (sanitize_spec imageName) = false /\
    single_hyphens (sanitize_spec imageName) = true /\
    safeName (js "My Screenshot #1!") = js "my-screenshot-1" /\
    sanitize_spec (js "My Screenshot #1!") = js "my-screenshot-1" /\
    timestamp now = timestamp_spec now /\
    timestamp now = replace_colon_dot (toISOString now) /\
    all_chars not_colon_dot (timestamp now) = true /\
    List.length (timestamp now) = List.length (toISOString now).
Proof.
  intros imageName exportScale now.
  pose proof (safeName_sanitize imageName) as Hs.
  pose proof (safeName_shape imageName) as (Hc & Hb & He & Hh).
  assert (Hshape :
    all_chars (fun c => is_a_z_0_9 c || isHyphen c) (sanitize_spec imageName) = true /\
    starts_with_hyphen (sanitize_spec imageName) = false /\
    ends_with_hyphen (sanitize_spec imageName) = false /\
    single_hyphens (sanitize_spec imageName) = true).
  { rewrite <- Hs. unfold or_else.
    destruct (isEmpty (safeName imageName)); [|auto].
    repeat split; reflexivity. }
  destruct Hshape as (Hc' & Hb' & He' & Hh').
  split.
  { unfold downloadName. rewrite Hs, timestamp_is_spec.
    destruct exportScale; reflexivity. }
  split; [exact Hs|].
  split.
  { intros Hp. rewrite <- Hs, safeName_punctuation; [reflexivity|].
    apply (all_chars_weaken (fun c => negb (isAlphanumeric c))); [|exact Hp].
    intros c. unfold isAlphanumeric. destruct (isUpper c); [discriminate|auto]. }
  split; [intros Ha Hp; rewrite <- Hs, (safeName_ascii_punctuation _ Ha Hp); reflexivity|].
  repeat (split; [assumption|]).
  split; [vm_compute; reflexivity|]. split; [vm_compute; reflexivity|].
  split; [apply timestamp_is_spec|]. split; [reflexivity|].
  split; [apply replace_colon_dot_clean | apply replace_colon_dot_length].
Qed.

(** The name of the specification's example, exported at each scale, and a
    name of punctuation. *)
Lemma downloadName_format_example :
  downloadName (js "My Screenshot #1!") scale1 (mkInstant 2024 1 2 3 4 5 6) =
    js "my-screenshot-1-1x-2024-01-02T03-04-05-006Z.png" /\
  downloadName (js "My Screenshot #1!") scale2 (mkInstant 2024 1 2 3 4 5 6) =
    js "my-screenshot-1-2x-2024-01-02T03-04-05-006Z.png" /\
  downloadName (js "My Screenshot #1!") scale3 (mkInstant 2024 1 2 3 4 5 6) =
    js "my-screenshot-1-3x-2024-01-02T03-04-05-006Z.png" /\
  sanitize_spec (js "!?") = js "screenshot".
Proof.
  split; [|split; [|split]].
  - rewrite (proj1 (downloadName_format _ _ _)). vm_compute. reflexivity.
  - rewrite (proj1 (downloadName_format _ _ _)). vm_compute. reflexivity.
  - rewrite (proj1 (downloadName_format _ _ _)). vm_compute. reflexivity.
  - apply (proj1 (proj2 (proj2 (proj2 (downloadName_format (js "!?") scale1
             (mkInstant 2024 1 2 3 4 5 6)))))); vm_compute; reflexivity.
Defined.

End Names.

(** ** The component *)

Module AppFacts.

Section WithNumbers.
Context {num : Type} `{JsNumber num}.

(** *** Settings: presets and reset *)

(** C6.  A click on a gradient preset leaves the settings with
    [backgroundType] [gradient] and [gradientFrom], [gradientTo],
    [gradientAngle] the preset's values, and every other field as it was; a
    click on a solid preset leaves them with [backgroundType] [solid] and
    [backgroundColor] the preset's colour, and every other field as it was.
    Nothing but the settings changes.  Each click is a single call of
    [setSettings] with an updater, so it starts from the settings as they
    are, whether rendered or not, no state with only some of the fields set
    exists, and the next render shows all of them; the result is the one
    that updating the fields one at a time would end in. *)
Theorem preset_click_atomic :
  forall (w : World num) (g : GradientPreset num) (c : SolidPreset),
    let previous := settings (state w) in
    let wg := step (ClickGradientPreset g) w in
    let wc := step (ClickSolidPreset c) w in
    settings (state wg) =
      mkSettings (borderRadius previous) (padding previous) (dropShadow previous)
        gradient (gp_from g) (gp_to g) (gp_angle g)
        (backgroundColor previous) (showWindowChrome previous)
        (windowAccent previous) (noise previous) (vignette previous) /\
    settings (state wc) =
      mkSettings (borderRadius previous) (padding previous) (dropShadow previous)
        solid (gradientFrom previous) (gradientTo previous) (gradientAngle previous)
        (sp_color c) (showWindowChrome previous)
        (windowAccent previous) (noise previous) (vignette previous) /\
    (backgroundType (settings (state wg)) = gradient /\
     gradientFrom (settings (state wg)) = gp_from g /\
     gradientTo (settings (state wg)) = gp_to g /\
     gradientAngle (settings (state wg)) = gp_angle g) /\
    (backgroundType (settings (state wc)) = solid /\
     backgroundColor (settings (state wc)) = sp_color c) /\
    (imageDataUrl (state wg) = imageDataUrl (state w) /\
     imageName (state wg) = imageName (state w) /\
     isDragging (state wg) = isDragging (state w) /\
     isExporting (state wg) = isExporting (state w) /\
     exportScale (state wg) = exportScale (state w) /\
     committed wg = committed w /\ previewRef wg = previewRef w /\
     reading wg = reading w /\ exporting wg = exporting w /\
     effects wg = effects w) /\
    (imageDataUrl (state wc) = imageDataUrl (state w) /\
     imageName (state wc) = imageName (state w) /\
     isDragging (state wc) = isDragging (state w) /\
     isExporting (state wc) = isExporting (state w) /\
     exportScale (state wc) = exportScale (state w) /\
     committed wc = committed w /\ previewRef wc = previewRef w /\
     reading wc = reading w /\ exporting wc = exporting w /\
     effects wc = effects w) /\
    settings (committed (step Commit wg)) = settings (state wg) /\
    settings (committed (step Commit wc)) = settings (state wc) /\
    state wg =
      updateSetting K_gradientAngle (gp_angle g)
        (updateSetting K_gradientTo (gp_to g)
          (updateSetting K_gradientFrom (gp_from g)
            (updateSetting K_backgroundType gradient (state w)))) /\
    state wc =
      updateSetting K_backgroundColor (sp_color c)
        (updateSetting K_backgroundType solid (state w)).
Proof.
  intros w g c previous wg wc. repeat split.
Qed.

(** C8.  [resetSettings] leaves the settings equal to [DEFAULT_SETTINGS],
    field by field the constant of lines 231-244, whatever the state before
    and whatever events led to it. *)
Theorem resetSettings_default :
  forall (st : State num) (events : list (Event num)) (w : World num),
    settings (resetSettings st) = DEFAULT_SETTINGS /\
    settings (state (step ClickReset (run events w))) = DEFAULT_SETTINGS /\
    DEFAULT_SETTINGS =
      mkSettings (lit 36) (lit 72) (lit 65) gradient "#60a5fa" "#a855f7" (lit 135)
        "#0f172a" true "#22d3ee" (lit 12) (lit 40).
Proof. intros st events w. repeat split. Qed.

(** C10.  [resetSettings] changes the settings only: the image, its name,
    the export scale and the flags [isExporting] and [isDragging] are as
    before, and so is everything outside the state. *)
Theorem resetSettings_frame :
  forall (w : World num),
    let w' := step ClickReset w in
    imageDataUrl (state w') = imageDataUrl (state w) /\
    imageName (state w') = imageName (state w) /\
    exportScale (state w') = exportScale (state w) /\
    isExporting (state w') = isExporting (state w) /\
    isDragging (state w') = isDragging (state w) /\
    committed w' = committed w /\
    previewRef w' = previewRef w /\
    reading w' = reading w /\
    exporting w' = exporting w /\
    effects w' = effects w /\
    state w' = resetSettings (state w).
Proof. intros w. repeat split. Qed.

(** *** Ingestion *)

(** C4.  A file whose media type does not begin with [image/] is dropped by
    [readFile] without a trace: the world is as before, settings, image and
    name included, no read is started and nothing is shown.  So it is
    through the file input; a drop clears the dragging flag, as every drop
    does, and changes nothing else. *)
Theorem readFile_rejects :
  forall (file : File) (w : World num),
    String.prefix "image/" (file_type file) = false ->
    readFile file w = w /\
    handleFileInputChange (Some file) w = w /\
    handleDrop (Some file) w = with_state (setIsDragging false) w /\
    settings (state (handleDrop (Some file) w)) = settings (state w) /\
    imageDataUrl (state (handleDrop (Some file) w)) = imageDataUrl (state w) /\
    imageName (state (handleDrop (Some file) w)) = imageName (state w) /\
    reading (handleDrop (Some file) w) = reading w /\
    effects (handleDrop (Some file) w) = effects w.
Proof.
  intros file w Ht.
  assert (Hr : forall w' : World num, readFile file w' = w').
  { intros w'. unfold readFile. now rewrite Ht. }
  unfold handleFileInputChange, handleDrop. rewrite !Hr. repeat split.
Qed.

(** C9, as the code has it.  The file input lists four media types in its
    [accept] attribute, and each of them begins with [image/]; what decides
    is [readFile], which the file input and the drop both call: it starts a
    read of every file whose type begins with [image/], and is silent on
    every other file, with no alert and no change. *)
Theorem readFile_accepts_image_types :
  forall (file : File) (w : World num),
    acceptedTypes = ["image/png"; "image/jpeg"; "image/webp"; "image/svg+xml"] /\
    forallb (String.prefix "image/") acceptedTypes = true /\
    (String.prefix "image/" (file_type file) = true ->
       readFile file w = perform [ReadAsDataURL file] (with_reading (reading w ++ [file]) w) /\
       handleFileInputChange (Some file) w = readFile file w /\
       handleDrop (Some file) w = readFile file (with_state (setIsDragging false) w) /\
       state (step (ReaderLoads (List.length (reading w))) (readFile file w)) =
         setImageName (or_else (replace_extension (file_name file)) (js "Screenshot"))
           (setImageDataUrl (Some (file_dataUrl file)) (state w))) /\
    (String.prefix "image/" (file_type file) = false ->
       readFile file w = w /\
       handleFileInputChange (Some file) w = w /\
       handleDrop (Some file) w = with_state (setIsDragging false) w).
Proof.
  intros file w. split; [reflexivity|]. split; [reflexivity|]. split; intros Ht.
  - assert (Hr : forall w' : World num, readFile file w' =
        perform [ReadAsDataURL file] (with_reading (reading w' ++ [file]) w')).
    { intros w'. unfold readFile. now rewrite Ht. }
    split; [apply Hr|]. split; [reflexivity|]. split; [reflexivity|].
    rewrite Hr. cbn [step reading perform with_reading].
    rewrite nth_error_app2 by lia. rewrite Nat.sub_diag. reflexivity.
  - assert (Hr : forall w' : World num, readFile file w' = w').
    { intros w'. unfold readFile. now rewrite Ht. }
    unfold handleFileInputChange, handleDrop. rewrite !Hr. repeat split.
Qed.

(** *** Export *)

(** C3.  Without an image [handleExport] shows the message
    [Upload a screenshot before exporting.] and returns: at every export
    scale, the state is as before, [toPng] is not called, nothing is
    downloaded, and no failure is logged.  The image is the one of the
    render that the handler belongs to.  The export button is disabled
    there, so a click on it does nothing at all. *)
Theorem handleExport_without_image :
  forall (w : World num) (scale : ExportScale),
    imageDataUrl (committed w) = None ->
    exportScale (committed w) = scale ->
    handleExport w = perform [Alert "Upload a screenshot before exporting."] w /\
    step CallExport w = handleExport w /\
    state (handleExport w) = state w /\
    committed (handleExport w) = committed w /\
    exporting (handleExport w) = exporting w /\
    effects (handleExport w) =
      effects w ++ [Alert "Upload a screenshot before exporting."] /\
    filter is_ToPng (effects (handleExport w)) = filter is_ToPng (effects w) /\
    filter is_Download (effects (handleExport w)) = filter is_Download (effects w) /\
    step ClickExport w = w.
Proof.
  intros w scale Himg _.
  assert (He : handleExport w = perform [Alert "Upload a screenshot before exporting."] w).
  { unfold handleExport. rewrite Himg. cbn [truthy negb]. now rewrite orb_true_r. }
  rewrite He. cbn [perform state committed exporting effects step].
  rewrite !filter_app. cbn [filter is_ToPng is_Download]. rewrite !app_nil_r.
  repeat split; try assumption.
  unfold exportDisabled. now rewrite Himg.
Qed.

(** Each event other than a direct call of [handleExport], a click on the
    export button being one on a page rendered since the click before,
    keeps the flag and the snapshots in progress in step, and the page
    informed. *)
Lemma step_single_flight (e : Event num) (fresh : bool) (w : World num) :
  no_direct_call e = true -> (e = ClickExport -> fresh = true) ->
  single_flight w -> flag_on_page fresh w ->
  single_flight (step e w) /\ flag_on_page (fresh_after e fresh) (step e w).
Proof.
  unfold single_flight, flag_on_page.
  destruct e; try discriminate; intros _ Hf Hw Hp;
    cbn [step fresh_after]; try (split; [exact Hw | exact Hp]).
  - split; [exact Hw|]. auto.
  - split; [|discriminate]. specialize (Hp (Hf eq_refl)). unfold exportDisabled.
    destruct (negb (truthy (imageDataUrl (committed w))) || isExporting (committed w)) eqn:Hd;
      [exact Hw|].
    apply orb_false_elim in Hd as [_ Hx].
    destruct (isExporting (state w)) eqn:Hs.
    { rewrite (Hp eq_refl) in Hx. discriminate. }
    unfold handleExport. destruct (negb (previewRef w) || _); cbn.
    + now rewrite Hs.
    + rewrite length_app, Hw. reflexivity.
  - destruct (nth_error (exporting w) i) as [pending|] eqn:Hn; [|split; [exact Hw | exact Hp]].
    split; [|destruct result; discriminate].
    destruct (isExporting (state w)).
    + destruct (exporting w) as [|p [|q l]]; try discriminate.
      destruct i as [|[|i]]; try discriminate.
      destruct result; reflexivity.
    + destruct (exporting w); [destruct i|]; discriminate.
  - destruct files as [file|]; [|split; [exact Hw | exact Hp]].
    cbn [handleFileInputChange]. unfold readFile.
    destruct (negb _); split; (exact Hw || exact Hp).
  - destruct files as [file|]; [|split; [exact Hw | exact Hp]].
    cbn [handleDrop]. unfold readFile.
    destruct (negb _); split; (exact Hw || exact Hp).
  - unfold handleDragOver. destruct (negb _); split; (exact Hw || exact Hp).
  - destruct (nth_error (reading w) i); split; (exact Hw || exact Hp).
  - destruct (clearDisabled (committed w)); split; (exact Hw || exact Hp).
Qed.

Lemma run_single_flight (events : list (Event num)) (fresh : bool) (w : World num) :
  forallb no_direct_call events = true -> clicks_after_commit fresh events = true ->
  single_flight w -> flag_on_page fresh w -> single_flight (run events w).
Proof.
  revert fresh w. induction events as [|e rest IH]; intros fresh w Hev Hc Hw Hp; [exact Hw|].
  cbn [forallb] in Hev. apply andb_prop in Hev as [He Hrest].
  assert (Hf : (e = ClickExport -> fresh = true) /\
               clicks_after_commit (fresh_after e fresh) rest = true).
  { destruct e; cbn [clicks_after_commit fresh_after] in *;
      try (split; [discriminate | exact Hc]).
    apply andb_prop in Hc as [Hc1 Hc2]. auto. }
  destruct Hf as [Hf Hc'].
  destruct (step_single_flight e fresh w He Hf Hw Hp) as [Hw' Hp'].
  cbn [run]. now apply (IH (fresh_after e fresh)).
Qed.

Lemma each_committed_clicks (events : list (Event num)) :
  clicks_after_commit true (each_committed events) = true.
Proof.
  induction events as [|e rest IH]; [reflexivity|].
  destruct e; cbn [each_committed clicks_after_commit andb]; exact IH.
Qed.

Lemma each_committed_no_direct_call (events : list (Event num)) :
  forallb no_direct_call events = true ->
  forallb no_direct_call (each_committed events) = true.
Proof.
  induction events as [|e rest IH]; [reflexivity|].
  cbn [forallb each_committed no_direct_call]. intros He.
  apply andb_prop in He as [He Hrest]. now rewrite He, IH.
Qed.

(** C2, as the code has it.  When [handleExport] runs only as the handler of
    the export button, and every click on the button is one on a page that
    React has rendered since the click before, at most one snapshot is in
    progress at any time, and [isExporting] says whether one is: on the
    page rendered while the flag is set the button is disabled, so a click
    on it before the export has settled does nothing (it is not queued).
    So it is when every event is followed by a render.  [handleExport]
    itself does not read the flag. *)
Theorem export_single_flight :
  forall (events : list (Event num)),
    forallb no_direct_call events = true ->
    clicks_after_commit true events = true ->
    let w := run events initialWorld in
    (List.length (exporting w) <= 1)%nat /\
    single_flight w /\
    (isExporting (state w) = true ->
       step ClickExport (step Commit w) = step Commit w /\
       List.length (exporting w) = 1%nat) /\
    (isExporting (state w) = false -> exporting w = []) /\
    (forall user : list (Event num),
       forallb no_direct_call user = true ->
       (List.length (exporting (run (each_committed user) initialWorld)) <= 1)%nat).
Proof.
  intros events Hev Hc w.
  assert (Hall : forall es : list (Event num),
            forallb no_direct_call es = true -> clicks_after_commit true es = true ->
            single_flight (run es initialWorld)).
  { intros es He Hcl. apply (run_single_flight es true); try assumption; [reflexivity|].
    intros _ Hx. discriminate. }
  assert (Hw : single_flight w) by (apply Hall; assumption).
  unfold single_flight in Hw.
  split; [rewrite Hw; destruct (isExporting (state w)); lia|].
  split; [exact Hw|]. split; [|split].
  - intros Hx. rewrite Hx in Hw. split; [|exact Hw].
    cbn [step commit committed]. unfold exportDisabled.
    now rewrite Hx, orb_true_r.
  - intros Hx. rewrite Hx in Hw. now apply length_zero_iff_nil.
  - intros user Hu.
    pose proof (Hall (each_committed user) (each_committed_no_direct_call user Hu)
                  (each_committed_clicks user)) as Hs.
    unfold single_flight in Hs. rewrite Hs.
    destruct (isExporting (state (run (each_committed user) initialWorld))); lia.
Qed.

End WithNumbers.

(** *** The handlers at work, on doubles *)

(** The second gradient preset and the last solid preset, clicked in the
    initial state. *)
Lemma preset_click_atomic_sunset_ice :
  settings (state (step (ClickGradientPreset sunset) initialWorld)) =
    mkSettings 36%float 72%float 65%float gradient "#fb7185" "#f97316" 140%float
      "#0f172a" true "#22d3ee" 12%float 40%float /\
  settings (state (step (ClickSolidPreset ice) (initialWorld (num:=float)))) =
    mkSettings 36%float 72%float 65%float solid "#60a5fa" "#a855f7" 135%float
      "#e0f2fe" true "#22d3ee" 12%float 40%float.
Proof.
  split.
  - exact (proj1 (preset_click_atomic initialWorld sunset ice)).
  - exact (proj1 (proj2 (preset_click_atomic initialWorld sunset ice))).
Defined.

(** A text file dropped on the page. *)
Lemma readFile_rejects_text_plain :
  String.prefix "image/" (file_type notes_txt) = false /\
  readFile notes_txt (initialWorld (num:=float)) = initialWorld.
Proof.
  split; [reflexivity|].
  exact (proj1 (readFile_rejects notes_txt initialWorld eq_refl)).
Defined.

(** C9, as the claim has it, fails: a GIF is none of the four listed types,
    and dropping one loads it. *)
Lemma readFile_accepts_gif :
  mem_string (file_type anim_gif) acceptedTypes = false /\
  state (run gif_dropped initialWorld) =
    setImageName (js "anim") (setImageDataUrl (Some (file_dataUrl anim_gif)) initialState) /\
  effects (run gif_dropped initialWorld) = [ReadAsDataURL anim_gif].
Proof. repeat split. Qed.

(** A PNG through the theorem of C9. *)
Lemma readFile_accepts_png :
  String.prefix "image/" (file_type shot_png) = true /\
  readFile shot_png (initialWorld (num:=float)) =
    perform [ReadAsDataURL shot_png] (with_reading [shot_png] initialWorld).
Proof.
  split; [reflexivity|].
  exact (proj1 (proj1 (proj2 (proj2 (readFile_accepts_image_types shot_png initialWorld)))
                  eq_refl)).
Defined.

(** Export from the initial page, set to 3x. *)
Lemma handleExport_without_image_initial :
  handleExport (run [ClickExportScale scale3; Commit] (initialWorld (num:=float))) =
    perform [Alert "Upload a screenshot before exporting."]
      (run [ClickExportScale scale3; Commit] initialWorld).
Proof.
  exact (proj1 (handleExport_without_image
                  (run [ClickExportScale scale3; Commit] initialWorld) scale3
                  eq_refl eq_refl)).
Defined.

(** C2, as the claim has it, fails: two direct calls of [handleExport] with
    an image loaded start two snapshots, and when the first has settled the
    flag is down while the second is still in progress. *)
Lemma export_overlap_on_direct_calls :
  List.length (exporting (run two_calls initialWorld)) = 2%nat /\
  filter is_ToPng (effects (run two_calls initialWorld)) = [ToPng scale2; ToPng scale2] /\
  isExporting (state (run (two_calls ++
      [ToPngSettles 0 (Resolved "data:image/png;base64,AAAA")
         (mkInstant 2024 1 2 3 4 5 6)]) initialWorld)) = false /\
  List.length (exporting (run (two_calls ++
      [ToPngSettles 0 (Resolved "data:image/png;base64,AAAA")
         (mkInstant 2024 1 2 3 4 5 6)]) initialWorld)) = 1%nat.
Proof. repeat split. Qed.

(** So do two clicks on the export button with no render between them: the
    page with the button disabled is not there yet. *)
Lemma export_overlap_on_clicks_before_render :
  forallb no_direct_call two_clicks_before_render = true /\
  clicks_after_commit true two_clicks_before_render = false /\
  List.length (exporting (run two_clicks_before_render initialWorld)) = 2%nat /\
  filter is_ToPng (effects (run two_clicks_before_render initialWorld)) =
    [ToPng scale2; ToPng scale2].
Proof. repeat split. Qed.

(** Two clicks on the export button with an image loaded, the page rendered
    between them: one snapshot. *)
Lemma export_single_flight_two_clicks :
  forallb no_direct_call two_clicks = true /\
  clicks_after_commit true two_clicks = true /\
  exporting (run two_clicks initialWorld) =
    [mkPendingExport (js "My Screenshot #1!") scale2] /\
  (List.length (exporting (run two_clicks initialWorld)) <= 1)%nat.
Proof.
  split; [reflexivity|]. split; [reflexivity|]. split; [reflexivity|].
  exact (proj1 (export_single_flight two_clicks eq_refl eq_refl)).
Defined.

End AppFacts.

(** ** The range of the opacities, for every double *)

Module F64Range.
Import F64.
Local Open Scope float_scope.

Lemma SFcompare_antisym (a b : spec_float) :
  SFcompare b a = option_map CompOpp (SFcompare a b).
Proof.
  destruct a as [sa|sa| |sa ma ea], b as [sb|sb| |sb mb eb]; cbn;
    try reflexivity;
    try (destruct sa; reflexivity); try (destruct sb; reflexivity);
    try (destruct sa, sb; reflexivity).
  destruct sa, sb; cbn; try reflexivity.
  - rewrite (Z.compare_antisym ea eb).
    destruct (ea ?= eb)%Z; cbn; try reflexivity.
    now rewrite (Pos.compare_cont_antisym ma mb Eq
      : CompOpp (PosDef.Pos.compare_cont Eq ma mb) = PosDef.Pos.compare_cont Eq mb ma).
  - rewrite (Z.compare_antisym ea eb).
    destruct (ea ?= eb)%Z; cbn; try reflexivity.
    now rewrite (Pos.compare_cont_antisym ma mb Eq
      : CompOpp (PosDef.Pos.compare_cont Eq ma mb) = PosDef.Pos.compare_cont Eq mb ma).
Qed.

Lemma SFcompare_refl (a : spec_float) :
  a <> S754_nan -> SFcompare a a = Some Eq.
Proof.
  destruct a as [s|s| |s m e]; cbn; intros Ha; try congruence.
  - destruct s; reflexivity.
  - rewrite Z.compare_refl, Pos.compare_cont_refl. destruct s; reflexivity.
Qed.

Lemma not_below_zero_leb (x : float) :
  (0 <=? x) = true <-> not_below_zero (Prim2SF x).
Proof.
  rewrite leb_spec.
  replace (Prim2SF 0) with (S754_zero false) by (vm_compute; reflexivity).
  destruct (Prim2SF x) as [s|s| |s m e]; cbn; try destruct s; cbn;
    split; intros Hx; try exact I; try reflexivity; try discriminate; try contradiction.
Qed.

(** Rounding a non-negative mantissa gives a number, and one with the sign
    that was asked for. *)
Lemma shr_1_nonneg (mrs : shr_record) :
  (0 <= shr_m mrs)%Z -> (0 <= shr_m (shr_1 mrs))%Z.
Proof.
  destruct mrs as [m r s]. cbn.
  destruct m as [|p|p]; cbn; try lia; destruct p; cbn; lia.
Qed.

Lemma iter_shr_1_nonneg (p : positive) (mrs : shr_record) :
  (0 <= shr_m mrs)%Z -> (0 <= shr_m (iter_pos shr_1 p mrs))%Z.
Proof.
  revert mrs. induction p as [p IH|p IH|]; intros mrs Hm; cbn.
  - apply IH, IH, shr_1_nonneg, Hm.
  - apply IH, IH, Hm.
  - apply shr_1_nonneg, Hm.
Qed.

Lemma shr_fexp_nonneg (m e : Z) (l : location) :
  (0 <= m)%Z -> (0 <= shr_m (fst (shr_fexp prec emax m e l)))%Z.
Proof.
  intros Hm. unfold shr_fexp, shr.
  assert (H0 : (0 <= shr_m (shr_record_of_loc m l))%Z)
    by (destruct l as [|[]]; exact Hm).
  destruct (fexp prec emax (Zdigits2 m + e) - e)%Z; cbn [fst]; try exact H0.
  apply iter_shr_1_nonneg, H0.
Qed.

Lemma round_nearest_even_nonneg (m : Z) (l : location) :
  (0 <= m)%Z -> (0 <= round_nearest_even m l)%Z.
Proof.
  intros Hm. destruct l as [|[]]; cbn; try lia.
  destruct (Z.even m); lia.
Qed.

Lemma binary_round_aux_not_below_zero (m e : Z) (l : location) :
  (0 <= m)%Z -> not_below_zero (binary_round_aux prec emax false m e l).
Proof.
  intros Hm. unfold binary_round_aux.
  pose proof (shr_fexp_nonneg m e l Hm) as H1.
  destruct (shr_fexp prec emax m e l) as [mrs' e']. cbn [fst] in H1.
  pose proof (shr_fexp_nonneg
    (round_nearest_even (shr_m mrs') (loc_of_shr_record mrs')) e' loc_Exact
    (round_nearest_even_nonneg _ _ H1)) as H2.
  destruct (shr_fexp prec emax _ e' loc_Exact) as [mrs'' e'']. cbn [fst] in H2.
  destruct (shr_m mrs''); cbn; try exact I; [|lia].
  destruct (Z.leb _ _); exact I.
Qed.

Lemma SFdiv_not_below_zero (x : spec_float) (m : positive) (e : Z) :
  not_below_zero x -> not_below_zero (SF64div x (S754_finite false m e)).
Proof.
  destruct x as [s|s| |s mx ex]; cbn; try contradiction;
    try (destruct s; cbn; intros Hx; try contradiction; exact I).
  destruct s; [contradiction|]. intros _.
  unfold SFdiv_core_binary.
  set (m' := match _ with Z0 => _ | Zpos _ => _ | Zneg _ => _ end).
  assert (Hm' : (0 <= m')%Z).
  { subst m'. destruct (_ - _ - _)%Z; try lia. apply Z.shiftl_nonneg. lia. }
  pose proof (Z_div_mod m' (Zpos m) eq_refl) as Hdm.
  destruct (Z.div_eucl m' (Zpos m)) as [q r].
  apply binary_round_aux_not_below_zero. nia.
Qed.

Lemma SFmul_not_below_zero (x : spec_float) (m : positive) (e : Z) :
  not_below_zero x -> not_below_zero (SF64mul x (S754_finite false m e)).
Proof.
  destruct x as [s|s| |s mx ex]; cbn; try contradiction;
    try (destruct s; cbn; intros Hx; try contradiction; exact I).
  destruct s; [contradiction|]. intros _.
  apply binary_round_aux_not_below_zero. lia.
Qed.

Lemma not_below_zero_not_nan (x : float) :
  not_below_zero (Prim2SF x) -> is_nan x = false.
Proof.
  intros Hx. unfold is_nan. rewrite FloatAxioms.eqb_spec. unfold SFeqb.
  rewrite SFcompare_refl; [reflexivity|].
  intros Hn. now rewrite Hn in Hx.
Qed.

(** [Math.min] with a cap that is a number and not below zero, of a value
    that is a number and not below zero, is such a number again, and it is
    not above the cap. *)
Lemma min_in_range (x cap : float) :
  (0 <=? x) = true -> (0 <=? cap) = true ->
  (0 <=? F64.min x cap) = true /\ (F64.min x cap <=? cap) = true.
Proof.
  intros Hx Hc.
  pose proof (proj1 (not_below_zero_leb x) Hx) as Hx'.
  pose proof (proj1 (not_below_zero_leb cap) Hc) as Hc'.
  assert (Hcc : (cap <=? cap) = true).
  { rewrite leb_spec. unfold SFleb. rewrite SFcompare_refl; [reflexivity|].
    intros Hn. now rewrite Hn in Hc'. }
  unfold F64.min.
  rewrite (not_below_zero_not_nan x Hx'), (not_below_zero_not_nan cap Hc').
  cbn [orb].
  destruct (x <? cap) eqn:Hlt.
  - split; [exact Hx|]. rewrite ltb_spec in Hlt. rewrite leb_spec.
    unfold SFltb in Hlt. unfold SFleb.
    destruct (SFcompare (Prim2SF x) (Prim2SF cap)) as [[| |]|]; congruence.
  - destruct (cap <? x) eqn:Hgt; [auto|].
    assert (Hxc : (x <=? cap) = true).
    { rewrite ltb_spec in Hgt. rewrite leb_spec.
      unfold SFltb in Hgt. unfold SFleb.
      rewrite (SFcompare_antisym (Prim2SF x) (Prim2SF cap)) in Hgt.
      destruct (SFcompare (Prim2SF x) (Prim2SF cap)) as [[| |]|] eqn:Hcmp;
        cbn in Hgt; try congruence.
      destruct (Prim2SF x) as [s|s| |s m e], (Prim2SF cap) as [s'|s'| |s' m' e'];
        cbn in Hcmp; try contradiction; try discriminate;
        destruct s, s'; cbn in *; try contradiction; discriminate. }
    destruct (get_sign x); auto.
Qed.

Lemma SFadd_not_below_zero (x : spec_float) (m : positive) (e : Z) :
  not_below_zero x -> not_below_zero (SF64add (S754_finite false m e) x).
Proof.
  destruct x as [s|s| |s mx ex];
    try (destruct s; cbn; intros Hx; try contradiction; exact I);
    try (cbn; contradiction).
  destruct s; [cbn; contradiction|]. intros _.
  unfold SF64add, SFadd. cbn [cond_Zopp].
  set (a := fst (shl_align m e _)). set (b := fst (shl_align mx ex _)).
  change (not_below_zero (binary_round prec emax false (a + b) (Z.min e ex))).
  unfold binary_round.
  destruct (shl_align (a + b) _ _) as [mz ez].
  apply binary_round_aux_not_below_zero. lia.
Qed.

(** A value that is a number and not below zero, divided by a positive [c]
    and multiplied by a positive [k], is such a number. *)
Lemma scaled_not_below_zero (v c k : float) :
  (0 <=? v) = true -> (0 <? c) = true -> (0 <? k) = true ->
  is_infinity c = false -> is_infinity k = false ->
  (0 <=? v / c * k) = true.
Proof.
  intros Hv Hc Hk Hci Hki.
  apply not_below_zero_leb. apply not_below_zero_leb in Hv.
  rewrite mul_spec, div_spec.
  assert (Hfin : forall y, (0 <? y) = true -> is_infinity y = false ->
            exists m e, Prim2SF y = S754_finite false m e).
  { intros y Hy Hyi. unfold is_infinity in Hyi.
    rewrite FloatAxioms.eqb_spec, abs_spec in Hyi. rewrite ltb_spec in Hy.
    replace (Prim2SF 0) with (S754_zero false) in Hy by (vm_compute; reflexivity).
    replace (Prim2SF infinity) with (S754_infinity false) in Hyi
      by (vm_compute; reflexivity).
    destruct (Prim2SF y) as [s|s| |s m e]; cbn in Hy, Hyi; try discriminate;
      destruct s; try discriminate; eauto. }
  destruct (Hfin c Hc Hci) as (mc & ec & ->).
  destruct (Hfin k Hk Hki) as (mk & ek & ->).
  apply SFmul_not_below_zero, SFdiv_not_below_zero, Hv.
Qed.

Lemma ltb_one_not_leb (d : float) :
  (1 <? d) = true -> (d <=? 1) = false /\ (0 <=? d) = true.
Proof.
  intros Hd. rewrite ltb_spec in Hd. unfold SFltb in Hd. split.
  - rewrite leb_spec. unfold SFleb.
    rewrite (SFcompare_antisym (Prim2SF 1) (Prim2SF d)).
    destruct (SFcompare (Prim2SF 1) (Prim2SF d)) as [[| |]|]; try discriminate.
    reflexivity.
  - apply not_below_zero_leb.
    assert (H1 : exists m e, Prim2SF 1 = S754_finite false m e)
      by (vm_compute; eauto).
    destruct H1 as (m1 & e1 & H1). rewrite H1 in Hd.
    destruct (Prim2SF d) as [s|s| |s m e]; try destruct s;
      try exact I; discriminate.
Qed.

(** X1.  In binary64, for every double: with [noise >= 0] the noise opacity
    is a number between 0 and 0.3, with [vignette >= 0] the vignette opacity
    is a number between 0 and 0.85, and with [dropShadow > 1] the opacity of
    the shadow is a number between 0 and 0.6.  The infinities are included,
    so none of the three is ever NaN or out of range on what a slider can
    deliver. *)
Theorem opacity_in_range :
  forall s : Settings float,
    ((0 <=? noise s) = true ->
       (0 <=? noiseOpacity s) = true /\ (noiseOpacity s <=? 0.3) = true) /\
    ((0 <=? vignette s) = true ->
       (0 <=? vignetteOpacity s) = true /\ (vignetteOpacity s <=? 0.85) = true) /\
    ((1 <? dropShadow s) = true ->
       exists offsetY blur spread opacity,
         dropShadowCss s = Shadow offsetY blur spread opacity /\
         (0 <=? opacity) = true /\ (opacity <=? 0.6) = true).
Proof.
  intros s. split; [|split].
  - intros Hn. apply min_in_range; [|reflexivity].
    apply scaled_not_below_zero; try reflexivity. exact Hn.
  - intros Hv. apply min_in_range; [|reflexivity].
    apply scaled_not_below_zero; try reflexivity. exact Hv.
  - intros Hd. destruct (ltb_one_not_leb _ Hd) as [Hle H0].
    unfold dropShadowCss. cbn [leb lit Binary64].
    change (F64.of_Q 1) with 1%float. rewrite Hle.
    eexists _, _, _, _. split; [reflexivity|].
    apply min_in_range; [|reflexivity].
    cbn [lit add mul div Binary64].
    apply not_below_zero_leb. rewrite add_spec.
    replace (Prim2SF (F64.of_Q 0.25)) with (S754_finite false 4503599627370496 (-54))
      by (vm_compute; reflexivity).
    apply SFadd_not_below_zero, not_below_zero_leb.
    apply scaled_not_below_zero; try reflexivity. exact H0.
Qed.

(** The default settings, and a slider pushed to infinity, through the
    theorem. *)
Lemma opacity_in_range_default :
  (noiseOpacity (DEFAULT_SETTINGS (num:=float)) <=? 0.3) = true /\
  (0 <=? vignetteOpacity (with_vignette infinity)) = true.
Proof.
  split.
  - exact (proj2 (proj1 (opacity_in_range DEFAULT_SETTINGS) eq_refl)).
  - exact (proj1 (proj1 (proj2 (opacity_in_range (with_vignette infinity))) eq_refl)).
Defined.

End F64Range.

(** ** More on the derived style values *)

Module StyleMore.
Import F64Facts ExactFacts Style.
Local Open Scope Q_scope.

Lemma Z_above (a n : Z) (x : Q) :
  inject_Z a <= x -> x - (1 # 2) < inject_Z n -> (a <= n)%Z.
Proof.
  intros Ha Hn.
  assert (Hq : inject_Z a - 1 < inject_Z n) by lra.
  assert (Hz : inject_Z (a - 1) < inject_Z n).
  { unfold Z.sub. rewrite inject_Z_plus, inject_Z_opp.
    change (inject_Z 1) with 1. lra. }
  rewrite <- Zlt_Qlt in Hz. lia.
Qed.

Lemma Z_below (b n : Z) (x : Q) :
  x < inject_Z b + (1 # 2) -> inject_Z n <= x + (1 # 2) -> (n <= b)%Z.
Proof.
  intros Hb Hn.
  assert (Hq : inject_Z n < inject_Z b + 1) by lra.
  assert (Hz : inject_Z n < inject_Z (b + 1)).
  { rewrite inject_Z_plus. change (inject_Z 1) with 1. lra. }
  rewrite <- Zlt_Qlt in Hz. lia.
Qed.

Lemma dropShadowCss_bounded_slider (n : Z) :
  (0 <= n <= 100)%Z -> shadow_bounded n = true.
Proof. apply (on_slider shadow_bounded). vm_compute. reflexivity. Qed.

(** X2.  The ranges of the shadow.  In exact arithmetic, for every shadow
    intensity above 1 and up to 100 the shadow has [offsetY] between 24 and
    72, [blur] between 41 and 180, [spread] between -65 and -40 and an
    opacity above 0.25 and at most 0.6, the ceiling being reached exactly
    from intensity 87.5 on (first part).  In binary64, on every position of
    the slider: no shadow up to 1, and above 1 pixel values that are integers
    in the same ranges and an opacity above 0.25 and at most 0.6, which is
    the double [0.6] from 88 on and below it up to 87 (second part).  Between
    the positions of the slider the doubles reach the ceiling a little
    earlier than the exact values: at a double below 87.5 already (third
    part). *)
Theorem dropShadowCss_bounds :
  (forall s : Settings Q,
     1 < dropShadow s -> dropShadow s <= 100 ->
     exists (offsetY blur spread : Z) (opacity : Q),
       dropShadowCss s =
         Shadow (inject_Z offsetY) (inject_Z blur) (inject_Z spread) opacity /\
       (24 <= offsetY <= 72)%Z /\ (41 <= blur <= 180)%Z /\
       (-65 <= spread <= -40)%Z /\
       0.25 < opacity /\ opacity <= 0.6 /\
       (opacity == 0.6 <-> 87.5 <= dropShadow s))
  /\
  (forall n : Z, (0 <= n <= 100)%Z ->
     let css := dropShadowCss (with_dropShadow (F64.of_Z n)) in
     ((n <= 1)%Z -> css = ShadowNone) /\
     ((1 < n)%Z ->
        exists offsetY blur spread opacity : float,
          css = Shadow offsetY blur spread opacity /\
          pixel_between 24 72 offsetY = true /\
          pixel_between 41 180 blur = true /\
          pixel_between (-65) (-40) spread = true /\
          (0.25 <? opacity)%float = true /\
          (opacity <=? 0.6)%float = true /\
          ((88 <= n)%Z -> opacity = 0.6%float) /\
          ((n <= 87)%Z -> (opacity <? 0.6)%float = true)))
  /\
  ((below_87_5 <? 87.5)%float = true /\
   dropShadowCss (with_dropShadow below_87_5) =
     Shadow 66%float 163%float (-62)%float 0.6%float).
Proof.
  split; [|split].
  - intros s Hlo Hhi.
    exists (Qfloor (24 + dropShadow s / 100 * 48 + (1 # 2))),
           (Qfloor (40 + dropShadow s / 100 * 140 + (1 # 2))),
           (Qfloor (- (40 + dropShadow s / 100 * 25) + (1 # 2))),
           (Qmin (0.25 + dropShadow s / 100 * 0.4) 0.6).
    split; [apply dropShadowCss_exact_some, Hlo|].
    destruct (Math_round_half_up (24 + dropShadow s / 100 * 48)) as [Ha1 Ha2].
    destruct (Math_round_half_up (40 + dropShadow s / 100 * 140)) as [Hb1 Hb2].
    destruct (Math_round_half_up (- (40 + dropShadow s / 100 * 25))) as [Hc1 Hc2].
    assert (Hi : dropShadow s / 100 == dropShadow s * (1 # 100))
      by (unfold Qdiv; reflexivity).
    revert Hi Ha1 Ha2 Hb1 Hb2 Hc1 Hc2.
    generalize (dropShadow s / 100) as i. revert Hlo Hhi.
    generalize (dropShadow s) as d.
    intros d Hlo Hhi i Hi Ha1 Ha2 Hb1 Hb2 Hc1 Hc2.
    split; [split|].
    { apply (Z_above 24 _ (24 + i * 48)); [unfold inject_Z; lra | exact Ha1]. }
    { apply (Z_below 72 _ (24 + i * 48)); [unfold inject_Z; lra | exact Ha2]. }
    split; [split|].
    { apply (Z_above 41 _ (40 + i * 140)); [unfold inject_Z; lra | exact Hb1]. }
    { apply (Z_below 180 _ (40 + i * 140)); [unfold inject_Z; lra | exact Hb2]. }
    split; [split|].
    { apply (Z_above (-65) _ (- (40 + i * 25))); [unfold inject_Z; lra | exact Hc1]. }
    { apply (Z_below (-40) _ (- (40 + i * 25))); [unfold inject_Z; lra | exact Hc2]. }
    split; [apply Q.min_glb_lt; lra|].
    split; [apply Q.le_min_r|].
    rewrite Q.min_r_iff. split; intros Hd; lra.
  - intros n Hn. cbv zeta.
    pose proof (dropShadowCss_bounded_slider n Hn) as Hs. unfold shadow_bounded in Hs.
    destruct (dropShadowCss (with_dropShadow (F64.of_Z n))) as [|y b s o].
    + apply Z.leb_le in Hs. split; [reflexivity | lia].
    + repeat (apply andb_prop in Hs as [Hs ?]). apply Z.ltb_lt in Hs.
      split; [lia|]. intros _. exists y, b, s, o.
      repeat (split; [assumption || reflexivity|]).
      split; intros Hn'.
      * destruct (88 <=? n)%Z eqn:Hb; [|lia].
        now apply FloatAxioms.Leibniz.eqb_spec.
      * destruct (88 <=? n)%Z eqn:Hb; [lia|]. assumption.
  - split; vm_compute; reflexivity.
Qed.

(** The default intensity, 65, through the theorem, exactly and in
    binary64. *)
Lemma dropShadowCss_bounds_default :
  (exists (offsetY blur spread : Z) (opacity : Q),
     dropShadowCss (DEFAULT_SETTINGS (num:=Q)) =
       Shadow (inject_Z offsetY) (inject_Z blur) (inject_Z spread) opacity /\
     (24 <= offsetY <= 72)%Z /\ (41 <= blur <= 180)%Z /\
     (-65 <= spread <= -40)%Z /\
     0.25 < opacity /\ opacity <= 0.6 /\
     (opacity == 0.6 <-> 87.5 <= dropShadow (DEFAULT_SETTINGS (num:=Q)))) /\
  dropShadowCss (with_dropShadow (F64.of_Z 1)) = ShadowNone.
Proof.
  split.
  - apply (proj1 dropShadowCss_bounds DEFAULT_SETTINGS); reflexivity || discriminate.
  - apply (proj1 (proj2 dropShadowCss_bounds) 1%Z); lia.
Defined.

Lemma vignetteOpacity_slider (n : Z) :
  (0 <= n <= 100)%Z -> vignette_agrees n = true.
Proof. apply (on_slider vignette_agrees). vm_compute. reflexivity. Qed.

(** X3.  [vignetteOpacity] is [min (vignette / 100 * 0.9) 0.85]; in exact
    arithmetic that is [vignette * 0.009] capped at [0.85], the cap being
    reached exactly from [0.85 / 0.009], between 94.4 and 94.5, on.  On the
    positions of the slider the double is within twice the unit roundoff of
    that value, it is the double [0.85] from 95 on and below it up to 94. *)
Theorem vignetteOpacity_capped :
  (forall s : Settings Q,
     vignetteOpacity s == Qmin (vignette s * 0.009) 0.85 /\
     (vignetteOpacity s == 0.85 <-> 0.85 / 0.009 <= vignette s) /\
     (vignette s < 0.85 / 0.009 -> vignetteOpacity s == vignette s * 0.009))
  /\
  (94.4 < 0.85 / 0.009 /\ 0.85 / 0.009 < 94.5)
  /\
  (forall n : Z, (0 <= n <= 100)%Z ->
     let x := vignetteOpacity (with_vignette (F64.of_Z n)) in
     within (2 * unit_roundoff) x (Qmin (inject_Z n * 0.009) 0.85) = true /\
     ((95 <= n)%Z -> x = 0.85%float) /\
     ((n <= 94)%Z -> (x <? 0.85)%float = true)).
Proof.
  assert (Hc : 0.85 / 0.009 == 850 # 9) by reflexivity.
  split; [|split].
  - intros s. split; [apply vignetteOpacity_exact_closed|]. split.
    + rewrite vignetteOpacity_exact_closed, Q.min_r_iff, Hc. split; intros Hv; lra.
    + intros Hv. rewrite vignetteOpacity_exact_closed. apply Q.min_l.
      rewrite Hc in Hv. lra.
  - split; reflexivity.
  - intros n Hn. cbv zeta.
    pose proof (vignetteOpacity_slider n Hn) as Hs. unfold vignette_agrees in Hs.
    apply andb_prop in Hs as [Hw Hx]. split; [exact Hw|].
    split; intros Hn'.
    + destruct (95 <=? n)%Z eqn:Hb; [|lia].
      now apply FloatAxioms.Leibniz.eqb_spec.
    + destruct (95 <=? n)%Z eqn:Hb; [lia|]. exact Hx.
Qed.

(** Slider position 40, the default, through the theorem. *)
Lemma vignetteOpacity_capped_at_40 :
  (vignetteOpacity (with_vignette (F64.of_Z 40)) <? 0.85)%float = true.
Proof.
  refine (proj2 (proj2 (proj2 (proj2 vignetteOpacity_capped) 40%Z _)) _); lia.
Defined.

End StyleMore.

(** ** More on names *)

Module NamesMore.
Import UnicodeFacts Names.

(** *** Sanitizing twice *)

Lemma class_ascii (c : N) : is_a_z_0_9 c || isHyphen c = true -> isAscii c = true.
Proof. by_class_bounds. Qed.

Lemma toLowerAscii_fixed (c : N) :
  is_a_z_0_9 c || isHyphen c = true -> toLowerAscii c = c.
Proof. unfold toLowerAscii. by_class_bounds. Qed.

Lemma toLowerCase_fixed (s : JsString) :
  all_chars (fun c => is_a_z_0_9 c || isHyphen c) s = true -> toLowerCase s = s.
Proof.
  intros Hs.
  rewrite toLowerCase_ascii by (apply (all_chars_weaken _ _ _ class_ascii), Hs).
  induction s as [|c rest IH]; [reflexivity|].
  cbn [all_chars map] in *. apply andb_prop in Hs as [Hc Hrest].
  now rewrite (toLowerAscii_fixed c Hc), IH.
Qed.

Lemma hyphen_outside_class (c : N) : isHyphen c = true -> is_a_z_0_9 c = false.
Proof. by_class_bounds. Qed.

Lemma replace_runs_fixed (s : JsString) :
  all_chars (fun c => is_a_z_0_9 c || isHyphen c) s = true ->
  single_hyphens s = true ->
  replace_runs false s = s.
Proof.
  induction s as [|c rest IH]; [reflexivity|].
  cbn [all_chars single_hyphens]. intros Ha Hs.
  apply andb_prop in Ha as [Hc Harest]. apply andb_prop in Hs as [Hh Hsrest].
  specialize (IH Harest Hsrest). cbn [replace_runs].
  destruct (is_a_z_0_9 c) eqn:Hcl; [now rewrite IH|].
  cbn [orb] in Hc. rewrite Hc in Hh. cbn [andb] in Hh. apply negb_true_iff in Hh.
  rewrite (isHyphen_eq c Hc). f_equal.
  destruct rest as [|d rest']; [reflexivity|].
  cbn [starts_with_hyphen] in Hh. cbn [all_chars] in Harest.
  apply andb_prop in Harest as [Hd _]. rewrite Hh, orb_false_r in Hd.
  rewrite <- IH at 2. cbn [replace_runs]. now rewrite Hd.
Qed.

Lemma replace_edges_false_fixed (s : JsString) :
  ends_with_hyphen s = false -> replace_edges false s = s.
Proof.
  unfold ends_with_hyphen.
  induction s as [|c rest IH]; [reflexivity|].
  cbn [replace_edges orb]. destruct rest as [|d rest'].
  - cbn. intros ->. reflexivity.
  - intros He. cbn [isEmpty]. rewrite andb_false_r. f_equal. apply IH, He.
Qed.

Lemma replace_edges_fixed (s : JsString) :
  starts_with_hyphen s = false -> ends_with_hyphen s = false ->
  replace_edges true s = s.
Proof.
  intros Hb He. rewrite <- (replace_edges_false_fixed s He) at 2.
  destruct s as [|c rest]; [reflexivity|].
  cbn [starts_with_hyphen] in Hb. cbn [replace_edges]. now rewrite Hb.
Qed.

(** *** A name with a letter or a digit *)

Lemma some_char_all_chars (p : N -> bool) (s : JsString) :
  some_char p s = negb (all_chars (fun c => negb (p c)) s).
Proof.
  induction s as [|c rest IH]; [reflexivity|].
  cbn [some_char all_chars]. rewrite IH. now destruct (p c).
Qed.

Lemma replace_runs_some_class (inRun : bool) (s : JsString) :
  some_char is_a_z_0_9 (replace_runs inRun s) = some_char is_a_z_0_9 s.
Proof.
  revert inRun. induction s as [|c rest IH]; intros inRun; [reflexivity|].
  cbn [replace_runs some_char]. destruct (is_a_z_0_9 c) eqn:Hc.
  - cbn [some_char]. now rewrite Hc.
  - destruct inRun; cbn [some_char orb]; rewrite ?IH; reflexivity.
Qed.

Lemma replace_edges_some_class (atStart : bool) (s : JsString) :
  some_char is_a_z_0_9 (replace_edges atStart s) = some_char is_a_z_0_9 s.
Proof.
  revert atStart. induction s as [|c rest IH]; intros atStart; [reflexivity|].
  cbn [replace_edges some_char].
  destruct (isHyphen c && (atStart || isEmpty rest)) eqn:Hd.
  - apply andb_prop in Hd as [Hh _]. now rewrite (hyphen_outside_class c Hh), IH.
  - cbn [some_char]. now rewrite IH.
Qed.

Lemma safeName_some_class (imageName : JsString) :
  some_char is_a_z_0_9 (safeName imageName) = some_char is_a_z_0_9 (toLowerCase imageName).
Proof.
  unfold safeName.
  now rewrite replace_edges_some_class, replace_runs_some_class.
Qed.

(** X4.  Sanitizing is idempotent: the sanitized name is its own sanitized
    name.  And it is empty, so that ["screenshot"] takes its place, exactly
    when the lower case of the name has no letter a-z and no digit.  That is
    not to say that the name has none: the Kelvin sign and the capital I
    with dot above are no ASCII letters, and leave [k] and [i]; a small e
    with acute accent leaves nothing. *)
Theorem safeName_idempotent :
  forall imageName : JsString,
    safeName (safeName imageName) = safeName imageName /\
    (safeName imageName = [] <->
       all_chars (fun c => negb (is_a_z_0_9 c)) (toLowerCase imageName) = true) /\
    (or_else (safeName imageName) (js "screenshot") = js "screenshot" <->
       safeName imageName = [] \/ safeName imageName = js "screenshot") /\
    safeName [0x212A%N] = js "k" /\
    safeName [0x130%N] = js "i" /\
    safeName [0xE9%N] = [].
Proof.
  intros imageName.
  destruct (safeName_shape imageName) as (Hc & Hb & He & Hs).
  split; [|split; [|split]].
  - unfold safeName at 1.
    rewrite (toLowerCase_fixed _ Hc), (replace_runs_fixed _ Hc Hs).
    apply replace_edges_fixed; assumption.
  - split; [|apply safeName_punctuation].
    intros Hn. pose proof (safeName_some_class imageName) as Hsc.
    rewrite Hn in Hsc. cbn [some_char] in Hsc.
    rewrite some_char_all_chars in Hsc.
    symmetry in Hsc. now apply negb_false_iff in Hsc.
  - unfold or_else. destruct (isEmpty (safeName imageName)) eqn:Hn.
    + apply isEmpty_nil in Hn. tauto.
    + split; [auto|]. intros [Hn'|Hn']; [|exact Hn'].
      rewrite Hn' in Hn. discriminate.
  - repeat split; vm_compute; reflexivity.
Qed.

(** *** The characters of a download name *)

Lemma class_name_char (c : N) :
  is_a_z_0_9 c || isHyphen c = true -> name_char c = true.
Proof. by_class_bounds. Qed.

Lemma class_not_dot (c : N) :
  is_a_z_0_9 c || isHyphen c = true -> negb (isDot c) = true.
Proof. by_class_bounds. Qed.

Lemma digit_class (c : N) : isDigit c = true -> is_a_z_0_9 c || isHyphen c = true.
Proof. by_class_bounds. Qed.

Lemma sanitize_spec_chars (imageName : JsString) :
  all_chars (fun c => is_a_z_0_9 c || isHyphen c) (sanitize_spec imageName) = true.
Proof.
  rewrite <- safeName_sanitize. unfold or_else.
  destruct (isEmpty (safeName imageName)); [reflexivity|].
  apply safeName_shape.
Qed.

Lemma pad_class (width : nat) (n : N) :
  all_chars (fun c => is_a_z_0_9 c || isHyphen c) (pad width n) = true.
Proof. apply (all_chars_weaken isDigit); [apply digit_class | apply pad_digits]. Qed.

(** The part of a download name before its extension. *)
Lemma stem_chars (p : N -> bool) (imageName : JsString) (exportScale : ExportScale)
    (now : Instant) :
  (forall c, is_a_z_0_9 c || isHyphen c = true -> p c = true) ->
  p 84%N = true -> p 90%N = true -> p 43%N = true ->
  all_chars p (sanitize_spec imageName ++ js "-" ++ scaleText exportScale ++ js "x-"
               ++ timestamp_spec now) = true.
Proof.
  intros Hp HT HZ Hplus.
  assert (Hpad : forall w n, all_chars p (pad w n) = true).
  { intros w n. apply (all_chars_weaken _ p _ Hp), pad_class. }
  assert (Hsan : all_chars p (sanitize_spec imageName) = true)
    by apply (all_chars_weaken _ p _ Hp), sanitize_spec_chars.
  assert (Hscale : all_chars p (scaleText exportScale) = true).
  { apply (all_chars_weaken _ p _ Hp). destruct exportScale; reflexivity. }
  assert (Hh : p 45%N = true) by (apply Hp; reflexivity).
  assert (Hx : p 120%N = true) by (apply Hp; reflexivity).
  unfold timestamp_spec.
  destruct (year now <=? 9999)%N;
    rewrite !all_chars_app, Hsan, Hscale, !Hpad;
    cbn [js map list_ascii_of_string N_of_ascii N_of_digits all_chars N.add N.mul];
    cbn; rewrite ?Hh, ?Hx, ?HT, ?HZ, ?Hplus; reflexivity.
Qed.

(** X5.  A download name is made of the characters a-z, 0-9, hyphen, dot,
    [T], [Z] and [+] only (no slash, colon, space or capital letter from the
    display name), it ends with [.png], and that dot is its only dot. *)
Theorem downloadName_characters :
  forall (imageName : JsString) (exportScale : ExportScale) (now : Instant),
    all_chars name_char (downloadName imageName exportScale now) = true /\
    exists stem : JsString,
      downloadName imageName exportScale now = stem ++ js ".png" /\
      all_chars (fun c => negb (isDot c)) stem = true /\
      stem <> [].
Proof.
  intros imageName exportScale now.
  assert (Hd : downloadName imageName exportScale now =
    (sanitize_spec imageName ++ js "-" ++ scaleText exportScale ++ js "x-"
     ++ timestamp_spec now) ++ js ".png").
  { unfold downloadName. rewrite safeName_sanitize, timestamp_is_spec.
    now rewrite <- !app_assoc. }
  split.
  - rewrite Hd, all_chars_app.
    rewrite (stem_chars name_char); try reflexivity. apply class_name_char.
  - eexists. split; [exact Hd|]. split.
    + apply (stem_chars (fun c => negb (isDot c))); try reflexivity. apply class_not_dot.
    + unfold sanitize_spec.
      destruct (isEmpty _) eqn:He; [discriminate|].
      destruct (trim_hyphens _); [discriminate|discriminate].
Qed.

(** *** The friendly name of a file *)

Lemma all_chars_with_dot (base ext : JsString) :
  all_chars (fun d => negb (isSlash d || isDot d)) (base ++ 46%N :: ext) = false.
Proof.
  induction base as [|c base IH]; cbn [app all_chars].
  - reflexivity.
  - rewrite IH. apply andb_false_r.
Qed.

(** X6.  The friendly name of a file is a prefix of its name: the name
    itself when it has no dot, and the part before the last dot when a
    non-empty extension without slash follows it, whatever dots come before;
    a name that is nothing but an extension leaves the empty name, for which
    ["Screenshot"] stands in. *)
Theorem replace_extension_friendly :
  forall name base ext : JsString,
    startsWith (replace_extension name) name = true /\
    (all_chars (fun c => negb (isDot c)) name = true ->
       replace_extension name = name) /\
    (ext <> [] ->
     all_chars (fun d => negb (isSlash d || isDot d)) ext = true ->
       replace_extension (base ++ js "." ++ ext) = base /\
       or_else (replace_extension (js "." ++ ext)) (js "Screenshot") = js "Screenshot").
Proof.
  intros name base ext. split; [|split].
  - induction name as [|c rest IH]; [reflexivity|].
    cbn [replace_extension]. destruct (_ && _ && _); [reflexivity|].
    cbn [startsWith]. now rewrite N.eqb_refl, IH.
  - induction name as [|c rest IH]; [reflexivity|].
    cbn [all_chars replace_extension]. intros Hn. apply andb_prop in Hn as [Hc Hrest].
    apply negb_true_iff in Hc. rewrite Hc. cbn [andb].
    now rewrite IH.
  - intros Hne Hext.
    change (js "." ++ ext) with (46%N :: ext).
    assert (Hdot : replace_extension (46%N :: ext) = []).
    { cbn [replace_extension]. rewrite Hext.
      destruct ext; [contradiction|]. reflexivity. }
    split; [|now rewrite Hdot].
    induction base as [|c base IH]; [exact Hdot|].
    cbn [app replace_extension]. rewrite all_chars_with_dot, andb_false_r.
    now rewrite IH.
Qed.

(** Two file names through the theorem. *)
Lemma replace_extension_friendly_examples :
  replace_extension (js "shot.final.png") = js "shot.final" /\
  replace_extension (js "README") = js "README".
Proof.
  split.
  - apply (proj2 (proj2 (replace_extension_friendly [] (js "shot.final") (js "png"))));
      [discriminate | reflexivity].
  - apply (proj1 (proj2 (replace_extension_friendly (js "README") [] []))). reflexivity.
Defined.

End NamesMore.

(** ** More on the component *)

Module AppMore.

Section WithNumbers.
Context {num : Type} `{JsNumber num}.

(** *** Settings *)

(** X7.  Updates of two different settings commute, and a second update of
    the same setting overrides the first: the settings after a series of
    control changes depend on the last value given to each key only. *)
Theorem updateSetting_commute :
  forall (st : State num) (k1 k2 : SettingsKey)
         (v1 v1' : SettingsValue num k1) (v2 : SettingsValue num k2),
    (k1 <> k2 ->
       updateSetting k1 v1 (updateSetting k2 v2 st) =
       updateSetting k2 v2 (updateSetting k1 v1 st)) /\
    updateSetting k1 v1' (updateSetting k1 v1 st) = updateSetting k1 v1' st.
Proof.
  intros st k1 k2 v1 v1' v2. split.
  - intros Hk. destruct k1, k2; try reflexivity; contradiction.
  - destruct k1; reflexivity.
Qed.

(** X8.  The window chrome switch is an involution: two clicks, each on a
    page rendered from the state, leave the state as it was.  (Two clicks
    on the same render both set the opposite of what that render shows, so
    the second repeats the first.)  Switching the background mode and back
    leaves the state as it was too, so the colours of the mode that is not
    shown are kept. *)
Theorem switches_round_trip :
  forall (w : World num) (st : State num),
    state (run [Commit; ClickWindowChrome; Commit; ClickWindowChrome] w) = state w /\
    state (run [Commit; ClickWindowChrome; ClickWindowChrome] w) =
      state (run [Commit; ClickWindowChrome] w) /\
    showWindowChrome (settings (state (run [Commit; ClickWindowChrome] w))) =
      negb (showWindowChrome (settings (state w))) /\
    onClickWindowChrome (negb (showWindowChrome (settings st)))
      (onClickWindowChrome (showWindowChrome (settings st)) st) = st /\
    updateSetting K_backgroundType (backgroundType (settings st))
      (updateSetting K_backgroundType
         (match backgroundType (settings st) with
          | gradient => solid
          | solid => gradient
          end) st) = st /\
    state (run [Change K_backgroundType
                  (match backgroundType (settings (state w)) with
                   | gradient => solid
                   | solid => gradient
                   end);
                Change K_backgroundType (backgroundType (settings (state w)))] w) =
      state w.
Proof.
  intros [[url name [br pd ds bt gf gt ga bc swc wa ns vg] drag exp scale] cm pr rd ex ef]
         [url' name' [br' pd' ds' bt' gf' gt' ga' bc' swc' wa' ns' vg'] drag' exp' scale'].
  destruct swc, swc'; repeat split.
Qed.

(** X9.  After a click on a preset the canvas is painted with the very
    background that the preset's swatch shows, whatever the settings were
    and however a number is written. *)
Theorem preset_paints_swatch :
  forall (numberText : num -> string) (st : State num)
         (g : GradientPreset num) (c : SolidPreset),
    canvasBackground numberText (settings (onClickGradientPreset g st)) =
      gradientSwatchBackground numberText g /\
    canvasBackground numberText (settings (onClickSolidPreset c st)) =
      solidSwatchBackground c /\
    canvasBackground numberText
      (settings (updateSetting K_backgroundType solid (onClickGradientPreset g st))) =
      backgroundColor (settings st).
Proof. intros numberText st g c. repeat split. Qed.

(** X10.  After a click on one of the four gradient presets exactly that
    preset's swatch is marked active, and it stays so when the angle is
    changed; after a click on one of the four solid presets exactly that
    one is active, and no gradient swatch is. *)
Theorem preset_swatch_active :
  forall (st : State num) (p q : GradientPreset num) (c d : SolidPreset) (angle : num),
    In p gradientPresets -> In q gradientPresets ->
    In c solidPresets -> In d solidPresets ->
    gradientSwatchActive q (settings (onClickGradientPreset p st)) =
      String.eqb (gp_id q) (gp_id p) /\
    gradientSwatchActive q
      (settings (updateSetting K_gradientAngle angle (onClickGradientPreset p st))) =
      String.eqb (gp_id q) (gp_id p) /\
    solidSwatchActive d (settings (onClickSolidPreset c st)) =
      String.eqb (sp_id d) (sp_id c) /\
    gradientSwatchActive q (settings (onClickSolidPreset c st)) = false /\
    solidSwatchActive d (settings (onClickGradientPreset p st)) = false.
Proof.
  intros st p q c d angle Hp Hq Hc Hd.
  assert (Hg : gradientSwatchActive q (settings (onClickGradientPreset p st)) =
               String.eqb (gp_id q) (gp_id p)).
  { cbn in Hp, Hq.
    destruct Hp as [<-|[<-|[<-|[<-|[]]]]], Hq as [<-|[<-|[<-|[<-|[]]]]];
      reflexivity. }
  assert (Hs : solidSwatchActive d (settings (onClickSolidPreset c st)) =
               String.eqb (sp_id d) (sp_id c)).
  { cbn in Hc, Hd.
    destruct Hc as [<-|[<-|[<-|[<-|[]]]]], Hd as [<-|[<-|[<-|[<-|[]]]]];
      reflexivity. }
  split; [exact Hg|]. split; [exact Hg|]. split; [exact Hs|]. split.
  - unfold gradientSwatchActive. cbn. apply andb_false_r.
  - unfold solidSwatchActive. cbn. apply andb_false_r.
Qed.

(** Each derived style value depends on the settings it is memoized on
    only. *)
Lemma memo_dependencies :
  forall (numberText : num -> string) (a b : Settings num),
    (backgroundType a = backgroundType b ->
     backgroundColor a = backgroundColor b ->
     gradientAngle a = gradientAngle b ->
     gradientFrom a = gradientFrom b ->
     gradientTo a = gradientTo b ->
       canvasBackground numberText a = canvasBackground numberText b) /\
    (dropShadow a = dropShadow b -> dropShadowCss a = dropShadowCss b) /\
    (noise a = noise b -> noiseOpacity a = noiseOpacity b) /\
    (vignette a = vignette b -> vignetteOpacity a = vignetteOpacity b).
Proof.
  intros numberText a b. repeat split.
  - intros Ht Hc Ha Hf Hg. unfold canvasBackground. now rewrite Ht, Hc, Ha, Hf, Hg.
  - intros Hd. unfold dropShadowCss. now rewrite Hd.
  - intros Hn. unfold noiseOpacity. now rewrite Hn.
  - intros Hv. unfold vignetteOpacity. now rewrite Hv.
Qed.

(** *** The image and its name *)

Lemma or_else_nonempty (s fallback : JsString) :
  fallback <> [] -> or_else s fallback <> [].
Proof.
  intros Hf. unfold or_else. destruct (isEmpty s) eqn:Hs; [exact Hf|].
  intros ->. discriminate.
Qed.

Lemma step_name_invariant (e : Event num) (w : World num) :
  name_invariant (state w) /\ name_invariant (committed w) ->
  name_invariant (state (step e w)) /\ name_invariant (committed (step e w)).
Proof.
  intros [Hw Hc]. destruct e; cbn [step]; try (split; [exact Hw | exact Hc]).
  - split; exact Hw.
  - destruct (exportDisabled (committed w)); [split; assumption|].
    unfold handleExport. destruct (_ || _); split; assumption.
  - unfold handleExport. destruct (_ || _); split; assumption.
  - destruct (nth_error (exporting w) i); [|split; assumption].
    destruct result; split; assumption.
  - destruct files as [file|]; [|split; assumption].
    cbn [handleFileInputChange]. unfold readFile. destruct (negb _); split; assumption.
  - destruct files as [file|]; [|split; assumption].
    cbn [handleDrop]. unfold readFile. destruct (negb _); split; assumption.
  - unfold handleDragOver. destruct (negb _); split; assumption.
  - destruct (nth_error (reading w) i) as [file|]; [|split; assumption].
    split; [|exact Hc].
    split; [|discriminate]. cbn. apply or_else_nonempty. discriminate.
  - destruct (clearDisabled (committed w)); [split; assumption|].
    split; [|exact Hc]. split; [discriminate|reflexivity].
Qed.

(** X12.  In every state the page can reach, by any events, the image name
    is not empty, and it is ["Screenshot"] whenever no image is loaded; so
    it is in every state that is rendered. *)
Theorem imageName_never_empty :
  forall (events : list (Event num)),
    let w := run events initialWorld in
    imageName (state w) <> [] /\
    (imageDataUrl (state w) = None -> imageName (state w) = js "Screenshot") /\
    imageName (committed w) <> [] /\
    (imageDataUrl (committed w) = None -> imageName (committed w) = js "Screenshot").
Proof.
  intros events w.
  assert (Hrun : forall w0 : World num,
            name_invariant (state w0) /\ name_invariant (committed w0) ->
            name_invariant (state (run events w0)) /\
            name_invariant (committed (run events w0))).
  { induction events as [|e rest IH]; intros w0 Hw; [exact Hw|].
    cbn [run]. apply IH, step_name_invariant, Hw. }
  destruct (Hrun initialWorld) as [[H1 H2] [H3 H4]].
  { split; split; (discriminate || reflexivity). }
  repeat split; assumption.
Qed.

(** X13.  Reads end in any order, and the image shown is that of the read
    that ended last: of two image files chosen one after the other, the
    first is shown in the end when its read ends after the second's.  Until
    a read ends the state is as before. *)
Theorem last_load_wins :
  forall (a b : File) (w : World num),
    String.prefix "image/" (file_type a) = true ->
    String.prefix "image/" (file_type b) = true ->
    reading w = [] ->
    state (run [ChooseFile (Some a); ChooseFile (Some b)] w) = state w /\
    imageDataUrl (state (run [ChooseFile (Some a); ChooseFile (Some b);
                              ReaderLoads 1; ReaderLoads 0] w)) =
      Some (file_dataUrl a) /\
    imageDataUrl (state (run [ChooseFile (Some a); ChooseFile (Some b);
                              ReaderLoads 0; ReaderLoads 0] w)) =
      Some (file_dataUrl b) /\
    reading (run [ChooseFile (Some a); ChooseFile (Some b);
                  ReaderLoads 1; ReaderLoads 0] w) = [].
Proof.
  intros a b w Ha Hb Hr.
  cbn [run step handleFileInputChange]. unfold readFile. rewrite Ha, Hb.
  cbn [negb]. cbn [reading perform with_reading]. rewrite Hr.
  repeat split.
Qed.

(** *** Export *)

Lemma count_app (p : Effect -> bool) (l l' : list Effect) :
  count p (l ++ l') = (count p l + count p l')%nat.
Proof. unfold count. now rewrite filter_app, length_app. Qed.

Lemma remove_nth_length {A : Type} (i : nat) (l : list A) (x : A) :
  nth_error l i = Some x -> S (List.length (remove_nth i l)) = List.length l.
Proof.
  revert i. induction l as [|y l IH]; intros [|i] Hx; try discriminate.
  - reflexivity.
  - cbn. f_equal. now apply IH.
Qed.

Lemma handleExport_balanced (w : World num) : balanced w -> balanced (handleExport w).
Proof.
  unfold balanced, handleExport. intros Hw.
  destruct (_ || _); cbn [effects exporting perform with_exporting with_state].
  - rewrite !count_app. cbn. lia.
  - rewrite !count_app, length_app. cbn. lia.
Qed.

Lemma step_balanced (e : Event num) (w : World num) :
  balanced w -> balanced (step e w).
Proof.
  intros Hw. destruct e; cbn [step]; try exact Hw.
  - destruct (exportDisabled (committed w)); [exact Hw|]. now apply handleExport_balanced.
  - now apply handleExport_balanced.
  - destruct (nth_error (exporting w) i) as [pending|] eqn:Hn; [|exact Hw].
    apply remove_nth_length in Hn. unfold balanced in *.
    destruct result; cbn -[count]; rewrite !count_app; cbn; lia.
  - destruct files as [file|]; [|exact Hw].
    cbn [handleFileInputChange]. unfold readFile. destruct (negb _); [exact Hw|].
    unfold balanced in *. cbn -[count]. rewrite !count_app. cbn. lia.
  - destruct files as [file|]; [|exact Hw].
    cbn [handleDrop]. unfold readFile. destruct (negb _); [exact Hw|].
    unfold balanced in *. cbn -[count]. rewrite !count_app. cbn. lia.
  - unfold handleDragOver. destruct (negb _); exact Hw.
  - destruct (nth_error (reading w) i); exact Hw.
  - destruct (clearDisabled (committed w)); exact Hw.
Qed.

(** X14.  Whatever the events, direct calls of the handler included, every
    call of [toPng] is accounted for: the calls made are the downloads, plus
    the failures logged, plus the calls still in progress.  So there are
    never more downloads than snapshots, and a failure is logged once and
    shown once. *)
Theorem export_accounting :
  forall (events : list (Event num)),
    let w := run events initialWorld in
    count is_ToPng (effects w) =
      (count is_Download (effects w) + count is_ConsoleError (effects w)
       + List.length (exporting w))%nat /\
    (count is_Download (effects w) <= count is_ToPng (effects w))%nat.
Proof.
  intros events w.
  assert (Hw : balanced w).
  { subst w. generalize (initialWorld (num:=num)) (eq_refl : balanced (initialWorld (num:=num))).
    induction events as [|e rest IH]; intros w0 Hw0; [exact Hw0|].
    cbn [run]. apply IH, step_balanced, Hw0. }
  unfold balanced in Hw. split; [exact Hw | lia].
Qed.

(** X15.  A failed export can be retried: when the snapshot of an export
    started by a click is rejected, the failure is logged and shown, nothing
    is downloaded and the flag is cleared; the button stays disabled until
    the page is rendered again, then it is enabled and a second click starts
    a second snapshot. *)
Theorem export_retry_after_failure :
  forall (w : World num) (now : Instant),
    committed w = state w ->
    truthy (imageDataUrl (state w)) = true -> previewRef w = true ->
    isExporting (state w) = false -> exporting w = [] ->
    let failed := run [ClickExport; Commit; ToPngSettles 0 Rejected now] w in
    let w' := step Commit failed in
    effects w' =
      effects w ++
      [ToPng (exportScale (state w)); ConsoleError "Export failed";
       Alert "Export failed. Please try again or lower the export size."] /\
    state w' = state w /\
    committed w' = state w /\
    exporting w' = [] /\
    step ClickExport failed = failed /\
    exportDisabled (committed w') = false /\
    exporting (step ClickExport w') =
      [mkPendingExport (imageName (state w)) (exportScale (state w))].
Proof.
  intros w now Hcm Himg Hpr Hexp Hex.
  destruct w as [[url name st drag exp scale] cm pr rd ex ef].
  cbn [state committed imageDataUrl isExporting previewRef exporting] in *.
  subst cm pr exp ex.
  cbn [run step]. unfold exportDisabled, handleExport.
  repeat (cbn -[truthy]; rewrite ?Himg).
  rewrite <- app_assoc. repeat split.
Qed.

Lemma step_keeps_first (e : Event num) (w : World num) (first : PendingExport)
    (others : list PendingExport) :
  no_snapshot_ends e = true -> exporting w = first :: others ->
  exists others', exporting (step e w) = first :: others'.
Proof.
  intros He Hx.
  assert (Hstart : exists others', exporting (handleExport w) = first :: others').
  { unfold handleExport. destruct (_ || _); cbn [exporting perform with_exporting with_state].
    - eauto.
    - rewrite Hx. cbn [app]. eauto. }
  destruct e; try discriminate; cbn [step]; eauto.
  - destruct (exportDisabled (committed w)); eauto.
  - destruct files as [file|]; [|eauto].
    cbn [handleFileInputChange]. unfold readFile. destruct (negb _); eauto.
  - destruct files as [file|]; [|eauto].
    cbn [handleDrop]. unfold readFile. destruct (negb _); eauto.
  - unfold handleDragOver. destruct (negb _); eauto.
  - destruct (nth_error (reading w) i); eauto.
  - destruct (clearDisabled (committed w)); eauto.
Qed.

Lemma run_keeps_first (events : list (Event num)) (w : World num)
    (first : PendingExport) (others : list PendingExport) :
  forallb no_snapshot_ends events = true -> exporting w = first :: others ->
  exists others', exporting (run events w) = first :: others'.
Proof.
  revert w others. induction events as [|e rest IH]; intros w others Hev Hx; [eauto|].
  cbn [forallb] in Hev. apply andb_prop in Hev as [He Hrest].
  destruct (step_keeps_first e w first others He Hx) as [others' Hx'].
  cbn [run]. now apply (IH _ others').
Qed.

Lemma run_app (a b : list (Event num)) (w : World num) :
  run (a ++ b) w = run b (run a w).
Proof. revert w. induction a as [|e a IH]; intros w; [reflexivity|]. apply IH. Qed.

(** X16.  The file of an export is named after the image name and the scale
    of the render that was clicked on: whatever happens between the click
    and the end of the snapshot (another image, a cleared image, another
    scale, renders, more clicks on the export button or calls of the
    handler), the download that follows carries that name and that scale,
    and the data of the snapshot. *)
Theorem export_keeps_click_values :
  forall (w : World num) (between : list (Event num)) (dataUrl : string) (now : Instant),
    truthy (imageDataUrl (committed w)) = true -> previewRef w = true ->
    isExporting (committed w) = false -> exporting w = [] ->
    forallb no_snapshot_ends between = true ->
    exists before : list Effect,
      effects (run (ClickExport :: between ++ [ToPngSettles 0 (Resolved dataUrl) now]) w) =
        before ++
        [Download (downloadName (imageName (committed w)) (exportScale (committed w)) now)
           dataUrl].
Proof.
  intros w between dataUrl now Himg Hpr Hexp Hex Hev.
  cbn [run]. rewrite run_app.
  set (w1 := step ClickExport w).
  assert (H1 : exporting w1 =
                 [mkPendingExport (imageName (committed w)) (exportScale (committed w))]).
  { subst w1. cbn [step]. unfold exportDisabled. rewrite Himg, Hexp. cbn [negb orb].
    unfold handleExport. rewrite Himg, Hpr. cbn. now rewrite Hex. }
  destruct (run_keeps_first between w1 _ _ Hev H1) as [others Hkeep].
  cbn [run step]. rewrite Hkeep. cbn [nth_error].
  eexists. reflexivity.
Qed.

End WithNumbers.

(** *** Memoized values *)

Lemma useMemo_fresh {D V : Type} (same : D -> D -> bool)
    (deps : Settings float -> D) (compute : Settings float -> V) :
  (forall a b, same a b = true -> a = b) ->
  (forall s s', deps s = deps s' -> compute s = compute s') ->
  forall (history : list (Settings float)) (settings : Settings float),
    memo_value
      (useMemo same (fun _ => compute settings) (deps settings)
         (rendered (fun s cell => useMemo same (fun _ => compute s) (deps s) cell)
            history None)) = compute settings.
Proof.
  intros Hsame Hdep history settings.
  set (hook := fun s cell => useMemo same (fun _ => compute s) (deps s) cell).
  assert (Hinv : forall (cell : option (Memo D V)),
    (forall m, cell = Some m -> exists s, memo_deps m = deps s /\ memo_value m = compute s) ->
    forall m, rendered hook history cell = Some m ->
      exists s, memo_deps m = deps s /\ memo_value m = compute s).
  { induction history as [|s later IH]; intros cell Hc m Hm; [now apply Hc|].
    cbn [rendered] in Hm. apply (IH (Some (hook s cell))); [|exact Hm].
    intros m' Hm'. injection Hm' as <-. subst hook. cbn beta. unfold useMemo.
    destruct cell as [m0|]; [|exists s; split; reflexivity].
    destruct (same (memo_deps m0) (deps s)); [now apply Hc|].
    exists s. split; reflexivity. }
  unfold useMemo.
  destruct (rendered hook history None) as [m|] eqn:Hr; [|reflexivity].
  destruct (same (memo_deps m) (deps settings)) eqn:Hs; [|reflexivity].
  destruct (Hinv None (fun m0 Hm0 => ltac:(discriminate)) m Hr) as (s & Hd & Hv).
  rewrite Hv. apply Hdep. rewrite <- Hd. now apply Hsame.
Qed.

Lemma same_number_value_eq (a b : float) : same_number_value a b = true -> a = b.
Proof. apply FloatAxioms.Leibniz.eqb_spec. Qed.

Lemma same_canvasDeps_eq (a b : BackgroundType * string * float * string * string) :
  same_canvasDeps a b = true -> a = b.
Proof.
  destruct a as [[[[t c] g] f] o], b as [[[[t' c'] g'] f'] o']. cbn.
  intros Hs. repeat (apply andb_prop in Hs as [Hs ?]).
  f_equal; [f_equal; [f_equal; [f_equal|]|]|];
    try (now apply String.eqb_eq); try (now apply same_number_value_eq).
  destruct t, t'; (reflexivity || discriminate).
Qed.

(** X11.  A memoized style value is never stale: after any history of
    renders, each of the four hooks returns what a fresh computation from
    the current settings returns.  The dependencies listed for each hook are
    all that its computation reads. *)
Theorem memo_never_stale :
  forall (numberText : float -> string) (history : list (Settings float))
         (settings : Settings float),
    memo_value (useCanvasBackground numberText settings
                  (rendered (useCanvasBackground numberText) history None)) =
      canvasBackground numberText settings /\
    memo_value (useDropShadowCss settings (rendered useDropShadowCss history None)) =
      dropShadowCss settings /\
    memo_value (useNoiseOpacity settings (rendered useNoiseOpacity history None)) =
      noiseOpacity settings /\
    memo_value (useVignetteOpacity settings (rendered useVignetteOpacity history None)) =
      vignetteOpacity settings.
Proof.
  intros numberText history settings.
  split; [|split; [|split]].
  - apply (useMemo_fresh same_canvasDeps canvasDeps (canvasBackground numberText)
             same_canvasDeps_eq).
    intros s s' Hd. unfold canvasDeps in Hd. injection Hd as Ht Hc Ha Hf Hg.
    now apply (memo_dependencies numberText s s').
  - apply (useMemo_fresh same_number_value dropShadow dropShadowCss same_number_value_eq).
    intros s s'. apply (memo_dependencies (fun _ => "") s s').
  - apply (useMemo_fresh same_number_value noise noiseOpacity same_number_value_eq).
    intros s s'. apply (memo_dependencies (fun _ => "") s s').
  - apply (useMemo_fresh same_number_value vignette vignetteOpacity same_number_value_eq).
    intros s s'. apply (memo_dependencies (fun _ => "") s s').
Qed.

(** *** The handlers at work, on doubles *)

(** Two settings that differ in the key only. *)
Lemma updateSetting_commute_noise_padding :
  updateSetting K_noise 30%float (updateSetting K_padding 80%float initialState) =
  updateSetting K_padding 80%float (updateSetting K_noise 30%float initialState).
Proof.
  apply (proj1 (updateSetting_commute initialState K_noise K_padding
                  30%float 30%float 80%float)).
  discriminate.
Defined.

(** The first gradient preset, clicked in the initial state. *)
Lemma preset_swatch_active_aurora :
  gradientSwatchActive (nth 0 gradientPresets (mkGradientPreset "" "" "" "" 0%float))
    (settings (onClickGradientPreset
                 (nth 0 gradientPresets (mkGradientPreset "" "" "" "" 0%float))
                 initialState)) = true.
Proof.
  refine (proj1 (preset_swatch_active initialState
    (nth 0 gradientPresets (mkGradientPreset "" "" "" "" 0%float))
    (nth 0 gradientPresets (mkGradientPreset "" "" "" "" 0%float))
    (nth 0 solidPresets (mkSolidPreset "" "" ""))
    (nth 0 solidPresets (mkSolidPreset "" "" "")) 0%float _ _ _ _));
    cbn; auto.
Defined.

Lemma last_load_wins_png_svg :
  imageDataUrl (state (run [ChooseFile (Some shot_png); ChooseFile (Some logo_svg);
                            ReaderLoads 1; ReaderLoads 0]
                         (initialWorld (num:=float)))) =
    Some (file_dataUrl shot_png).
Proof.
  exact (proj1 (proj2 (last_load_wins shot_png logo_svg initialWorld
                         eq_refl eq_refl eq_refl))).
Defined.

Lemma export_retry_after_failure_gif :
  exportDisabled
    (committed (run [ClickExport; Commit; ToPngSettles 0 Rejected noon; Commit]
                  (run gif_shown initialWorld))) = false.
Proof.
  exact (proj1 (proj2 (proj2 (proj2 (proj2 (proj2 (export_retry_after_failure
    (run gif_shown initialWorld) noon eq_refl eq_refl eq_refl eq_refl eq_refl))))))).
Defined.

Lemma export_keeps_click_values_cleared :
  exists before : list Effect,
    effects (run (ClickExport ::
                  [ClickExport; Commit; ClickExportScale scale3; ClickClear; Commit;
                   CallExport]
                  ++ [ToPngSettles 0 (Resolved some_png) noon])
               (run gif_shown initialWorld)) =
      before ++ [Download (js "anim-2x-2024-01-02T12-00-00-000Z.png") some_png].
Proof.
  exact (export_keeps_click_values (run gif_shown initialWorld)
           [ClickExport; Commit; ClickExportScale scale3; ClickClear; Commit; CallExport]
           some_png noon eq_refl eq_refl eq_refl eq_refl eq_refl).
Defined.

End AppMore.
